(** * LapBook: library index, reading state, annotations and settings

    A shallow embedding of the renderer process of LapBook (an Electron
    reader for EPUB and PDF files), of its settings manager and of the
    navigation core of its PDF viewer, followed by the properties of the
    library and reading-state manager.

    Conventions of the embedding.
    - A JavaScript string is a [string]; each [ascii] stands for one UTF-16
      code unit, so the strings covered are those whose code units lie
      below 256 (Latin-1).  [toLowerCase] is exact on that range.
    - [null] and [undefined] are [None]; a value that may be missing has an
      [option] type.  Truthiness is written out ([truthy], [or_else]).
    - Integers are [Z] (doubles are exact on the integers the code meets).
      The fraction reported by the EPUB engine and the progress figure
      computed from it are doubles: [float], the binary64 numbers of the
      kernel, with their correctly rounded product.
    - Global variables of the renderer are the fields of [State]; the clock,
      the pending debounce timer and the sequence of calls made to the
      storage bridge are fields of [State] too.
    - Whatever the outside world answers to an awaited call (a dialog, a
      file read, an engine) is an explicit argument of the operation.
    - The operations of [Renderer] are the asynchronous functions of the
      source run from their call to their end with nothing else running
      in between.  [Tasks] cuts the calls that open and add books at
      their awaits, and [PageQueue] does so for the renders of the PDF
      viewer, to follow calls that overlap. *)

From Stdlib Require Import ZArith QArith Qround String Ascii List Lia DecimalString.
From Stdlib Require Import Sorted Permutation DecimalN.
From Stdlib Require PrimFloat FloatOps SpecFloat Uint63.
From stdpp Require Import base option list gmap strings.

Local Open Scope Z_scope.

(** ** JavaScript primitives used by the sources *)

Module Js.

(** [ToBoolean] on strings: only the empty string is falsy. *)
Definition truthy (s : string) : bool := negb (String.eqb s "").

(** [ToBoolean] on a value that may be [null] or [undefined]. *)
Definition truthy_opt (o : option string) : bool :=
  match o with
  | Some s => truthy s
  | None => false
  end.

(** [ToBoolean] on an object reference that may be [null]. *)
Definition present {A : Type} (o : option A) : bool :=
  match o with
  | Some _ => true
  | None => false
  end.

(** [a || d] where [d] is a string. *)
Definition or_else (o : option string) (d : string) : string :=
  match o with
  | Some s => if truthy s then s else d
  | None => d
  end.

(** [a || b] where [b] may itself be missing. *)
Definition or_opt (a b : option string) : option string :=
  if truthy_opt a then a else b.

(** A JavaScript number: an IEEE 754 binary64 value. *)
Definition Number : Set := PrimFloat.float.

(** [x || 0] on a number that may be missing: [undefined], [NaN], [0] and
    [-0] are falsy. *)
Definition num_or_zero (o : option Number) : Number :=
  match o with
  | Some x => if PrimFloat.is_nan x || PrimFloat.is_zero x then PrimFloat.zero else x
  | None => PrimFloat.zero
  end.

(** The integer [floor (v + 1/2)] for the value [v] of a finite double,
    [m * 2 ^ e] or its opposite. *)
Definition nearestInteger (negative : bool) (m : positive) (e : Z) : Z :=
  let n := if negative then Z.neg m else Z.pos m in
  if 0 <=? e then n * 2 ^ e else (2 * n + 2 ^ (- e)) / 2 ^ (1 - e).

(** The double of an integer of magnitude at most 2^53. *)
Definition ofInteger (r : Z) : Number :=
  if r <? 0 then PrimFloat.opp (PrimFloat.of_uint63 (Uint63.of_Z (- r)))
  else PrimFloat.of_uint63 (Uint63.of_Z r).

(** [Math.round]: the integer nearest to [x], a tie going towards plus
    infinity.  [NaN], the infinities, the zeros and the doubles with no
    fractional bits are returned as they are; a result of zero keeps the
    sign of [x]. *)
Definition Math_round (x : Number) : Number :=
  match FloatOps.Prim2SF x with
  | SpecFloat.S754_finite negative m e =>
      if 0 <=? e then x
      else
        let r := nearestInteger negative m e in
        if r =? 0 then (if negative then PrimFloat.neg_zero else PrimFloat.zero)
        else ofInteger r
  | _ => x
  end.

(** The double nearest to the fraction [n / d] of two small integers. *)
Definition ratio (n d : Z) : Number := PrimFloat.div (ofInteger n) (ofInteger d).

Definition code (c : ascii) : N := N_of_ascii c.

Definition isUpperAscii (c : ascii) : bool :=
  ((65 <=? code c) && (code c <=? 90))%N.

(** Latin-1 capital letters, U+00C0 to U+00DE without the sign U+00D7. *)
Definition isUpperLatin1 (c : ascii) : bool :=
  ((192 <=? code c) && (code c <=? 222) && negb (code c =? 215))%N.

Definition lowerUnit (c : ascii) : ascii :=
  if isUpperAscii c || isUpperLatin1 c then ascii_of_N (code c + 32) else c.

Fixpoint mapUnits (f : ascii -> ascii) (s : string) : string :=
  match s with
  | EmptyString => EmptyString
  | String c r => String (f c) (mapUnits f r)
  end.

(** [String.prototype.toLowerCase]. *)
Definition toLowerCase (s : string) : string := mapUnits lowerUnit s.

(** The character class [[a-zA-Z0-9]]. *)
Definition isAlnum (c : ascii) : bool :=
  (((48 <=? code c) && (code c <=? 57))
   || ((65 <=? code c) && (code c <=? 90))
   || ((97 <=? code c) && (code c <=? 122)))%N.

Definition dashUnit (c : ascii) : ascii := if isAlnum c then c else "-"%char.

(** [s.replace(/[^a-zA-Z0-9]/g, '-')]: the pattern has no quantifier, so
    every code unit outside the class is replaced on its own. *)
Definition replaceNonAlnum (s : string) : string := mapUnits dashUnit s.

Definition consHead (c : ascii) (l : list string) : list string :=
  match l with
  | [] => [String c EmptyString]
  | h :: t => String c h :: t
  end.

(** [s.split(sep)] for a non-empty separator string.  [skip] counts the
    code units of a separator occurrence that remain to be dropped. *)
Fixpoint split_from (sep : string) (skip : nat) (s : string) : list string :=
  match s with
  | EmptyString => [EmptyString]
  | String c r =>
      match skip with
      | S k => split_from sep k r
      | O =>
          if String.prefix sep s
          then EmptyString :: split_from sep (Nat.pred (String.length sep)) r
          else consHead c (split_from sep 0 r)
      end
  end.

Definition split (sep s : string) : list string := split_from sep 0 s.

(** [Array.prototype.pop]: the last element, [undefined] on no element. *)
Definition pop (l : list string) : option string := last l.

(** [s.split(sep).pop()].  [split] returns at least one segment (lemma
    [split_from_nonempty] below), so the fallback is never taken. *)
Definition lastSegment (sep s : string) : string :=
  default EmptyString (pop (split sep s)).

(** Code units that [parseInt] skips at the start of its input. *)
Definition isWhiteSpace (c : ascii) : bool :=
  ((code c =? 9) || (code c =? 10) || (code c =? 11) || (code c =? 12)
   || (code c =? 13) || (code c =? 32) || (code c =? 160))%N.

Fixpoint trimStart (s : string) : string :=
  match s with
  | String c r => if isWhiteSpace c then trimStart r else s
  | EmptyString => EmptyString
  end.

(** Value of a digit or letter in a positional numeral. *)
Definition digitVal (c : ascii) : option Z :=
  let n := Z.of_N (code c) in
  if (48 <=? n) && (n <=? 57) then Some (n - 48)
  else if (97 <=? n) && (n <=? 122) then Some (n - 87)
  else if (65 <=? n) && (n <=? 90) then Some (n - 55)
  else None.

(** Value of the longest prefix of radix-[R] digits; [acc] is [None]
    until a digit has been read. *)
Fixpoint parseDigits (R : Z) (s : string) (acc : option Z) : option Z :=
  match s with
  | EmptyString => acc
  | String c r =>
      match digitVal c with
      | Some d =>
          if d <? R
          then parseDigits R r (Some (R * default 0 acc + d))
          else acc
      | None => acc
      end
  end.

(** [parseInt(s)] with no radix argument; [None] is [NaN]. *)
Definition parseInt (s : string) : option Z :=
  let s1 := trimStart s in
  let '(sign, s2) :=
    match s1 with
    | String "-" r => (-1, r)
    | String "+" r => (1, r)
    | _ => (1, s1)
    end in
  let '(R, s3) :=
    match s2 with
    | String "0" (String "x" r) => (16, r)
    | String "0" (String "X" r) => (16, r)
    | _ => (10, s2)
    end in
  match parseDigits R s3 None with
  | Some v => Some (sign * v)
  | None => None
  end.

(** Decimal rendering of a non-negative integer, as [String(n)] does. *)
Definition numToString (n : N) : string :=
  NilZero.string_of_uint (N.to_uint n).

(** The line feed that a template literal holds for [\n]. *)
Definition newline : string := String (ascii_of_nat 10) EmptyString.

(** [s.includes(sub)]. *)
Fixpoint includes (sub s : string) : bool :=
  match s with
  | EmptyString => String.eqb sub EmptyString
  | String _ r => String.prefix sub s || includes sub r
  end.

End Js.


(** ** settings.js: the settings manager *)

Module Settings.

(** Values of a preference: what a flat JSON object can hold. *)
Inductive Value :=
| VNull
| VBool (b : bool)
| VNum (q : Q)
| VStr (s : string).

Definition the_defaults : gmap string Value :=
  list_to_map
    [ ("fontSize", VNum 18); ("fontFamily", VStr "serif");
      ("lineSpacing", VNum (16 # 10)); ("marginSize", VNum 50);
      ("theme", VStr "sepia"); ("mouseWheelNav", VBool true);
      ("pageAnimation", VBool true); ("lastBookPath", VNull);
      ("lastLocation", VNull) ]%string.

Record SettingsManager := mkManager {
  defaults : gmap string Value;
  settings : gmap string Value
}.

(** [constructor()]: [this.settings = { ...this.defaults }]. *)
Definition constructor : SettingsManager :=
  {| defaults := the_defaults; settings := the_defaults |}.

(** What [await window.electronAPI.loadSettings()] does: the promise is
    rejected, or it resolves to [null] (no file, or the main process failed to
    read or parse it) or to the stored object. *)
Inductive LoadAnswer :=
| Rejected
| Resolved (saved : option (gmap string Value)).

(** [{ ...a, ...b }]: the keys of both, [b] winning on common keys. *)
Definition spread2 (a b : gmap string Value) : gmap string Value := b ∪ a.

(** [load()]: the manager afterwards and the value returned. *)
Definition load (ans : LoadAnswer) (m : SettingsManager)
  : SettingsManager * gmap string Value :=
  match ans with
  | Resolved (Some saved) =>
      let m' := {| defaults := defaults m;
                   settings := spread2 (defaults m) saved |} in
      (m', settings m')
  | Resolved None => (m, settings m)
  | Rejected => (m, settings m)
  end.

(** [get(key)]; [None] is [undefined].  The look-up is that of the object's
    own properties: for a key that is not set and names a member that
    every object inherits ([constructor], [toString] and the like) the
    source answers with that member. *)
Definition get (key : string) (m : SettingsManager) : option Value :=
  settings m !! key.

(** [set(key, value)]. *)
Definition set (key : string) (v : Value) (m : SettingsManager) : SettingsManager :=
  {| defaults := defaults m; settings := <[key := v]> (settings m) |}.

(** [reset()]. *)
Definition reset (m : SettingsManager) : SettingsManager :=
  {| defaults := defaults m; settings := defaults m |}.

End Settings.

(** ** The PDF viewer: page state and navigation *)

Module PDFViewer.

(** The viewer between two renders.  [pdfDoc] tells whether a document
    is loaded.  The methods below are the methods of the source called on
    a viewer with no render in progress and run to the end of the render
    that they start; the queue that [renderPage] keeps for calls that
    arrive during a render is in [PageQueue] below, and lemma
    [awaited_call] relates the two. *)
Record t := mk {
  pdfDoc : bool;
  currentPage : Z;
  totalPages : Z
}.

Definition constructor : t :=
  {| pdfDoc := false; currentPage := 1; totalPages := 0 |}.

(** [renderPage(pageNum)] with no render in progress and nothing
    pending, from the call to the end of the render; the page is current
    whether the engine renders it or throws. *)
Definition renderPage (pageNum : Z) (v : t) : t :=
  if pdfDoc v
  then {| pdfDoc := true; currentPage := pageNum; totalPages := totalPages v |}
  else v.

(** [loadPDF(arrayBuffer)] on a buffer that holds a PDF of [numPages]
    pages. *)
Definition loadPDF (numPages : Z) (v : t) : t :=
  renderPage 1 {| pdfDoc := true; currentPage := 1; totalPages := numPages |}.

Definition nextPage (v : t) : t :=
  if currentPage v <? totalPages v then renderPage (currentPage v + 1) v else v.

Definition previousPage (v : t) : t :=
  if 1 <? currentPage v then renderPage (currentPage v - 1) v else v.

(** [goToPage(pageNum)]. *)
Definition goToPage (pageNum : Z) (v : t) : t :=
  if (1 <=? pageNum) && (pageNum <=? totalPages v) then renderPage pageNum v else v.

Definition destroy (v : t) : t :=
  {| pdfDoc := false; currentPage := 1; totalPages := 0 |}.

End PDFViewer.

(** ** The renderer process: data *)

Module Entry.

(** An entry of the library index.  The two dates are kept as the instant
    (milliseconds since the epoch) that the stored ISO string denotes. *)
Record t := mk {
  id : string;
  path : string;
  title : string;
  author : string;
  fileType : string;
  coverPath : option string;
  addedDate : Z;
  lastOpened : option Z;
  lastPosition : option string;
  progress : Js.Number
}.

End Entry.

Module Highlight.

Record t := mk {
  id : string;
  cfiRange : string;
  text : string;
  color : string;
  note : string;
  created : Z
}.

End Highlight.

Module Renderer.

Import Js.

(** Metadata of an EPUB package as the engine reports it. *)
Record EpubMetadata := mkMetadata {
  md_title : option string;
  creator : option string;
  identifier : option string
}.

(** What the EPUB engine makes of a file: the metadata ([None] when the
    metadata promise is rejected), whether a cover image can be extracted
    and stored, whether the first display succeeds, and which locators the
    document accepts. *)
Record EpubDoc := mkEpubDoc {
  metadata : option EpubMetadata;
  hasCover : bool;
  displays : bool;
  accepts : string -> bool
}.

(** What lies behind a file path. *)
Inductive FileContent :=
| Unreadable
| EmptyFile
| PdfDocument (numPages : Z) (infoTitle infoAuthor : option string)
| EpubDocument (d : EpubDoc)
| OtherBytes.

(** The answers of the outside world during one operation.  [pdfSupport]
    tells whether the scripts of the PDF engine can be loaded.  The errors
    that the outside world raises are [Error] objects, and [failure] gives
    the message of the one raised for the file at a path: by the read of
    an unreadable file, by an engine on content that it cannot parse, by
    the first display of a document that does not display. *)
Record World := mkWorld {
  files : string -> FileContent;
  dialogChoice : option string;
  pdfSupport : bool;
  highlightStore : string -> list Highlight.t;
  failure : string -> string
}.

(** The rendition of the open EPUB: the locator on display ([None] is the
    start of the book) and the locators its document accepts. *)
Record Rendition := mkRendition {
  shown : option string;
  navigable : string -> bool
}.

(** The position carried by a [relocated] event. *)
Record Start := mkStart {
  cfi : string;
  percentage : option Number
}.

Record Location := mkLocation {
  start : option Start
}.

(** Calls that leave the renderer: the storage bridge and [alert] with
    its message. *)
Inductive Effect :=
| SaveLibrary (lib : list Entry.t)
| SaveHighlights (bookId : option string) (hs : list Highlight.t)
| SaveSettings (s : gmap string Settings.Value)
| SaveCover (bookId : string)
| Alert (msg : string).

(** The global variables of the renderer, the clock ([Date.now()]), the
    deadline of the pending save timer ([window.librarySaveTimeout], [None]
    when no timer is pending) and the calls made so far, oldest first.
    The class [PDFViewer] exists once the script that [pdfViewerLoaded]
    tracks has been loaded. *)
Record State := mkState {
  library : list Entry.t;
  currentBookPath : option string;
  rendition : option Rendition;
  pdfViewer : option PDFViewer.t;
  bookIdentifier : option string;
  highlights : list Highlight.t;
  currentLocationCfi : option string;
  editingBookId : option string;
  settingsManager : Settings.SettingsManager;
  librarySaveTimeout : option Z;
  clock : Z;
  calls : list Effect;
  pdfJsLoaded : bool;
  pdfViewerLoaded : bool
}.

Definition set_library (v : list Entry.t) (st : State) : State :=
  {| library := v; currentBookPath := currentBookPath st; rendition := rendition st;
     pdfViewer := pdfViewer st; bookIdentifier := bookIdentifier st;
     highlights := highlights st; currentLocationCfi := currentLocationCfi st;
     editingBookId := editingBookId st; settingsManager := settingsManager st;
     librarySaveTimeout := librarySaveTimeout st; clock := clock st;
     calls := calls st;
     pdfJsLoaded := pdfJsLoaded st; pdfViewerLoaded := pdfViewerLoaded st |}.

Definition set_currentBookPath (v : option string) (st : State) : State :=
  {| library := library st; currentBookPath := v; rendition := rendition st;
     pdfViewer := pdfViewer st; bookIdentifier := bookIdentifier st;
     highlights := highlights st; currentLocationCfi := currentLocationCfi st;
     editingBookId := editingBookId st; settingsManager := settingsManager st;
     librarySaveTimeout := librarySaveTimeout st; clock := clock st;
     calls := calls st;
     pdfJsLoaded := pdfJsLoaded st; pdfViewerLoaded := pdfViewerLoaded st |}.

Definition set_rendition (v : option Rendition) (st : State) : State :=
  {| library := library st; currentBookPath := currentBookPath st; rendition := v;
     pdfViewer := pdfViewer st; bookIdentifier := bookIdentifier st;
     highlights := highlights st; currentLocationCfi := currentLocationCfi st;
     editingBookId := editingBookId st; settingsManager := settingsManager st;
     librarySaveTimeout := librarySaveTimeout st; clock := clock st;
     calls := calls st;
     pdfJsLoaded := pdfJsLoaded st; pdfViewerLoaded := pdfViewerLoaded st |}.

Definition set_pdfViewer (v : option PDFViewer.t) (st : State) : State :=
  {| library := library st; currentBookPath := currentBookPath st;
     rendition := rendition st; pdfViewer := v; bookIdentifier := bookIdentifier st;
     highlights := highlights st; currentLocationCfi := currentLocationCfi st;
     editingBookId := editingBookId st; settingsManager := settingsManager st;
     librarySaveTimeout := librarySaveTimeout st; clock := clock st;
     calls := calls st;
     pdfJsLoaded := pdfJsLoaded st; pdfViewerLoaded := pdfViewerLoaded st |}.

Definition set_bookIdentifier (v : option string) (st : State) : State :=
  {| library := library st; currentBookPath := currentBookPath st;
     rendition := rendition st; pdfViewer := pdfViewer st; bookIdentifier := v;
     highlights := highlights st; currentLocationCfi := currentLocationCfi st;
     editingBookId := editingBookId st; settingsManager := settingsManager st;
     librarySaveTimeout := librarySaveTimeout st; clock := clock st;
     calls := calls st;
     pdfJsLoaded := pdfJsLoaded st; pdfViewerLoaded := pdfViewerLoaded st |}.

Definition set_highlights (v : list Highlight.t) (st : State) : State :=
  {| library := library st; currentBookPath := currentBookPath st;
     rendition := rendition st; pdfViewer := pdfViewer st;
     bookIdentifier := bookIdentifier st; highlights := v;
     currentLocationCfi := currentLocationCfi st; editingBookId := editingBookId st;
     settingsManager := settingsManager st;
     librarySaveTimeout := librarySaveTimeout st; clock := clock st;
     calls := calls st;
     pdfJsLoaded := pdfJsLoaded st; pdfViewerLoaded := pdfViewerLoaded st |}.

Definition set_currentLocationCfi (v : option string) (st : State) : State :=
  {| library := library st; currentBookPath := currentBookPath st;
     rendition := rendition st; pdfViewer := pdfViewer st;
     bookIdentifier := bookIdentifier st; highlights := highlights st;
     currentLocationCfi := v; editingBookId := editingBookId st;
     settingsManager := settingsManager st;
     librarySaveTimeout := librarySaveTimeout st; clock := clock st;
     calls := calls st;
     pdfJsLoaded := pdfJsLoaded st; pdfViewerLoaded := pdfViewerLoaded st |}.

Definition set_editingBookId (v : option string) (st : State) : State :=
  {| library := library st; currentBookPath := currentBookPath st;
     rendition := rendition st; pdfViewer := pdfViewer st;
     bookIdentifier := bookIdentifier st; highlights := highlights st;
     currentLocationCfi := currentLocationCfi st; editingBookId := v;
     settingsManager := settingsManager st;
     librarySaveTimeout := librarySaveTimeout st; clock := clock st;
     calls := calls st;
     pdfJsLoaded := pdfJsLoaded st; pdfViewerLoaded := pdfViewerLoaded st |}.

Definition set_settingsManager (v : Settings.SettingsManager) (st : State) : State :=
  {| library := library st; currentBookPath := currentBookPath st;
     rendition := rendition st; pdfViewer := pdfViewer st;
     bookIdentifier := bookIdentifier st; highlights := highlights st;
     currentLocationCfi := currentLocationCfi st; editingBookId := editingBookId st;
     settingsManager := v; librarySaveTimeout := librarySaveTimeout st;
     clock := clock st; calls := calls st;
     pdfJsLoaded := pdfJsLoaded st; pdfViewerLoaded := pdfViewerLoaded st |}.

Definition set_librarySaveTimeout (v : option Z) (st : State) : State :=
  {| library := library st; currentBookPath := currentBookPath st;
     rendition := rendition st; pdfViewer := pdfViewer st;
     bookIdentifier := bookIdentifier st; highlights := highlights st;
     currentLocationCfi := currentLocationCfi st; editingBookId := editingBookId st;
     settingsManager := settingsManager st; librarySaveTimeout := v; clock := clock st;
     calls := calls st;
     pdfJsLoaded := pdfJsLoaded st; pdfViewerLoaded := pdfViewerLoaded st |}.

Definition set_clock (v : Z) (st : State) : State :=
  {| library := library st; currentBookPath := currentBookPath st;
     rendition := rendition st; pdfViewer := pdfViewer st;
     bookIdentifier := bookIdentifier st; highlights := highlights st;
     currentLocationCfi := currentLocationCfi st; editingBookId := editingBookId st;
     settingsManager := settingsManager st;
     librarySaveTimeout := librarySaveTimeout st; clock := v; calls := calls st;
     pdfJsLoaded := pdfJsLoaded st; pdfViewerLoaded := pdfViewerLoaded st |}.

Definition set_calls (v : list Effect) (st : State) : State :=
  {| library := library st; currentBookPath := currentBookPath st;
     rendition := rendition st; pdfViewer := pdfViewer st;
     bookIdentifier := bookIdentifier st; highlights := highlights st;
     currentLocationCfi := currentLocationCfi st; editingBookId := editingBookId st;
     settingsManager := settingsManager st;
     librarySaveTimeout := librarySaveTimeout st; clock := clock st; calls := v;
     pdfJsLoaded := pdfJsLoaded st; pdfViewerLoaded := pdfViewerLoaded st |}.

(** The two flags once [loadPDFLibraries] has loaded both scripts. *)
Definition set_pdfLibrariesLoaded (st : State) : State :=
  {| library := library st; currentBookPath := currentBookPath st;
     rendition := rendition st; pdfViewer := pdfViewer st;
     bookIdentifier := bookIdentifier st; highlights := highlights st;
     currentLocationCfi := currentLocationCfi st; editingBookId := editingBookId st;
     settingsManager := settingsManager st;
     librarySaveTimeout := librarySaveTimeout st; clock := clock st; calls := calls st;
     pdfJsLoaded := true; pdfViewerLoaded := true |}.

(** ** The renderer process: operations *)

Definition emit (e : Effect) (st : State) : State :=
  set_calls (calls st ++ [e]) st.

Definition alert (msg : string) (st : State) : State := emit (Alert msg) st.

(** [saveLibrary()]: hands the whole index to the storage bridge; a failure
    is logged and otherwise ignored. *)
Definition saveLibrary (st : State) : State := emit (SaveLibrary (library st)) st.

(** [saveHighlightsToFile()]: hands the whole set to the storage bridge. *)
Definition saveHighlightsToFile (st : State) : State :=
  emit (SaveHighlights (bookIdentifier st) (highlights st)) st.

(** [settingsManager.save()]. *)
Definition saveSettings (st : State) : State :=
  emit (SaveSettings (Settings.settings (settingsManager st))) st.

(** [Date.now()]. *)
Definition Date_now (st : State) : string := numToString (Z.to_N (clock st)).

(** [`${title}-${author}`.replace(/[^a-zA-Z0-9]/g, '-').toLowerCase()]. *)
Definition slugOf (title author : string) : string :=
  toLowerCase (replaceNonAlnum (title +:+ "-" +:+ author)).

(** [generateBookIdentifier()]; [md] is what [book.loaded.metadata] resolves
    to, [None] when it is rejected. *)
Definition generateBookIdentifier (md : option EpubMetadata) (st : State) : State :=
  match md with
  | Some m =>
      if truthy_opt (identifier m)
      then set_bookIdentifier (identifier m) st
      else
        let title := or_else (md_title m) "unknown" in
        let author := or_else (creator m) "unknown" in
        set_bookIdentifier (Some (slugOf title author)) st
  | None => set_bookIdentifier (Some ("unknown-book-" +:+ Date_now st)) st
  end.

(** [loadHighlights()]. *)
Definition loadHighlights (w : World) (st : State) : State :=
  set_highlights (highlightStore w (default "null"%string (bookIdentifier st))) st.

(** The file type that [addBookToLibrary] records when its caller gives
    none: [extension === 'pdf' ? 'pdf' : 'epub']. *)
Definition classifyFileType (filePath : string) : string :=
  if String.eqb (toLowerCase (lastSegment "." filePath)) "pdf" then "pdf" else "epub".

(** Path of the stored cover, relative to the user-data directory. *)
Definition coverFile (bookId : string) : string := "covers/" +:+ bookId +:+ ".jpg".

(** [library.find(b => b.path === p)]. *)
Definition findByPath (p : string) (lib : list Entry.t) : option Entry.t :=
  List.find (fun b => String.eqb (Entry.path b) p) lib.

(** [library.find(b => b.id === i)]. *)
Definition findById (i : string) (lib : list Entry.t) : option Entry.t :=
  List.find (fun b => String.eqb (Entry.id b) i) lib.

(** Assignment to fields of the object that [find] returned: the first
    element that satisfies [p] is changed in place. *)
Fixpoint updateFirst (p : Entry.t -> bool) (f : Entry.t -> Entry.t)
  (lib : list Entry.t) : list Entry.t :=
  match lib with
  | [] => []
  | b :: rest => if p b then f b :: rest else b :: updateFirst p f rest
  end.

(** The path that [addBookToLibrary] works on: its argument, or else the
    answer of the file dialog; [None] when there is neither. *)
Definition chosenPath (filePathArg : option string) (w : World) : option string :=
  if truthy_opt filePathArg then filePathArg
  else if truthy_opt (dialogChoice w) then dialogChoice w else None.

(** What [addBookToLibrary] makes of the file once [readEpubFile] has
    answered: the state after the cover, if there is one, has been handed
    to the storage bridge, and the entry that is built.  [None] when the
    read, the engine, or [new PDFViewer()] while the class is not loaded,
    throws. *)
Definition libraryEntryFor (filePath : string) (titleArg authorArg : option string)
  (fileType : string) (w : World) (st : State) : option (State * Entry.t) :=
  if String.eqb fileType "pdf" then
    match files w filePath with
    | PdfDocument _ infoTitle infoAuthor =>
        if negb (pdfViewerLoaded st) then None
        else
          let title :=
            or_else (or_opt titleArg (Some (or_else infoTitle "Untitled PDF")))
                    (lastSegment "\\" filePath) in
          let author :=
            or_else (or_opt authorArg (Some (or_else infoAuthor "Unknown")))
                    "Unknown" in
          let bookId := slugOf title author +:+ "-" +:+ Date_now st in
          Some (st,
                {| Entry.id := bookId; Entry.path := filePath; Entry.title := title;
                   Entry.author := author; Entry.fileType := fileType;
                   Entry.coverPath := None; Entry.addedDate := clock st;
                   Entry.lastOpened := None; Entry.lastPosition := None;
                   Entry.progress := PrimFloat.zero |})
    | _ => None
    end
  else
    match files w filePath with
    | EpubDocument d =>
        match metadata d with
        | Some m =>
            let title := or_else (or_opt titleArg (md_title m)) "Unknown Title" in
            let author := or_else (or_opt authorArg (creator m)) "Unknown Author" in
            let bookId :=
              or_else (identifier m)
                      (slugOf title author +:+ "-" +:+ Date_now st) in
            Some (if hasCover d then emit (SaveCover bookId) st else st,
                  {| Entry.id := bookId; Entry.path := filePath; Entry.title := title;
                     Entry.author := author; Entry.fileType := fileType;
                     Entry.coverPath :=
                       if hasCover d then Some (coverFile bookId) else None;
                     Entry.addedDate := clock st;
                     Entry.lastOpened := None; Entry.lastPosition := None;
                     Entry.progress := PrimFloat.zero |})
        | None => None
        end
    | _ => None
    end.

(** The handler of the whole body of [addBookToLibrary]. *)
Definition addBookToLibrary_failed (st : State) : State :=
  alert "Failed to add book to library. Please try again." st.

(** [addBookToLibrary(filePathArg, titleArg, authorArg, fileTypeArg)], run
    from its call to its end with nothing else running in between (the
    same call cut at its awaits is in [Tasks] below), with the call to
    [loadBook] left open as [openBook].  A click event passed in place of
    the path is set to [null] by the source before anything else and is
    [None] here. *)
Definition addBookToLibrary_with (openBook : string -> State -> State)
  (filePathArg titleArg authorArg fileTypeArg : option string)
  (w : World) (st : State) : State :=
  match chosenPath filePathArg w with
  | None => st
  | Some filePath =>
      let fileType := or_else fileTypeArg (classifyFileType filePath) in
      match findByPath filePath (library st) with
      | Some _ => if truthy_opt filePathArg then st else openBook filePath st
      | None =>
          match libraryEntryFor filePath titleArg authorArg fileType w st with
          | Some (st1, e) =>
              let s1 := saveLibrary (set_library (e :: library st1) st1) in
              if truthy_opt filePathArg then s1 else openBook filePath s1
          | None => addBookToLibrary_failed st
          end
      end
  end.

(** The call made by [loadPDF]: the path argument is a non-empty string,
    so the branches that open the book are not taken (lemma
    [addBookToLibrary_with_path] below). *)
Definition addBookToLibrary_from_loader :=
  addBookToLibrary_with (fun _ st => st).

(** How a call ends: it returns, or it throws an error with a message. *)
Inductive Completion :=
| Returned
| Threw (message : string).

(** The message that the handler of [loadPDF] shows for an error;
    [viewerPresent] is the test [if (pdfViewer)] at that moment. *)
Definition pdfFailureAlert (message : string) (viewerPresent : bool) : string :=
  let errorMsg := or_else (Some message) "Unknown error" in
  let userMsg :=
    if includes "empty" errorMsg then "PDF file appears to be empty or corrupted."
    else if includes "password" errorMsg
    then "This PDF is password-protected and cannot be opened."
    else if includes "unavailable" errorMsg then "PDF support could not be initialized."
    else if viewerPresent then "Failed to load PDF. The file may be corrupted."
    else "Failed to load PDF." in
  ("Error: " +:+ userMsg +:+ newline +:+ newline +:+ "Technical details: " +:+ errorMsg)%string.

(** The handler of [loadPDF]: the alert, the clean-up of the viewer, and
    the error thrown again. *)
Definition loadPDF_failed (message : string) (st : State) : State * Completion :=
  (set_pdfViewer None (alert (pdfFailureAlert message (present (pdfViewer st))) st),
   Threw message).

(** [loadPDF(filePath)] from the read of the file on, the viewer being
    the new one. *)
Definition loadPDF_read (filePath : string) (w : World) (st : State)
  : State * Completion :=
  match files w filePath with
  | Unreadable => loadPDF_failed (failure w filePath) st
  | EmptyFile => loadPDF_failed "PDF file is empty or could not be read" st
  | PdfDocument numPages infoTitle infoAuthor =>
      let st1 :=
        set_pdfViewer (Some (PDFViewer.loadPDF numPages PDFViewer.constructor)) st in
      (addBookToLibrary_from_loader
         (Some filePath)
         (Some (or_else (Some (or_else infoTitle "Untitled PDF")) "Untitled PDF"))
         (Some (or_else (Some (or_else infoAuthor "Unknown")) "Unknown"))
         (Some "pdf"%string) w st1, Returned)
  | _ => loadPDF_failed ("Failed to load PDF file: " +:+ failure w filePath) st
  end.

(** [loadPDF(filePath)] once the scripts are loaded: the viewer is
    replaced by a new one and the file is read. *)
Definition loadPDF_view (filePath : string) (w : World) (st : State)
  : State * Completion :=
  loadPDF_read filePath w (set_pdfViewer (Some PDFViewer.constructor) st).

(** [loadPDF(filePath)], run from its call to its end with nothing else
    running in between; with the state it says whether it returned or
    threw again after its own clean-up. *)
Definition loadPDF (filePath : string) (w : World) (st : State) : State * Completion :=
  let st1 := set_rendition None st in
  if pdfJsLoaded st1 && pdfViewerLoaded st1 then loadPDF_view filePath w st1
  else if pdfSupport w then loadPDF_view filePath w (set_pdfLibrariesLoaded st1)
  else loadPDF_failed "PDF support unavailable. Please restart the application." st1.

(** The message that the handler of [loadEPUB] shows for an error. *)
Definition epubFailureAlert (message : string) : string :=
  let errorMsg := or_else (Some message) "Unknown error" in
  let userMsg :=
    if includes "empty" errorMsg then "EPUB file appears to be empty or corrupted."
    else if includes "DRM" errorMsg
    then "This EPUB file has DRM protection and cannot be opened."
    else if includes "invalid" errorMsg
    then "This file does not appear to be a valid EPUB."
    else "Failed to load EPUB file." in
  ("Error: " +:+ userMsg +:+ newline +:+ newline +:+ "Technical details: " +:+ errorMsg)%string.

(** The handler of [loadEPUB]: the alert and the clean-up of the
    rendition. *)
Definition loadEPUB_failed (message : string) (st : State) : State :=
  set_rendition None (alert (epubFailureAlert message) st).

(** [loadEPUB(filePath)] from the read of the file on. *)
Definition loadEPUB_read (filePath : string) (w : World) (st : State) : State :=
  match files w filePath with
  | Unreadable => loadEPUB_failed (failure w filePath) st
  | EmptyFile => loadEPUB_failed "EPUB file is empty or could not be read" st
  | EpubDocument d =>
      if displays d then
        let st2 := set_rendition (Some {| shown := None; navigable := accepts d |}) st in
        let st3 := loadHighlights w (generateBookIdentifier (metadata d) st2) in
        saveSettings
          (set_settingsManager
             (Settings.set "lastBookPath" (Settings.VStr filePath) (settingsManager st3))
             st3)
      else loadEPUB_failed ("Failed to display EPUB content: " +:+ failure w filePath) st
  | _ => loadEPUB_failed (failure w filePath) st
  end.

(** [loadEPUB(filePath)], run from its call to its end with nothing else
    running in between; it reports its failures itself and never
    throws. *)
Definition loadEPUB (filePath : string) (w : World) (st : State) : State :=
  loadEPUB_read filePath w (set_rendition None (set_pdfViewer None st)).

(** Where [loadBook] sends a path. *)
Inductive Dispatch := ToPDF | ToEPUB | Unsupported.

Definition dispatch (filePath : string) : Dispatch :=
  let extension := toLowerCase (lastSegment "." filePath) in
  if String.eqb extension "pdf" then ToPDF
  else if String.eqb extension "epub" then ToEPUB
  else Unsupported.

(** The handler of [loadBook]: [alert('Failed to load book: ' + error.message)]. *)
Definition loadBook_failed (message : string) (st : State) : State :=
  alert ("Failed to load book: " +:+ message) st.

(** What [loadBook] makes of the end of [loadPDF]. *)
Definition loadBook_after (r : State * Completion) : State :=
  match r with
  | (st, Returned) => st
  | (st, Threw message) => loadBook_failed message st
  end.

(** [loadBook(filePath)], run from its call to its end with nothing else
    running in between. *)
Definition loadBook (filePath : string) (w : World) (st : State) : State :=
  let st1 := set_currentBookPath (Some filePath) st in
  match dispatch filePath with
  | ToPDF => loadBook_after (loadPDF filePath w st1)
  | ToEPUB => loadEPUB filePath w st1
  | Unsupported =>
      loadBook_failed "Unsupported file format. Only EPUB and PDF files are supported." st1
  end.

(** [addBookToLibrary]. *)
Definition addBookToLibrary
  (filePathArg titleArg authorArg fileTypeArg : option string)
  (w : World) (st : State) : State :=
  addBookToLibrary_with (fun p => loadBook p w)
    filePathArg titleArg authorArg fileTypeArg w st.

(** [removeBookFromLibrary(bookId)]; [confirmed] is the answer to the
    confirmation prompt. *)
Definition removeBookFromLibrary (bookId : string) (confirmed : bool) (st : State) : State :=
  if confirmed
  then saveLibrary
         (set_library
            (List.filter (fun b => negb (String.eqb (Entry.id b) bookId)) (library st)) st)
  else st.

(** [openEditBookDialog(bookId)]. *)
Definition openEditBookDialog (bookId : string) (st : State) : State :=
  match findById bookId (library st) with
  | Some _ => set_editingBookId (Some bookId) st
  | None => st
  end.

(** The two assignments of [saveEditedBook]:
    [book.title = titleInput || 'Unknown Title'] and
    [book.author = authorInput || 'Unknown Author']. *)
Definition editEntry (titleInput authorInput : string) (b : Entry.t) : Entry.t :=
  {| Entry.id := Entry.id b; Entry.path := Entry.path b;
     Entry.title := or_else (Some titleInput) "Unknown Title";
     Entry.author := or_else (Some authorInput) "Unknown Author";
     Entry.fileType := Entry.fileType b; Entry.coverPath := Entry.coverPath b;
     Entry.addedDate := Entry.addedDate b; Entry.lastOpened := Entry.lastOpened b;
     Entry.lastPosition := Entry.lastPosition b;
     Entry.progress := Entry.progress b |}.

(** [saveEditedBook()]; the two strings are the values of the title and
    author input fields. *)
Definition saveEditedBook (titleInput authorInput : string) (st : State) : State :=
  match editingBookId st with
  | None => st
  | Some bookId =>
      if truthy bookId then
        match findById bookId (library st) with
        | None => st
        | Some _ =>
            set_editingBookId None
              (saveLibrary
                 (set_library
                    (updateFirst (fun b => String.eqb (Entry.id b) bookId)
                                 (editEntry titleInput authorInput) (library st))
                    st))
        end
      else st
  end.

(** [cancelEditBook()]. *)
Definition cancelEditBook (st : State) : State := set_editingBookId None st.

(** The progress figure stored for a fraction:
    [Math.round((percentage || 0) * 100)]. *)
Definition progressOf (percentage : option Number) : Number :=
  Math_round (PrimFloat.mul (num_or_zero percentage) (ofInteger 100)).

(** The quiet period of the debounced save, in milliseconds. *)
Definition quietWindow : Z := 2000.

(** The two assignments of [onLocationChange]:
    [book.lastPosition = currentLocationCfi] and
    [book.progress = Math.round((location.start.percentage || 0) * 100)]. *)
Definition recordPosition (s : Start) (b : Entry.t) : Entry.t :=
  {| Entry.id := Entry.id b; Entry.path := Entry.path b;
     Entry.title := Entry.title b; Entry.author := Entry.author b;
     Entry.fileType := Entry.fileType b; Entry.coverPath := Entry.coverPath b;
     Entry.addedDate := Entry.addedDate b; Entry.lastOpened := Entry.lastOpened b;
     Entry.lastPosition := Some (cfi s);
     Entry.progress := progressOf (percentage s) |}.

(** [onLocationChange(location)], the handler of the [relocated] event of
    the rendition. *)
Definition onLocationChange (location : option Location) (st : State) : State :=
  match location with
  | Some {| start := Some s |} =>
      let st1 := set_currentLocationCfi (Some (cfi s)) st in
      let st2 :=
        saveSettings
          (set_settingsManager
             (Settings.set "lastLocation" (Settings.VStr (cfi s)) (settingsManager st1))
             st1) in
      match currentBookPath st2 with
      | Some p =>
          if truthy p then
            match findByPath p (library st2) with
            | Some _ =>
                set_librarySaveTimeout (Some (clock st2 + quietWindow))
                  (set_library
                     (updateFirst (fun b => String.eqb (Entry.path b) p)
                                  (recordPosition s) (library st2))
                     st2)
            | None => st2
            end
          else st2
      | None => st2
      end
  | _ => st
  end.

(** The passing of [dt] milliseconds with no other event: the clock
    advances, and the pending save timer, once its deadline is reached,
    runs its callback [saveLibrary] and is gone. *)
Definition elapse (dt : Z) (st : State) : State :=
  let st1 := set_clock (clock st + dt) st in
  match librarySaveTimeout st1 with
  | Some deadline =>
      if deadline <=? clock st1
      then saveLibrary (set_librarySaveTimeout None st1)
      else st1
  | None => st1
  end.

(** What happens to an open EPUB: the engine reports a new position, or
    time passes. *)
Inductive Event :=
| Relocated (location : option Location)
| Elapse (dt : Z).

Definition step (st : State) (ev : Event) : State :=
  match ev with
  | Relocated location => onLocationChange location st
  | Elapse dt => elapse dt st
  end.

Definition run (evs : list Event) (st : State) : State := fold_left step evs st.

(** The library writes among the calls made so far, oldest first. *)
Fixpoint libraryWrites (cs : list Effect) : list (list Entry.t) :=
  match cs with
  | [] => []
  | SaveLibrary lib :: rest => lib :: libraryWrites rest
  | _ :: rest => libraryWrites rest
  end.

(** The highlight writes among the calls made so far, oldest first. *)
Fixpoint highlightWrites (cs : list Effect) : list (option string * list Highlight.t) :=
  match cs with
  | [] => []
  | SaveHighlights b hs :: rest => (b, hs) :: highlightWrites rest
  | _ :: rest => highlightWrites rest
  end.

(** [saveHighlight()] once a range is selected and its text is read;
    [text] and [note] are already trimmed. *)
Definition saveHighlight (selectedCfiRange text selectedColor note : string)
  (st : State) : State :=
  let highlight :=
    {| Highlight.id := Date_now st; Highlight.cfiRange := selectedCfiRange;
       Highlight.text := text; Highlight.color := selectedColor;
       Highlight.note := note; Highlight.created := clock st |} in
  saveHighlightsToFile (set_highlights (highlights st ++ [highlight]) st).

(** [deleteHighlight(highlightId)]; [confirmed] is the answer to the
    confirmation prompt. *)
Definition deleteHighlight (highlightId : string) (confirmed : bool) (st : State) : State :=
  if confirmed
  then saveHighlightsToFile
         (set_highlights
            (List.filter (fun h => negb (String.eqb (Highlight.id h) highlightId))
                         (highlights st))
            st)
  else st.

(** [rendition.display(target)]: a locator that the document does not
    accept makes the call fail and leaves the display as it is. *)
Definition display (target : string) (r : Rendition) : option Rendition :=
  if navigable r target
  then Some {| shown := Some target; navigable := navigable r |}
  else None.

(** The EPUB branch of the resume: a failed navigation is caught and
    logged. *)
Definition resumeEPUB (pos : string) (st : State) : State :=
  match rendition st with
  | Some r =>
      match display pos r with
      | Some r' => set_rendition (Some r') st
      | None => st
      end
  | None => st
  end.

(** The PDF branch of the resume:
    [const pageNum = parseInt(book.lastPosition); if (pageNum > 0) ...]. *)
Definition resumePDF (pos : string) (st : State) : State :=
  match pdfViewer st with
  | Some v =>
      match parseInt pos with
      | Some pageNum =>
          if 0 <? pageNum
          then set_pdfViewer (Some (PDFViewer.goToPage pageNum v)) st
          else st
      | None => st
      end
  | None => st
  end.

(** [book.lastOpened = new Date().toISOString()]. *)
Definition touchEntry (now : Z) (b : Entry.t) : Entry.t :=
  {| Entry.id := Entry.id b; Entry.path := Entry.path b;
     Entry.title := Entry.title b; Entry.author := Entry.author b;
     Entry.fileType := Entry.fileType b; Entry.coverPath := Entry.coverPath b;
     Entry.addedDate := Entry.addedDate b; Entry.lastOpened := Some now;
     Entry.lastPosition := Entry.lastPosition b;
     Entry.progress := Entry.progress b |}.

(** [openBookFromLibrary(bookPath)].  [book] is the object found in the
    library; neither the time stamp nor [loadBook] changes its
    [lastPosition] or [fileType], which are read after the load. *)
Definition openBookFromLibrary (bookPath : string) (w : World) (st : State) : State :=
  let book := findByPath bookPath (library st) in
  let st1 :=
    match book with
    | Some _ =>
        saveLibrary
          (set_library
             (updateFirst (fun b => String.eqb (Entry.path b) bookPath)
                          (touchEntry (clock st)) (library st))
             st)
    | None => st
    end in
  let st2 := loadBook bookPath w st1 in
  match book with
  | Some b =>
      let pos := Entry.lastPosition b in
      if truthy_opt pos && String.eqb (Entry.fileType b) "epub" && present (rendition st2)
      then resumeEPUB (default EmptyString pos) st2
      else if truthy_opt pos && String.eqb (Entry.fileType b) "pdf" && present (pdfViewer st2)
      then resumePDF (default EmptyString pos) st2
      else st2
  | None => st2
  end.

End Renderer.


(** ** Definitions that follow the wording of the specification *)

Module Wording.

Import Js.

(** "Replacing every non-alphanumeric run with a single separator":
    [inRun] tells whether the previous code unit was already replaced. *)
Fixpoint collapseRuns (inRun : bool) (s : string) : string :=
  match s with
  | EmptyString => EmptyString
  | String c r =>
      if isAlnum c then String c (collapseRuns false r)
      else if inRun then collapseRuns true r
      else String "-" (collapseRuns true r)
  end.

(** The fallback identifier as the specification words it: lowercase, then
    one separator for each maximal run. *)
Definition slugByRuns (title author : string) : string :=
  collapseRuns false (toLowerCase (title +:+ "-" +:+ author)).

(** "Clamped 0 to 100". *)
Definition clamp (x : Number) : Number :=
  if PrimFloat.ltb x PrimFloat.zero then PrimFloat.zero
  else if PrimFloat.ltb (ofInteger 100) x then ofInteger 100
  else x.

(** "Within 0-100". *)
Definition inRange (x : Number) : bool :=
  PrimFloat.leb PrimFloat.zero x && PrimFloat.leb x (ofInteger 100).

End Wording.

(** Does the code unit [c] occur in [s]? *)
Fixpoint occurs (c : ascii) (s : string) : bool :=
  match s with
  | EmptyString => false
  | String d r => Ascii.eqb c d || occurs c r
  end.

(** Are two neighbouring code units of [s] both outside [[a-zA-Z0-9]]? *)
Fixpoint adjacentSeparators (s : string) : bool :=
  match s with
  | String c ((String d _) as r) =>
      (negb (Js.isAlnum c) && negb (Js.isAlnum d)) || adjacentSeparators r
  | _ => false
  end.

(** The one-entry-per-path invariant of the library index. *)
Definition onePerPath (lib : list Entry.t) : Prop := NoDup (map Entry.path lib).

(** The identifiers of a highlight set. *)
Definition highlightIds (hs : list Highlight.t) : list string := map Highlight.id hs.

(** The test of the filter in [deleteHighlight]: [h.id !== highlightId]. *)
Definition keeps (highlightId : string) (h : Highlight.t) : bool :=
  negb (String.eqb (Highlight.id h) highlightId).

(** A [relocated] event that carries a position. *)
Definition relocatedAt (s : Renderer.Start) : Renderer.Event :=
  Renderer.Relocated (Some {| Renderer.start := Some s |}).

(** A burst of location changes: a first one, then each further one after
    a gap of so many milliseconds in which nothing else happens. *)
Definition burst (first : Renderer.Start) (rest : list (Z * Renderer.Start))
  : list Renderer.Event :=
  relocatedAt first
    :: flat_map (fun gs => [Renderer.Elapse (fst gs); relocatedAt (snd gs)]) rest.

(** The position carried by the last event of a burst. *)
Definition finalStart (first : Renderer.Start) (rest : list (Z * Renderer.Start))
  : Renderer.Start :=
  List.last (map snd rest) first.

(** The entry for [p] holds the position [s]. *)
Definition holdsPosition (p : string) (s : Renderer.Start) (lib : list Entry.t) : Prop :=
  exists b : Entry.t,
    Renderer.findByPath p lib = Some b /\
    Entry.lastPosition b = Some (Renderer.cfi s) /\
    Entry.progress b = Renderer.progressOf (Renderer.percentage s).

(** The book at [p] is open and in the library, the save timer is set a
    full quiet window ahead, and the library writes so far are [ws]. *)
Definition armed (p : string) (ws : list (list Entry.t)) (st : Renderer.State) : Prop :=
  Renderer.currentBookPath st = Some p /\ Js.truthy p = true /\
  Renderer.librarySaveTimeout st = Some (Renderer.clock st + Renderer.quietWindow) /\
  Renderer.libraryWrites (Renderer.calls st) = ws.

(** A sample state: one EPUB in the library, open in the reader. *)
Definition sampleEntry : Entry.t :=
  {| Entry.id := "isbn123"; Entry.path := "/books/a.epub"; Entry.title := "Foo";
     Entry.author := "Bar"; Entry.fileType := "epub"; Entry.coverPath := None;
     Entry.addedDate := 1700000000000; Entry.lastOpened := None;
     Entry.lastPosition := None; Entry.progress := PrimFloat.zero |}.

Definition sampleState : Renderer.State :=
  {| Renderer.library := [sampleEntry];
     Renderer.currentBookPath := Some "/books/a.epub"%string;
     Renderer.rendition := None; Renderer.pdfViewer := None;
     Renderer.bookIdentifier := Some "isbn123"%string; Renderer.highlights := [];
     Renderer.currentLocationCfi := None; Renderer.editingBookId := None;
     Renderer.settingsManager := Settings.constructor;
     Renderer.librarySaveTimeout := None; Renderer.clock := 1700000000000;
     Renderer.calls := []; Renderer.pdfJsLoaded := false;
     Renderer.pdfViewerLoaded := false |}.

(** The library before any book is added. *)
Definition emptyState : Renderer.State := Renderer.set_library [] sampleState.

(** A world with one EPUB and one PDF of ten pages. *)
Definition sampleWorld : Renderer.World :=
  {| Renderer.files := fun p =>
       if String.eqb p "/books/a.epub" then
         Renderer.EpubDocument
           {| Renderer.metadata :=
                Some {| Renderer.md_title := Some "Foo"%string;
                        Renderer.creator := Some "Bar"%string;
                        Renderer.identifier := Some "isbn123"%string |};
              Renderer.hasCover := false; Renderer.displays := true;
              Renderer.accepts := fun _ => true |}
       else if String.eqb p "/books/manual.pdf" then
         Renderer.PdfDocument 10 (Some "Manual"%string) None
       else Renderer.Unreadable;
     Renderer.dialogChoice := Some "/books/a.epub"%string;
     Renderer.pdfSupport := true; Renderer.highlightStore := fun _ => [];
     Renderer.failure := fun _ => "ENOENT: no such file or directory"%string |}.

(** A PDF entry that was left at page five. *)
Definition pdfEntry : Entry.t :=
  {| Entry.id := "manual-unknown-1700000000000"; Entry.path := "/books/manual.pdf";
     Entry.title := "Manual"; Entry.author := "Unknown"; Entry.fileType := "pdf";
     Entry.coverPath := None; Entry.addedDate := 1700000000000;
     Entry.lastOpened := None; Entry.lastPosition := Some "5"%string;
     Entry.progress := PrimFloat.zero |}.

Definition pdfState : Renderer.State := Renderer.set_library [pdfEntry] sampleState.

(** A world with no readable file and no dialog answer. *)
Definition emptyWorld : Renderer.World :=
  {| Renderer.files := fun _ => Renderer.Unreadable; Renderer.dialogChoice := None;
     Renderer.pdfSupport := true; Renderer.highlightStore := fun _ => [];
     Renderer.failure := fun _ => "ENOENT: no such file or directory"%string |}.

(** A document that the EPUB engine opens, whatever the name of its file. *)
Definition anEpub : Renderer.EpubDoc :=
  {| Renderer.metadata :=
       Some {| Renderer.md_title := Some "Notes"%string; Renderer.creator := None;
               Renderer.identifier := None |};
     Renderer.hasCover := false; Renderer.displays := true;
     Renderer.accepts := fun _ => true |}.

(** A world in which every path holds the same content. *)
Definition everyFile (c : Renderer.FileContent) : Renderer.World :=
  {| Renderer.files := fun _ => c; Renderer.dialogChoice := None;
     Renderer.pdfSupport := true; Renderer.highlightStore := fun _ => [];
     Renderer.failure := fun _ => EmptyString |}.

(** ** More of the renderer: leaving the reader *)

Module Reader.

Import Js Renderer.

(** [backToLibrary()]: the rendition is destroyed and the highlights in
    memory are dropped.  The PDF viewer, the current path, the book
    identifier and the pending save timer are left as they are. *)
Definition backToLibrary (st : State) : State :=
  set_highlights [] (if present (rendition st) then set_rendition None st else st).

(** [loadLibrary()]; [stored] is what the bridge resolves to, [None] when
    it rejects. *)
Definition loadLibrary (stored : option (list Entry.t)) (st : State) : State :=
  set_library (default [] stored) st.

(** At most one of the two engines holds a document. *)
Definition oneEngine (st : State) : Prop :=
  rendition st = None \/ pdfViewer st = None.

End Reader.

(** ** Calls cut at their awaits

    An asynchronous function runs until it reaches an await, and goes on
    when the awaited answer arrives; in between, other handlers and other
    calls run on the same global variables.  [Renderer.loadBook] and
    [Renderer.addBookToLibrary] above are such calls run from start to
    end on their own (lemma [run_alone] below).  Here the calls that the
    menu, the file dialog and the "Add Book" button start are cut at the
    awaits that wait for the outside world: the file dialog, the loading
    of the PDF scripts and the read of the file.  From one of these
    awaits to the next, or to its end, a call runs here in one piece,
    which is one of the ways in which the source can run. *)

Module Tasks.

Import Js Renderer.

(** A call that waits at an await. *)
Inductive Task :=
| AddChoosing (titleArg authorArg fileTypeArg : option string)
| AddReading (byPath : bool) (filePath : string) (titleArg authorArg : option string)
    (fileType : string)
| PdfLoadingLibraries (filePath : string)
| PdfReading (filePath : string)
| EpubReading (filePath : string).

(** The message of the [TypeError] that the engine of Electron raises
    for [pdfViewer.loadPDF] when [pdfViewer] is [null]. *)
Definition nullViewerMessage : string :=
  "Cannot read properties of null (reading 'loadPDF')".

(** [loadBook(filePath)] up to its first await: in [loadPDF] the loading
    of the scripts or, when they are loaded, the read of the file, the new
    viewer being in place; in [loadEPUB] the read of the file, both
    engines being torn down. *)
Definition loadBook_begin (filePath : string) (st : State) : State * option Task :=
  let st1 := set_currentBookPath (Some filePath) st in
  match dispatch filePath with
  | ToPDF =>
      let st2 := set_rendition None st1 in
      if pdfJsLoaded st2 && pdfViewerLoaded st2
      then (set_pdfViewer (Some PDFViewer.constructor) st2, Some (PdfReading filePath))
      else (st2, Some (PdfLoadingLibraries filePath))
  | ToEPUB => (set_rendition None (set_pdfViewer None st1), Some (EpubReading filePath))
  | Unsupported =>
      (loadBook_failed "Unsupported file format. Only EPUB and PDF files are supported." st1,
       None)
  end.

(** [addBookToLibrary] from the point where the path is known to its
    next await: the look-up of the path in the library, and then the read
    of the file when the path is not found.  [byPath] tells whether the
    caller gave the path. *)
Definition addBookToLibrary_check (byPath : bool) (filePath : string)
  (titleArg authorArg fileTypeArg : option string) (st : State) : State * option Task :=
  let fileType := or_else fileTypeArg (classifyFileType filePath) in
  match findByPath filePath (library st) with
  | Some _ => if byPath then (st, None) else loadBook_begin filePath st
  | None => (st, Some (AddReading byPath filePath titleArg authorArg fileType))
  end.

(** [addBookToLibrary(filePathArg, titleArg, authorArg, fileTypeArg)] up
    to its first await. *)
Definition addBookToLibrary_begin (filePathArg titleArg authorArg fileTypeArg : option string)
  (st : State) : State * option Task :=
  match filePathArg with
  | Some p =>
      if truthy p then addBookToLibrary_check true p titleArg authorArg fileTypeArg st
      else (st, Some (AddChoosing titleArg authorArg fileTypeArg))
  | None => (st, Some (AddChoosing titleArg authorArg fileTypeArg))
  end.

(** The call goes on with the answer that it waited for. *)
Definition resume (t : Task) (w : World) (st : State) : State * option Task :=
  match t with
  | AddChoosing titleArg authorArg fileTypeArg =>
      match dialogChoice w with
      | Some p =>
          if truthy p then addBookToLibrary_check false p titleArg authorArg fileTypeArg st
          else (st, None)
      | None => (st, None)
      end
  | AddReading byPath filePath titleArg authorArg fileType =>
      match libraryEntryFor filePath titleArg authorArg fileType w st with
      | Some (st1, e) =>
          let s1 := saveLibrary (set_library (e :: library st1) st1) in
          if byPath then (s1, None) else loadBook_begin filePath s1
      | None => (addBookToLibrary_failed st, None)
      end
  | PdfLoadingLibraries filePath =>
      if pdfSupport w
      then (set_pdfViewer (Some PDFViewer.constructor) (set_pdfLibrariesLoaded st),
            Some (PdfReading filePath))
      else
        (loadBook_after
           (loadPDF_failed "PDF support unavailable. Please restart the application." st),
         None)
  | PdfReading filePath =>
      match files w filePath with
      | Unreadable => (loadBook_after (loadPDF_failed (failure w filePath) st), None)
      | EmptyFile =>
          (loadBook_after (loadPDF_failed "PDF file is empty or could not be read" st), None)
      | content =>
          match pdfViewer st with
          | None => (loadBook_after (loadPDF_failed nullViewerMessage st), None)
          | Some v =>
              match content with
              | PdfDocument numPages infoTitle infoAuthor =>
                  addBookToLibrary_begin
                    (Some filePath)
                    (Some (or_else (Some (or_else infoTitle "Untitled PDF")) "Untitled PDF"))
                    (Some (or_else (Some (or_else infoAuthor "Unknown")) "Unknown"))
                    (Some "pdf"%string)
                    (set_pdfViewer (Some (PDFViewer.loadPDF numPages v)) st)
              | _ =>
                  (loadBook_after
                     (loadPDF_failed ("Failed to load PDF file: " +:+ failure w filePath) st),
                   None)
              end
          end
      end
  | EpubReading filePath => (loadEPUB_read filePath w st, None)
  end.

(** What starts a call: the menu or the file dialog of the reader opens
    a path, or a book is added. *)
Inductive Call :=
| OpenBook (filePath : string)
| AddBook (filePathArg titleArg authorArg fileTypeArg : option string).

Definition begin (c : Call) (st : State) : State * option Task :=
  match c with
  | OpenBook filePath => loadBook_begin filePath st
  | AddBook filePathArg titleArg authorArg fileTypeArg =>
      addBookToLibrary_begin filePathArg titleArg authorArg fileTypeArg st
  end.

(** The same call run from start to end on its own. *)
Definition alone (c : Call) (w : World) (st : State) : State :=
  match c with
  | OpenBook filePath => loadBook filePath w st
  | AddBook filePathArg titleArg authorArg fileTypeArg =>
      addBookToLibrary filePathArg titleArg authorArg fileTypeArg w st
  end.

(** What happens next: a call starts, or the waiting call at a position
    of the pool is answered and goes on. *)
Inductive Action :=
| Start (c : Call)
| Resume (i : nat).

Definition waiting (t : option Task) : list Task :=
  match t with
  | Some x => [x]
  | None => []
  end.

(** The state with the pool of waiting calls, oldest first; a call that
    goes on keeps its place in the pool. *)
Definition act (w : World) (cfg : State * list Task) (a : Action) : State * list Task :=
  match a with
  | Start c =>
      let '(st', t) := begin c (fst cfg) in (st', snd cfg ++ waiting t)
  | Resume i =>
      match snd cfg !! i with
      | Some t =>
          let '(st', t') := resume t w (fst cfg) in
          (st', take i (snd cfg) ++ waiting t' ++ drop (S i) (snd cfg))
      | None => cfg
      end
  end.

Definition run (w : World) (actions : list Action) (cfg : State * list Task)
  : State * list Task :=
  fold_left (act w) actions cfg.

(** A call answered, with nothing else running in between, until it
    ends, at most [fuel] times. *)
Fixpoint complete (w : World) (fuel : nat) (r : State * option Task)
  : State * option Task :=
  match fuel, r with
  | S k, (st, Some t) => complete w k (resume t w st)
  | _, _ => r
  end.

End Tasks.

(** ** The render queue of the PDF viewer

    [renderPage] lets one render run at a time: a call that arrives
    while a page is being rendered only leaves its page number in
    [pageNumPending], and the render in progress replays the last such
    number when it ends.  The handlers of the renderer call [nextPage]
    and [previousPage] without awaiting them, so such calls do arrive. *)

Module PageQueue.

(** The viewer with the two fields of the queue. *)
Record t := mk {
  viewer : PDFViewer.t;
  pageRendering : bool;
  pageNumPending : option Z
}.

(** A viewer with no render in progress and nothing pending. *)
Definition idle (v : PDFViewer.t) : t :=
  {| viewer := v; pageRendering := false; pageNumPending := None |}.

(** [renderPage(pageNum)] up to its first await. *)
Definition renderPage (pageNum : Z) (s : t) : t :=
  if negb (PDFViewer.pdfDoc (viewer s)) then s
  else if pageRendering s
  then {| viewer := viewer s; pageRendering := true; pageNumPending := Some pageNum |}
  else
    {| viewer :=
         {| PDFViewer.pdfDoc := true; PDFViewer.currentPage := pageNum;
            PDFViewer.totalPages := PDFViewer.totalPages (viewer s) |};
       pageRendering := true; pageNumPending := pageNumPending s |}.

(** The render in progress ends; [ok] tells whether the page was
    rendered or the engine threw.  After a render that succeeded the
    pending page, if there is one, is rendered next. *)
Definition renderDone (ok : bool) (s : t) : t :=
  if pageRendering s then
    if ok then
      match pageNumPending s with
      | Some pending =>
          renderPage pending
            {| viewer := viewer s; pageRendering := false; pageNumPending := None |}
      | None => {| viewer := viewer s; pageRendering := false; pageNumPending := None |}
      end
    else
      {| viewer := viewer s; pageRendering := false; pageNumPending := pageNumPending s |}
  else s.

Definition nextPage (s : t) : t :=
  if PDFViewer.currentPage (viewer s) <? PDFViewer.totalPages (viewer s)
  then renderPage (PDFViewer.currentPage (viewer s) + 1) s
  else s.

Definition previousPage (s : t) : t :=
  if 1 <? PDFViewer.currentPage (viewer s)
  then renderPage (PDFViewer.currentPage (viewer s) - 1) s
  else s.

Definition goToPage (pageNum : Z) (s : t) : t :=
  if (1 <=? pageNum) && (pageNum <=? PDFViewer.totalPages (viewer s))
  then renderPage pageNum s
  else s.

(** What reaches the viewer: a call made and not awaited, or the end of
    the render in progress. *)
Inductive Event :=
| NextPage
| PreviousPage
| GoToPage (pageNum : Z)
| RenderDone (ok : bool).

Definition step (s : t) (e : Event) : t :=
  match e with
  | NextPage => nextPage s
  | PreviousPage => previousPage s
  | GoToPage pageNum => goToPage pageNum s
  | RenderDone ok => renderDone ok s
  end.

Definition run (events : list Event) (s : t) : t := fold_left step events s.

(** A call that is awaited: the call and then the end of its render. *)
Definition awaited (e : Event) : list Event := [e; RenderDone true].

End PageQueue.

(** ** The library view *)

Module LibraryView.

Import Js.

(** [b.lastOpened] as a condition. *)
Definition opened (b : Entry.t) : bool := present (Entry.lastOpened b).

(** The instant an entry was last opened, 0 when it never was. *)
Definition openedAt (b : Entry.t) : Z := default 0 (Entry.lastOpened b).

(** The comparator [(a, b) => new Date(b.lastOpened) - new Date(a.lastOpened)],
    on entries that have a [lastOpened]. *)
Definition newerFirst (a b : Entry.t) : Z := openedAt b - openedAt a.

(** [Array.prototype.sort] is stable: elements that compare equal keep
    their order.  Insertion from the right end gives that arrangement. *)
Fixpoint insertBy (cmp : Entry.t -> Entry.t -> Z) (x : Entry.t) (l : list Entry.t)
  : list Entry.t :=
  match l with
  | [] => [x]
  | y :: rest => if cmp x y <=? 0 then x :: y :: rest else y :: insertBy cmp x rest
  end.

Definition sortBy (cmp : Entry.t -> Entry.t -> Z) (l : list Entry.t) : list Entry.t :=
  foldr (insertBy cmp) [] l.

(** [library.filter(b => b.lastOpened).sort(...).slice(0, 4)]. *)
Definition recentBooks (lib : list Entry.t) : list Entry.t :=
  take 4 (sortBy newerFirst (List.filter opened lib)).

(** What [renderLibrary] puts on the page: the empty-library notice, or
    the "Recently Opened" row, the separator, and the grid of all books
    with or without its "All Books" header. *)
Record View := mkView {
  emptyNotice : bool;
  recentSection : option (list Entry.t);
  separator : bool;
  allBooks : option (bool * list Entry.t)
}.

(** [renderLibrary()]. *)
Definition renderLibrary (lib : list Entry.t) : View :=
  if (length lib =? 0)%nat then
    {| emptyNotice := true; recentSection := None; separator := false; allBooks := None |}
  else
    let recent := recentBooks lib in
    let showAllBooksSection :=
      ((0 <? length lib) && ((length recent =? 0) || (length recent <? length lib)))%nat in
    {| emptyNotice := false;
       recentSection := if (0 <? length recent)%nat then Some recent else None;
       separator := ((0 <? length recent) && (length recent <? length lib))%nat;
       allBooks :=
         if showAllBooksSection then Some ((0 <? length recent)%nat, lib) else None |}.

(** The entries that a view shows. *)
Definition shown (v : View) : list Entry.t :=
  default [] (recentSection v) ++ match allBooks v with Some (_, l) => l | None => [] end.

End LibraryView.

(** ** Theme colours (settings.js) *)

Module Themes.

Import Settings.

Record ThemeColors := mkColors {
  background : string;
  color : string;
  toolbar : string;
  border : string
}.

Definition white : ThemeColors :=
  {| background := "#ffffff"; color := "#000000"; toolbar := "#f0f0f0"; border := "#d0d0d0" |}.
Definition sepia : ThemeColors :=
  {| background := "#f5f5dc"; color := "#3a2f1d"; toolbar := "#ebe8d8"; border := "#d4cdb8" |}.
Definition kindle : ThemeColors :=
  {| background := "#c2e6c9"; color := "#1a3a1e"; toolbar := "#b0d9b8"; border := "#9fcba7" |}.
Definition blue : ThemeColors :=
  {| background := "#e3f2fd"; color := "#0d47a1"; toolbar := "#bbdefb"; border := "#90caf9" |}.
Definition gray : ThemeColors :=
  {| background := "#f5f5f5"; color := "#212121"; toolbar := "#e0e0e0"; border := "#bdbdbd" |}.
Definition dark : ThemeColors :=
  {| background := "#1e1e1e"; color := "#e0e0e0"; toolbar := "#2d2d2d"; border := "#444444" |}.

(** The own properties of the [themes] object literal. *)
Definition themes : gmap string ThemeColors :=
  list_to_map
    [ ("white", white); ("sepia", sepia); ("kindle", kindle);
      ("blue", blue); ("gray", gray); ("dark", dark) ]%string.

(** The property names that every object literal inherits from
    [Object.prototype]; a lookup under one of them finds the inherited
    member, which is truthy. *)
Definition inheritedNames : list string :=
  [ "constructor"; "__defineGetter__"; "__defineSetter__"; "hasOwnProperty";
    "__lookupGetter__"; "__lookupSetter__"; "isPrototypeOf"; "propertyIsEnumerable";
    "toString"; "valueOf"; "__proto__"; "toLocaleString" ]%string.

(** What a lookup in [themes] returns when it is not [undefined]. *)
Inductive Found :=
| Palette (c : ThemeColors)
| Inherited (name : string).

(** [themes[key]]. *)
Definition themesAt (key : string) : option Found :=
  match themes !! key with
  | Some c => Some (Palette c)
  | None => if bool_decide (key ∈ inheritedNames) then Some (Inherited key) else None
  end.

(** [getThemeColors()]: [themes[this.settings.theme] || themes.sepia].  A
    theme that is not a string is looked up under its rendering as a
    string ([null], [true], a numeral, [undefined]), which names no
    property. *)
Definition getThemeColors (m : SettingsManager) : Found :=
  match settings m !! "theme"%string with
  | Some (VStr name) => default (Palette sepia) (themesAt name)
  | _ => Palette sepia
  end.

End Themes.

(** ** Searching a PDF (the search methods of the PDF viewer) *)

Module PDFSearch.

Import Js.

Record Match := mkMatch {
  pageNum : Z;
  text : string;
  index : nat
}.

(** The viewer together with its search fields. *)
Record t := mk {
  viewer : PDFViewer.t;
  searchMatches : list Match;
  currentSearchIndex : Z;
  searchQuery : string
}.

(** A viewer as its constructor leaves the search fields. *)
Definition ofViewer (v : PDFViewer.t) : t :=
  {| viewer := v; searchMatches := []; currentSearchIndex := -1;
     searchQuery := EmptyString |}.

(** The string without its first [n] code units. *)
Fixpoint skip (n : nat) (s : string) : string :=
  match n, s with
  | S k, String _ r => skip k r
  | _, _ => s
  end.

(** First position at or after [pos] at which [q] starts, [s] being what
    is left of the text from [pos] on. *)
Fixpoint indexOfAt (q s : string) (pos : nat) : option nat :=
  match s with
  | EmptyString => if String.eqb q "" then Some pos else None
  | String _ r => if String.prefix q s then Some pos else indexOfAt q r (S pos)
  end.

(** [s.indexOf(q, from)]; [None] is [-1]. *)
Definition indexOf (q s : string) (from : nat) : option nat :=
  indexOfAt q (skip from s) (Nat.min from (String.length s)).

(** [array.join(sep)]. *)
Fixpoint join (sep : string) (l : list string) : string :=
  match l with
  | [] => EmptyString
  | [x] => x
  | x :: rest => x +:+ sep +:+ join sep rest
  end.

(** The [while] loop of [searchText] on one page; each turn moves the
    index forward, so [fuel] turns are enough when [fuel] exceeds the
    length of the text. *)
Fixpoint collect (fuel : nat) (q pageText : string) (page : Z) (found : option nat)
  : list Match :=
  match fuel, found with
  | S k, Some i =>
      {| pageNum := page;
         text := String.substring (Z.to_nat (Z.max 0 (Z.of_nat i - 30))) 100 pageText;
         index := i |}
        :: collect k q pageText page (indexOf q pageText (i + 1))
  | _, _ => []
  end.

Definition matchesOnPage (q pageText : string) (page : Z) : list Match :=
  collect (S (String.length pageText)) q pageText page (indexOf q pageText 0).

(** The [for] loop of [searchText] over the pages from [page] on;
    [textOf] gives the text items of a page, [None] when the page or its
    text cannot be read.  The boolean tells whether the loop ran to its
    end. *)
Fixpoint searchPages (textOf : Z -> option (list string)) (q : string)
  (page : Z) (count : nat) (acc : list Match) : list Match * bool :=
  match count with
  | O => (acc, true)
  | S k =>
      match textOf page with
      | Some items =>
          searchPages textOf q (page + 1) k
            (acc ++ matchesOnPage q (toLowerCase (join " " items)) page)
      | None => (acc, false)
      end
  end.

(** [searchText(query)]: the viewer afterwards and the array returned. *)
Definition searchText (textOf : Z -> option (list string)) (query : string) (s : t)
  : t * list Match :=
  if negb (PDFViewer.pdfDoc (viewer s)) || negb (truthy query) then
    ({| viewer := viewer s; searchMatches := [];
        currentSearchIndex := currentSearchIndex s; searchQuery := searchQuery s |}, [])
  else
    let q := toLowerCase query in
    let '(found, completed) :=
      searchPages textOf q 1 (Z.to_nat (PDFViewer.totalPages (viewer s))) [] in
    ({| viewer := viewer s; searchMatches := found; currentSearchIndex := -1;
        searchQuery := q |},
     if completed then found else []).

(** The common end of [nextSearchResult] and [previousSearchResult]: the
    index is stored, the match is read and its page is shown.  An index
    outside the array reads [undefined] and the access to its page throws
    ([None]). *)
Definition showMatch (i : Z) (s : t) : option t :=
  match (if i <? 0 then None else searchMatches s !! Z.to_nat i) with
  | Some m =>
      Some {| viewer := PDFViewer.goToPage (pageNum m) (viewer s);
              searchMatches := searchMatches s; currentSearchIndex := i;
              searchQuery := searchQuery s |}
  | None => None
  end.

(** [nextSearchResult()]; the remainder is that of JavaScript, with the
    sign of the dividend. *)
Definition nextSearchResult (s : t) : option t :=
  if (length (searchMatches s) =? 0)%nat then Some s
  else showMatch (Z.rem (currentSearchIndex s + 1) (Z.of_nat (length (searchMatches s)))) s.

(** [previousSearchResult()]. *)
Definition previousSearchResult (s : t) : option t :=
  if (length (searchMatches s) =? 0)%nat then Some s
  else
    showMatch
      (if currentSearchIndex s <=? 0
       then Z.of_nat (length (searchMatches s)) - 1
       else currentSearchIndex s - 1) s.

End PDFSearch.

(** ** The updater (updater.js) *)

Module Updater.

Import Js.

(** A JavaScript number: not-a-number, a finite value kept exact, or an
    infinity.  [Number] rounds a finite value to the nearest double, which
    changes nothing for integers below 2^53. *)
Inductive Num :=
| NaN
| Fin (q : Q)
| Inf (negative : bool).

Fixpoint trimEnd (s : string) : string :=
  match s with
  | EmptyString => EmptyString
  | String c r =>
      let r' := trimEnd r in
      if isWhiteSpace c && String.eqb r' "" then EmptyString else String c r'
  end.

(** Value of a non-empty string of decimal digits. *)
Definition decimalValue (s : string) : option Z :=
  match s with
  | EmptyString => None
  | _ => option_map (fun d => Z.of_N (N.of_uint d)) (NilEmpty.uint_of_string s)
  end.

(** Value of a string made of digits of radix [R] only. *)
Fixpoint radixDigits (R : Z) (s : string) (acc : Z) : option Z :=
  match s with
  | EmptyString => Some acc
  | String c r =>
      match digitVal c with
      | Some d => if d <? R then radixDigits R r (R * acc + d) else None
      | None => None
      end
  end.

Definition radixValue (R : Z) (s : string) : Num :=
  match s with
  | EmptyString => NaN
  | _ => match radixDigits R s 0 with Some v => Fin (inject_Z v) | None => NaN end
  end.

(** The text before the first [e] or [E], and the text after it. *)
Fixpoint splitExponent (s : string) : string * option string :=
  match s with
  | EmptyString => (EmptyString, None)
  | String c r =>
      if Ascii.eqb c "e" || Ascii.eqb c "E" then (EmptyString, Some r)
      else let '(m, e) := splitExponent r in (String c m, e)
  end.

(** An exponent: decimal digits after an optional sign. *)
Definition signedInteger (s : string) : option Z :=
  match s with
  | String "+" r => decimalValue r
  | String "-" r => option_map Z.opp (decimalValue r)
  | _ => decimalValue s
  end.

(** An unsigned decimal literal with no dot: [Infinity], or digits with an
    optional exponent. *)
Definition unsignedDecimal (s : string) : Num :=
  if String.eqb s "Infinity" then Inf false
  else
    let '(m, e) := splitExponent s in
    match decimalValue m, e with
    | Some v, None => Fin (inject_Z v)
    | Some v, Some es =>
        match signedInteger es with
        | Some x => Fin (inject_Z v * Qpower 10 x)
        | None => NaN
        end
    | None, _ => NaN
    end.

Definition negate (n : Num) : Num :=
  match n with
  | NaN => NaN
  | Fin q => Fin (- q)
  | Inf negative => Inf (negb negative)
  end.

(** [Number(s)] for a segment of a version, that is a string that [split]
    has cut at the dots and that holds none: white space around it is
    dropped, the empty string is 0, then come the literals with a radix
    prefix, which take no sign, and the signed decimal literals. *)
Definition NumberOfSegment (s : string) : Num :=
  let t := trimEnd (trimStart s) in
  match t with
  | EmptyString => Fin 0
  | String "0" (String "x" r) => radixValue 16 r
  | String "0" (String "X" r) => radixValue 16 r
  | String "0" (String "o" r) => radixValue 8 r
  | String "0" (String "O" r) => radixValue 8 r
  | String "0" (String "b" r) => radixValue 2 r
  | String "0" (String "B" r) => radixValue 2 r
  | String "+" r => unsignedDecimal r
  | String "-" r => negate (unsignedDecimal r)
  | _ => unsignedDecimal t
  end.

(** [parts[i] || 0]: a missing element, not-a-number and zero give 0. *)
Definition orZero (o : option Num) : Num :=
  match o with
  | Some (Fin q) => if Qeq_bool q 0 then Fin 0 else Fin q
  | Some (Inf negative) => Inf negative
  | _ => Fin 0
  end.

(** [a < b] on numbers. *)
Definition ltNum (a b : Num) : bool :=
  match a, b with
  | Fin p, Fin q => match (p ?= q)%Q with Lt => true | _ => false end
  | Fin _, Inf negative => negb negative
  | Inf negative, Fin _ => negative
  | Inf n1, Inf n2 => n1 && negb n2
  | _, _ => false
  end.

(** [a > b]. *)
Definition gtNum (a b : Num) : bool := ltNum b a.

(** The [for] loop of [compareVersions] from index [i] on, with
    [remaining] turns to go. *)
Fixpoint compareFrom (parts1 parts2 : list Num) (i remaining : nat) : Z :=
  match remaining with
  | O => 0
  | S k =>
      let num1 := orZero (parts1 !! i) in
      let num2 := orZero (parts2 !! i) in
      if gtNum num1 num2 then 1
      else if ltNum num1 num2 then -1
      else compareFrom parts1 parts2 (S i) k
  end.

(** [compareVersions(v1, v2)]. *)
Definition compareVersions (v1 v2 : string) : Z :=
  let parts1 := map NumberOfSegment (split "." v1) in
  let parts2 := map NumberOfSegment (split "." v2) in
  compareFrom parts1 parts2 0 (Nat.max (length parts1) (length parts2)).

(** [s.replace('v', '')]: the first [v] is dropped, wherever it stands. *)
Fixpoint dropFirstV (s : string) : string :=
  match s with
  | EmptyString => EmptyString
  | String c r => if Ascii.eqb c "v" then r else String c (dropFirstV r)
  end.

(** A release as GitHub describes it; [tag_name] is [None] when the field
    is missing or is not a string. *)
Record Release := mkRelease {
  tag_name : option string;
  html_url : string
}.

(** The outcome of the request: an error event, or a status code with the
    body parsed ([None] when it does not parse). *)
Inductive Response :=
| RequestError
| Answer (statusCode : Z) (release : option Release).

(** What the user is shown or sent to. *)
Inductive Shown :=
| UpdateAvailable (latestVersion : string)
| OpenExternal (url : string)
| NoUpdates
| CheckFailed.

(** The object that the promise of [checkForUpdates] resolves to. *)
Record Outcome := mkOutcome {
  updateAvailable : bool;
  version : option string;
  error : bool
}.

(** [checkForUpdates(mainWindow, showNoUpdateDialog)]; [download] tells
    whether the user picks the first button of the update dialog. *)
Definition checkForUpdates (currentVersion : string) (showNoUpdateDialog download : bool)
  (r : Response) : Outcome * list Shown :=
  let failed := {| updateAvailable := false; version := None; error := true |} in
  match r with
  | RequestError => (failed, if showNoUpdateDialog then [CheckFailed] else [])
  | Answer statusCode release =>
      if statusCode =? 200 then
        match release with
        | Some rel =>
            match tag_name rel with
            | Some tag =>
                let latestVersion := dropFirstV tag in
                if 0 <? compareVersions latestVersion currentVersion then
                  ({| updateAvailable := true; version := Some latestVersion;
                      error := false |},
                   UpdateAvailable latestVersion
                     :: (if download then [OpenExternal (html_url rel)] else []))
                else
                  ({| updateAvailable := false; version := None; error := false |},
                   if showNoUpdateDialog then [NoUpdates] else [])
            | None => (failed, [])
            end
        | None => (failed, [])
        end
      else (failed, [])
  end.

(** [getLastShownVersion()]; [file] is the [lastShownVersion] field of the
    version file, [None] when the file is missing, unreadable or has no
    such field. *)
Definition getLastShownVersion (file : option string) : option string :=
  match file with
  | Some v => if truthy v then Some v else None
  | None => None
  end.

(** [showChangelogIfNeeded(mainWindow)] with the deferred part run: whether
    the changelog is shown, and the version file afterwards ([writeOk]
    tells whether the file can be written). *)
Definition showChangelogIfNeeded (currentVersion : string) (writeOk : bool)
  (file : option string) : bool * option string :=
  match getLastShownVersion file with
  | Some lastShown =>
      if String.eqb lastShown currentVersion then (false, file)
      else (true, if writeOk then Some currentVersion else file)
  | None => (true, if writeOk then Some currentVersion else file)
  end.

(** A version given by its numeric components, written as the updater
    meets it: the numerals joined by dots. *)
Fixpoint renderVersion (components : list N) : string :=
  match components with
  | [] => EmptyString
  | [n] => numToString n
  | n :: rest => numToString n +:+ "." +:+ renderVersion rest
  end.

(** Does a list of components hold one that is not zero? *)
Definition nonZero (l : list N) : bool := existsb (fun n => (0 <? n)%N) l.

(** Comparison of two lists of components, a missing component counting
    as zero. *)
Fixpoint compareComponents (l1 l2 : list N) : Z :=
  match l1, l2 with
  | [], _ => if nonZero l2 then -1 else 0
  | _, [] => if nonZero l1 then 1 else 0
  | x :: r1, y :: r2 =>
      if (y <? x)%N then 1 else if (x <? y)%N then -1 else compareComponents r1 r2
  end.

End Updater.

(** ** Creating a highlight, in full *)

Module Annotations.

Import Js Renderer.

(** [String.prototype.trim]. *)
Definition trim (s : string) : string := Updater.trimEnd (trimStart s).

(** [saveHighlight()] from its first line: with no range selected the
    dialog is closed and nothing else happens; [rangeText] is the text of
    the selected range, [None] when the book cannot produce the range, in
    which case the failure is reported. *)
Definition saveHighlightFrom (selectedCfiRange rangeText : option string)
  (noteInput selectedColor : string) (st : State) : State :=
  if truthy_opt selectedCfiRange then
    match rangeText with
    | Some t =>
        saveHighlight (default EmptyString selectedCfiRange) (trim t) selectedColor
                      (trim noteInput) st
    | None => alert "Failed to save highlight. Please try again." st
    end
  else st.

End Annotations.

(** ** Occurrences of a string in a text *)

(** Does [q] start at position [i] of [s]? *)
Definition occursAt (q s : string) (i : nat) : bool :=
  (i <? String.length s)%nat && String.prefix q (PDFSearch.skip i s).

(** The positions at which [q] starts in [s], in increasing order, the
    first code unit of [s] standing at position [pos]. *)
Fixpoint occurrences (q s : string) (pos : nat) : list nat :=
  match s with
  | EmptyString => []
  | String _ r =>
      (if String.prefix q s then [pos] else []) ++ occurrences q r (S pos)
  end.

(** The record that [searchText] builds for the occurrence at position
    [i] of the text of a page. *)
Definition matchAt (pageText : string) (page : Z) (i : nat) : PDFSearch.Match :=
  {| PDFSearch.pageNum := page;
     PDFSearch.text := String.substring (i - 30) 100 pageText;
     PDFSearch.index := i |}.

(** ** Numerals *)

(** Is the code unit one of the ten decimal digits? *)
Definition isDigit (c : ascii) : bool :=
  ((48 <=? Js.code c) && (Js.code c <=? 57))%N.

(** Does the string hold decimal digits only? *)
Fixpoint digitsOnly (s : string) : bool :=
  match s with
  | EmptyString => true
  | String c r => isDigit c && digitsOnly r
  end.

(** The number that a component of a version stands for. *)
Definition componentValue (n : N) : Updater.Num := Updater.Fin (inject_Z (Z.of_N n)).

(** The bound below which every integer is a double. *)
Definition exactBelow : N := 9007199254740992.

(** ** Checks of the primitives on concrete inputs *)

Example split_path :
  Js.split "." "/books/My.Book.PDF" = ["/books/My"; "Book"; "PDF"]%string.
Proof. reflexivity. Qed.

Example split_backslashes :
  Js.split "\\" "C:\\books\\a.pdf" = ["C:"; "books"; "a.pdf"]%string.
Proof. reflexivity. Qed.

Example parseInt_examples :
  Js.parseInt "5" = Some 5 /\ Js.parseInt " 12px" = Some 12 /\
  Js.parseInt "0x1f" = Some 31 /\ Js.parseInt "-3" = Some (-3) /\
  Js.parseInt "epubcfi(/6/4)" = None /\ Js.parseInt "" = None.
Proof. repeat split; reflexivity. Qed.

Example round_examples :
  Js.Math_round (Js.ofInteger 42) = Js.ofInteger 42 /\
  Js.Math_round (Js.ratio 5 2) = Js.ofInteger 3 /\
  Js.Math_round (Js.ratio (-5) 2) = Js.ofInteger (-2) /\
  Js.Math_round (Js.ratio 149 100) = Js.ofInteger 1 /\
  Js.Math_round (Js.ratio (-1) 5) = PrimFloat.neg_zero /\
  Js.Math_round PrimFloat.infinity = PrimFloat.infinity /\
  Js.Math_round PrimFloat.nan = PrimFloat.nan.
Proof. repeat split; reflexivity. Qed.

(** The product is that of doubles: the double nearest to 0.015, times
    100, is a shade above 1.5 and rounds to 2; the one nearest to 0.145,
    times 100, stays below 14.5 and rounds to 14. *)
Example progressOf_examples :
  Renderer.progressOf (Some (Js.ratio 15 1000)) = Js.ofInteger 2 /\
  Renderer.progressOf (Some (Js.ratio 145 1000)) = Js.ofInteger 14 /\
  Renderer.progressOf (Some (Js.ratio 42 100)) = Js.ofInteger 42 /\
  Renderer.progressOf (Some PrimFloat.nan) = PrimFloat.zero /\
  Renderer.progressOf (Some PrimFloat.neg_zero) = PrimFloat.zero /\
  Renderer.progressOf None = PrimFloat.zero.
Proof. repeat split; reflexivity. Qed.

Example toLowerCase_examples :
  Js.toLowerCase "My Book.PDF" = "my book.pdf"%string /\
  Renderer.slugOf "Moby Dick" "H. Melville" = "moby-dick-h--melville"%string.
Proof. split; reflexivity. Qed.

(** ** Properties of the primitives *)

Section JsFacts.

Import Js.

Lemma truthy_nonempty (s : string) : truthy s = true <-> s <> EmptyString.
Proof.
  unfold truthy. destruct (String.eqb_spec s "") as [->|H]; simpl; split; congruence.
Qed.

Lemma or_else_truthy (o : option string) (d : string) :
  truthy d = true -> truthy (or_else o d) = true.
Proof.
  intros Hd. unfold or_else. destruct o as [s|]; [|exact Hd].
  destruct (truthy s) eqn:E; [exact E | exact Hd].
Qed.

Lemma mapUnits_length (f : ascii -> ascii) (s : string) :
  String.length (mapUnits f s) = String.length s.
Proof. induction s as [|c r IH]; simpl; [reflexivity | now rewrite IH]. Qed.

Lemma mapUnits_get (f : ascii -> ascii) (s : string) (i : nat) :
  String.get i (mapUnits f s) = option_map f (String.get i s).
Proof.
  revert i. induction s as [|c r IH]; intros i; simpl; [reflexivity|].
  destruct i; simpl; [reflexivity | apply IH].
Qed.

Lemma consHead_nonempty (c : ascii) (l : list string) : consHead c l <> [].
Proof. destruct l; discriminate. Qed.

Lemma split_from_nonempty (sep : string) (s : string) (k : nat) :
  split_from sep k s <> [].
Proof.
  revert k. induction s as [|c r IH]; intros k; cbn [split_from]; [discriminate|].
  destruct k; [|apply IH].
  destruct (String.prefix sep (String c r)); [discriminate | apply consHead_nonempty].
Qed.

(** [pop] of a [split] is never [undefined]. *)
Lemma pop_split_defined (sep s : string) : is_Some (pop (split sep s)).
Proof.
  unfold pop, split. destruct (split_from sep 0 s) as [|h t] eqn:E.
  - now apply split_from_nonempty in E.
  - rewrite last_cons. destruct (last t); eauto.
Qed.

Lemma prefix_dot (c : ascii) (r : string) :
  String.prefix "." (String c r) = Ascii.eqb "."%char c.
Proof.
  cbn [String.prefix]. destruct (ascii_dec "." c) as [E|E].
  - subst c. rewrite Ascii.eqb_refl. destruct r; reflexivity.
  - symmetry. now apply Ascii.eqb_neq.
Qed.

(** A string without a dot is a single segment. *)
Lemma split_no_dot (s : string) : occurs "." s = false -> split "." s = [s].
Proof.
  unfold split. induction s as [|c r IH]; intros H.
  - reflexivity.
  - cbn [occurs] in H. apply orb_false_iff in H as [Hc Hr].
    cbn [split_from]. rewrite prefix_dot, Hc, (IH Hr). reflexivity.
Qed.

(** The segments of [base.ext] end with [ext]. *)
Lemma split_dot_last (base ext : string) :
  occurs "." ext = false ->
  exists l, split "." (base +:+ "." +:+ ext) = l ++ [ext] /\ l <> [].
Proof.
  intros Hext. induction base as [|c r IH].
  - exists [EmptyString]. split; [|discriminate].
    change (split "." (String "." ext) = [EmptyString; ext]).
    unfold split. cbn [split_from]. rewrite prefix_dot. simpl.
    fold (split "." ext). now rewrite split_no_dot.
  - destruct IH as (l & Hl & Hne). unfold split in *.
    change ((String c r) +:+ "." +:+ ext)%string with (String c (r +:+ "." +:+ ext)).
    cbn [split_from]. rewrite prefix_dot. destruct (Ascii.eqb "." c).
    + exists (EmptyString :: l). simpl. rewrite Hl. split; [reflexivity | discriminate].
    + rewrite Hl. destruct l as [|h t]; [congruence|].
      exists (String c h :: t). split; [reflexivity | discriminate].
Qed.

(** The extension of [base.ext] is [ext]. *)
Lemma lastSegment_dot (base ext : string) :
  occurs "." ext = false -> lastSegment "." (base +:+ "." +:+ ext) = ext.
Proof.
  intros H. destruct (split_dot_last base ext H) as (l & Hl & _).
  unfold lastSegment, pop. rewrite Hl, last_snoc. reflexivity.
Qed.

End JsFacts.

(** ** File-type classification *)

Section Classification.

Import Js Renderer.

Lemma dispatch_by_extension (filePath : string) :
  dispatch filePath =
    if String.eqb (toLowerCase (lastSegment "." filePath)) "pdf" then ToPDF
    else if String.eqb (toLowerCase (lastSegment "." filePath)) "epub" then ToEPUB
    else Unsupported.
Proof. reflexivity. Qed.

(** A path sent to the PDF loader is not the empty string. *)
Lemma dispatch_pdf_truthy (filePath : string) :
  dispatch filePath = ToPDF -> truthy filePath = true.
Proof.
  intros H. apply truthy_nonempty. intros ->. discriminate H.
Qed.

End Classification.

(** ** Book identifiers *)

Section Identifiers.

Import Js Renderer.

Lemma isAlnum_lowerUnit (c : ascii) : isAlnum (lowerUnit c) = isAlnum c.
Proof. destruct c as [[] [] [] [] [] [] [] []]; reflexivity. Qed.

Lemma lowerUnit_dashUnit (c : ascii) :
  lowerUnit (dashUnit c) = if isAlnum c then lowerUnit c else "-"%char.
Proof. unfold dashUnit. destruct (isAlnum c); reflexivity. Qed.

(** Where no two neighbouring code units are both replaced, replacing unit
    by unit and replacing run by run agree. *)
Lemma collapseRuns_no_adjacent (s : string) :
  adjacentSeparators s = false ->
  Wording.collapseRuns false (toLowerCase s) = toLowerCase (replaceNonAlnum s) /\
  (match s with
   | String c _ => isAlnum c = true
   | EmptyString => True
   end ->
   Wording.collapseRuns true (toLowerCase s) = toLowerCase (replaceNonAlnum s)).
Proof.
  unfold toLowerCase, replaceNonAlnum.
  induction s as [|c r IH]; intros Hadj; [split; reflexivity|].
  assert (Hr : adjacentSeparators r = false).
  { destruct r as [|d r']; [reflexivity|].
    cbn [adjacentSeparators] in Hadj. now apply orb_false_iff in Hadj as [_ ?]. }
  destruct (IH Hr) as [IHf IHt].
  cbn [mapUnits Wording.collapseRuns]. rewrite isAlnum_lowerUnit, lowerUnit_dashUnit.
  destruct (isAlnum c) eqn:Hc.
  - rewrite IHf. split; reflexivity.
  - split; [|intros Habs; discriminate Habs].
    rewrite IHt; [reflexivity|].
    destruct r as [|d r']; [exact I|].
    cbn [adjacentSeparators] in Hadj. apply orb_false_iff in Hadj as [Hd _].
    rewrite Hc in Hd. simpl in Hd. now apply negb_false_iff in Hd.
Qed.

Lemma collapseRuns_length_le (inRun : bool) (s : string) :
  (String.length (Wording.collapseRuns inRun s) <= String.length s)%nat.
Proof.
  revert inRun. induction s as [|c r IH]; intros inRun; cbn [Wording.collapseRuns].
  - reflexivity.
  - destruct (isAlnum c); [|destruct inRun]; cbn [String.length];
      first [apply le_n_S, IH | apply le_S, IH].
Qed.

(** Two neighbouring units outside the class make the run-collapsing slug
    shorter than its source. *)
Lemma collapseRuns_adjacent_shorter (inRun : bool) (s : string) :
  adjacentSeparators s = true ->
  (String.length (Wording.collapseRuns inRun (toLowerCase s)) < String.length s)%nat.
Proof.
  unfold toLowerCase. revert inRun.
  induction s as [|c r IH]; intros inRun Hadj; [discriminate Hadj|].
  assert (Hcases :
            (exists d r', r = String d r' /\ isAlnum c = false /\ isAlnum d = false)
            \/ adjacentSeparators r = true).
  { destruct r as [|d r']; [discriminate Hadj|].
    cbn [adjacentSeparators] in Hadj. apply orb_true_iff in Hadj as [Hpair|Hrest].
    - left. apply andb_true_iff in Hpair as [Hc Hd].
      apply negb_true_iff in Hc, Hd. now exists d, r'.
    - now right. }
  destruct Hcases as [(d & r' & -> & Hc & Hd)|Hrest].
  - cbn [mapUnits Wording.collapseRuns String.length].
    rewrite !isAlnum_lowerUnit, Hc, Hd.
    assert (Hle := collapseRuns_length_le true (mapUnits lowerUnit r')).
    rewrite mapUnits_length in Hle.
    destruct inRun; cbn [String.length]; lia.
  - assert (Hf := IH false Hrest). assert (Ht := IH true Hrest).
    cbn [mapUnits Wording.collapseRuns].
    destruct (isAlnum (lowerUnit c)); [|destruct inRun]; cbn [String.length]; lia.
Qed.

(** C4, as the specification states it, fails: the title "A: B" by "C" gets
    the identifier [a--b-c], two separators for the run of a colon and a
    space, where one separator for each run would give [a-b-c]. *)
Lemma fallback_identifier_keeps_runs :
  let m := {| md_title := Some "A: B"%string; creator := Some "C"%string;
              identifier := None |} in
  bookIdentifier (generateBookIdentifier (Some m) sampleState) = Some "a--b-c"%string /\
  Wording.slugByRuns "A: B" "C" = "a-b-c"%string /\
  bookIdentifier (generateBookIdentifier (Some m) sampleState)
    <> Some (Wording.slugByRuns "A: B" "C").
Proof.
  intros m. split; [reflexivity | split; [reflexivity | vm_compute; discriminate]].
Qed.

(** C4, amended.  Without a publisher identifier the book identifier is
    made from [title-author] (each part replaced by [unknown] when missing
    or empty) code unit by code unit: a unit in [[a-zA-Z0-9]] is lowercased
    and every other unit becomes one separator [-], so the identifier is as
    long as its source and a run of k such units gives k separators.  It
    equals the run-collapsing slug exactly when the source has no two
    neighbouring units outside the class. *)
Theorem fallback_identifier_per_unit (m : EpubMetadata) (st : State) :
  truthy_opt (identifier m) = false ->
  let title := or_else (md_title m) "unknown" in
  let author := or_else (creator m) "unknown" in
  let source := (title +:+ "-" +:+ author)%string in
  exists slug : string,
    bookIdentifier (generateBookIdentifier (Some m) st) = Some slug /\
    String.length slug = String.length source /\
    (forall i : nat,
        String.get i slug =
          option_map (fun c => if isAlnum c then lowerUnit c else "-"%char)
                     (String.get i source)) /\
    (adjacentSeparators source = false <-> slug = Wording.slugByRuns title author).
Proof.
  intros Hid title author source. exists (slugOf title author).
  unfold generateBookIdentifier. rewrite Hid. split; [reflexivity|].
  unfold slugOf, toLowerCase, replaceNonAlnum. fold source. split; [|split].
  - now rewrite !mapUnits_length.
  - intros i. rewrite !mapUnits_get. destruct (String.get i source) as [c|]; simpl;
      [now rewrite lowerUnit_dashUnit | reflexivity].
  - split.
    + intros Hadj. symmetry. apply (collapseRuns_no_adjacent source Hadj).
    + intros E. destruct (adjacentSeparators source) eqn:Hadj; [exfalso | reflexivity].
      assert (Hlt := collapseRuns_adjacent_shorter false source Hadj).
      unfold Wording.slugByRuns in E. fold source in E. unfold toLowerCase in *.
      rewrite <- E, !mapUnits_length in Hlt. lia.
Qed.

Lemma fallback_identifier_per_unit_witness :
  exists slug : string,
    bookIdentifier
      (generateBookIdentifier
         (Some {| md_title := Some "Moby Dick"%string; creator := None;
                  identifier := Some EmptyString |}) sampleState) = Some slug /\
    String.length slug = 17%nat.
Proof.
  destruct (fallback_identifier_per_unit
              {| md_title := Some "Moby Dick"%string; creator := None;
                 identifier := Some EmptyString |} sampleState eq_refl)
    as (slug & H1 & H2 & _).
  exists slug. split; [exact H1 | exact H2].
Defined.

(** C6.  The identifier that [generateBookIdentifier] gives to resolved
    metadata depends on the metadata alone: neither the clock nor any
    variable of the renderer enters it.  In any two sessions, equal
    metadata give equal identifiers; so do two documents with the same
    non-empty publisher identifier (which is then the book identifier),
    and two documents without one that agree on title and author. *)
Theorem identifier_stability (m1 m2 : EpubMetadata) (st1 st2 : State) :
  let id1 := bookIdentifier (generateBookIdentifier (Some m1) st1) in
  let id2 := bookIdentifier (generateBookIdentifier (Some m2) st2) in
  (m1 = m2 -> id1 = id2) /\
  (truthy_opt (identifier m1) = true -> identifier m2 = identifier m1 ->
     id1 = identifier m1 /\ id2 = id1) /\
  (truthy_opt (identifier m1) = false -> truthy_opt (identifier m2) = false ->
     md_title m2 = md_title m1 -> creator m2 = creator m1 ->
     id2 = id1).
Proof.
  intros id1 id2. subst id1 id2. unfold generateBookIdentifier. split; [|split].
  - intros ->. destruct (truthy_opt (identifier m2)); reflexivity.
  - intros Hid E. rewrite E, Hid. split; reflexivity.
  - intros H1 H2 Et Ec. rewrite H1, H2, Et, Ec. reflexivity.
Qed.

Lemma identifier_stability_witness :
  let isbn := {| md_title := Some "Foo"%string; creator := Some "Bar"%string;
                 identifier := Some "isbn123"%string |} in
  let plain := {| md_title := Some "Foo"%string; creator := Some "Bar"%string;
                  identifier := None |} in
  bookIdentifier (generateBookIdentifier (Some isbn) sampleState)
    = bookIdentifier (generateBookIdentifier (Some isbn) emptyState) /\
  bookIdentifier (generateBookIdentifier (Some isbn) sampleState) = Some "isbn123"%string /\
  bookIdentifier (generateBookIdentifier (Some plain) emptyState)
    = bookIdentifier (generateBookIdentifier (Some plain) sampleState).
Proof.
  intros isbn plain.
  destruct (identifier_stability isbn isbn sampleState emptyState) as (Hsame & Hisbn & _).
  destruct (identifier_stability plain plain sampleState emptyState) as (_ & _ & Hplain).
  split; [exact (Hsame eq_refl)|]. split.
  - exact (proj1 (Hisbn eq_refl eq_refl)).
  - exact (Hplain eq_refl eq_refl eq_refl eq_refl).
Defined.

(** The same holds across two loads of documents with equal metadata, and
    the highlight set is then read under the same key. *)
Lemma loadEPUB_identifier_stable (p1 p2 : string) (w1 w2 : World) (st1 st2 : State)
  (d1 d2 : EpubDoc) (m : EpubMetadata) :
  files w1 p1 = EpubDocument d1 -> files w2 p2 = EpubDocument d2 ->
  displays d1 = true -> displays d2 = true ->
  metadata d1 = Some m -> metadata d2 = Some m ->
  bookIdentifier (loadEPUB p1 w1 st1) = bookIdentifier (loadEPUB p2 w2 st2).
Proof.
  intros F1 F2 D1 D2 M1 M2. unfold loadEPUB, loadEPUB_read, loadEPUB_failed. rewrite F1, F2, D1, D2, M1, M2.
  cbn. unfold generateBookIdentifier. destruct (truthy_opt (identifier m)); reflexivity.
Qed.

(** Only when the metadata cannot be read does the clock enter. *)
Example identifier_without_metadata :
  bookIdentifier (generateBookIdentifier None sampleState)
    = Some "unknown-book-1700000000000"%string.
Proof. reflexivity. Qed.

End Identifiers.

(** ** Settings *)

Section SettingsFacts.

Import Settings.

Lemma spread2_lookup (a b : gmap string Value) (k : string) :
  spread2 a b !! k = match b !! k with Some v => Some v | None => a !! k end.
Proof.
  unfold spread2. rewrite lookup_union. destruct (b !! k), (a !! k); reflexivity.
Qed.

(** A load on any manager: a missing or unreadable store leaves the
    settings as they are, and nothing escapes. *)
Lemma load_failure_keeps (m : SettingsManager) :
  load Rejected m = (m, settings m) /\ load (Resolved None) m = (m, settings m).
Proof. split; reflexivity. Qed.

(** C8.  On the manager as the renderer builds it, loading a stored object
    gives, key by key, the stored value where the stored object defines the
    key and the default otherwise: the stored value wins on common keys,
    keys only in the defaults keep the default, keys only in the stored
    object are retained.  The value returned is the new settings.  When the
    bridge rejects the call or answers [null], the defaults are returned
    and the manager is unchanged; [load] has no other outcome. *)
Theorem load_merges_defaults_with_stored (saved : gmap string Value) :
  (forall k : string,
      (load (Resolved (Some saved)) constructor).2 !! k =
        match saved !! k with
        | Some v => Some v
        | None => the_defaults !! k
        end) /\
  settings (load (Resolved (Some saved)) constructor).1
    = (load (Resolved (Some saved)) constructor).2 /\
  defaults (load (Resolved (Some saved)) constructor).1 = the_defaults /\
  load Rejected constructor = (constructor, the_defaults) /\
  load (Resolved None) constructor = (constructor, the_defaults).
Proof.
  split; [|repeat split].
  intros k. cbn [load snd settings defaults constructor]. apply spread2_lookup.
Qed.

Example load_stored_theme :
  let stored : gmap string Value :=
    {[ "theme"%string := VStr "dark"; "legacyKey"%string := VBool false ]} in
  let loaded := (load (Resolved (Some stored)) constructor).2 in
  loaded !! "theme"%string = Some (VStr "dark") /\
  loaded !! "fontSize"%string = Some (VNum 18) /\
  loaded !! "legacyKey"%string = Some (VBool false) /\
  loaded !! "absent"%string = None.
Proof.
  intros stored loaded. unfold loaded. cbn [load snd settings defaults constructor].
  rewrite !spread2_lookup. repeat split; vm_compute; reflexivity.
Qed.

End SettingsFacts.

(** ** Calls to the storage bridge *)

Section Calls.

Import Renderer.

Lemma libraryWrites_app (a b : list Effect) :
  libraryWrites (a ++ b) = libraryWrites a ++ libraryWrites b.
Proof.
  induction a as [|e a IH]; [reflexivity|].
  destruct e; simpl; rewrite IH; reflexivity.
Qed.

Lemma highlightWrites_app (a b : list Effect) :
  highlightWrites (a ++ b) = highlightWrites a ++ highlightWrites b.
Proof.
  induction a as [|e a IH]; [reflexivity|].
  destruct e; simpl; rewrite IH; reflexivity.
Qed.

Lemma libraryWrites_emit (e : Effect) (st : State) :
  libraryWrites (calls (emit e st)) =
    libraryWrites (calls st) ++ match e with SaveLibrary lib => [lib] | _ => [] end.
Proof. unfold emit. cbn [calls set_calls]. rewrite libraryWrites_app. now destruct e. Qed.

End Calls.

(** ** Highlights *)

Section Highlights.

Import Js Renderer.

Lemma filter_absent (highlightId : string) (hs : list Highlight.t) :
  ~ In highlightId (highlightIds hs) -> List.filter (keeps highlightId) hs = hs.
Proof.
  induction hs as [|h hs IH]; intros Hnot; [reflexivity|].
  simpl in *. unfold keeps at 1.
  destruct (String.eqb_spec (Highlight.id h) highlightId) as [E|E]; simpl.
  - exfalso. apply Hnot. now left.
  - rewrite IH; [reflexivity|]. intros Hin. apply Hnot. now right.
Qed.

Lemma filter_unique (highlightId : string) (hs : list Highlight.t) (h : Highlight.t) :
  NoDup (highlightIds hs) -> In h hs -> Highlight.id h = highlightId ->
  exists before after : list Highlight.t,
    hs = before ++ h :: after /\
    List.filter (keeps highlightId) hs = before ++ after.
Proof.
  induction hs as [|x hs IH]; intros Hnd Hin Hid; [destruct Hin|].
  simpl in Hnd. inversion Hnd as [|? ? Hx Hnd']; subst.
  destruct Hin as [->|Hin].
  - exists [], hs. split; [reflexivity|]. simpl. unfold keeps at 1.
    rewrite String.eqb_refl. simpl. apply filter_absent.
    intros Hin. apply Hx. apply list_elem_of_In. exact Hin.
  - destruct (IH Hnd' Hin eq_refl) as (before & after & E1 & E2).
    exists (x :: before), after. split; [now rewrite E1|].
    simpl. unfold keeps at 1.
    destruct (String.eqb_spec (Highlight.id x) (Highlight.id h)) as [E|E]; simpl.
    + exfalso. apply Hx. rewrite E. apply list_elem_of_In.
      unfold highlightIds. apply in_map. exact Hin.
    + now rewrite E2.
Qed.

(** C7, as the specification states it, fails: when the confirmation
    prompt is declined, [deleteHighlight] returns at once and nothing is
    handed to the storage bridge. *)
Lemma deleteHighlight_declined_no_save :
  ~ (forall (highlightId : string) (confirmed : bool) (st : State),
        ~ In highlightId (highlightIds (highlights st)) ->
        highlights (deleteHighlight highlightId confirmed st) = highlights st /\
        highlightWrites (calls (deleteHighlight highlightId confirmed st)) =
          highlightWrites (calls st) ++ [(bookIdentifier st, highlights st)]).
Proof.
  intros H.
  destruct (H "1700000000001"%string false sampleState) as [_ Hw].
  - simpl. tauto.
  - discriminate Hw.
Qed.

(** C7, amended.  Once the prompt is confirmed, [deleteHighlight] keeps, in
    order, the records whose [id] differs from the given one and hands the
    whole resulting set to the storage bridge, exactly once, under the
    current book identifier; no failure of the bridge reaches the caller.
    So an absent [id] leaves the set unchanged and is still saved, and with
    identifiers unique in the set a present [id] removes exactly its
    record.  When the prompt is declined nothing changes and nothing is
    saved. *)
Theorem deleteHighlight_confirmed (highlightId : string) (st : State) :
  let st' := deleteHighlight highlightId true st in
  highlights st' = List.filter (keeps highlightId) (highlights st) /\
  highlightWrites (calls st') =
    highlightWrites (calls st) ++ [(bookIdentifier st, highlights st')] /\
  (~ In highlightId (highlightIds (highlights st)) -> highlights st' = highlights st) /\
  (forall h : Highlight.t,
      NoDup (highlightIds (highlights st)) -> In h (highlights st) ->
      Highlight.id h = highlightId ->
      exists before after : list Highlight.t,
        highlights st = before ++ h :: after /\ highlights st' = before ++ after) /\
  deleteHighlight highlightId false st = st.
Proof.
  intros st'. subst st'. unfold deleteHighlight, saveHighlightsToFile, emit.
  cbn [highlights calls bookIdentifier set_calls set_highlights].
  split; [reflexivity|]. split; [|split; [|split]].
  - rewrite highlightWrites_app. reflexivity.
  - apply filter_absent.
  - intros h Hnd Hin Hid. apply filter_unique; assumption.
  - reflexivity.
Qed.

Lemma deleteHighlight_confirmed_witness :
  let h1 := {| Highlight.id := "1700000000001"; Highlight.cfiRange := "epubcfi(/6/4!/4/2,/1:0,/1:10)";
               Highlight.text := "call me"; Highlight.color := "yellow";
               Highlight.note := ""; Highlight.created := 1700000000001 |} in
  let st := Renderer.set_highlights [h1] sampleState in
  highlights (deleteHighlight "1700000000001" true st) = [] /\
  highlights (deleteHighlight "7" true st) = [h1].
Proof.
  intros h1 st. split.
  - destruct (deleteHighlight_confirmed "1700000000001" st) as (_ & _ & _ & H & _).
    destruct (H h1) as (before & after & E1 & E2).
    + repeat constructor. simpl. intros Hin. inversion Hin.
    + simpl. now left.
    + reflexivity.
    + rewrite E2. destruct before as [|x before]; simpl in E1.
      * injection E1 as <-. reflexivity.
      * injection E1 as _ E1. destruct before; discriminate E1.
  - destruct (deleteHighlight_confirmed "7" st) as (_ & _ & H & _).
    apply H. simpl. intros [E|[]]. discriminate E.
Defined.

End Highlights.

(** ** The library index: lookups and in-place updates *)

Section Index.

Import Js Renderer.

Lemma find_split (p : Entry.t -> bool) (lib : list Entry.t) (b : Entry.t) :
  List.find p lib = Some b ->
  exists before after : list Entry.t,
    lib = before ++ b :: after /\ p b = true /\ List.find p before = None.
Proof.
  induction lib as [|x lib IH]; intros H; [discriminate H|].
  simpl in H. destruct (p x) eqn:Hx.
  - injection H as ->. exists [], lib. repeat split. exact Hx.
  - destruct (IH H) as (before & after & E & Hb & Hn).
    exists (x :: before), after. repeat split; [now rewrite E | exact Hb |].
    simpl. now rewrite Hx.
Qed.

Lemma updateFirst_at (p : Entry.t -> bool) (f : Entry.t -> Entry.t)
  (before after : list Entry.t) (b : Entry.t) :
  List.find p before = None -> p b = true ->
  updateFirst p f (before ++ b :: after) = before ++ f b :: after.
Proof.
  intros Hn Hb. induction before as [|x before IH]; simpl in *.
  - now rewrite Hb.
  - destruct (p x); [discriminate Hn|]. now rewrite IH.
Qed.

Lemma find_at (p : Entry.t -> bool) (before after : list Entry.t) (b : Entry.t) :
  List.find p before = None -> p b = true ->
  List.find p (before ++ b :: after) = Some b.
Proof.
  intros Hn Hb. induction before as [|x before IH]; simpl in *.
  - now rewrite Hb.
  - destruct (p x); [discriminate Hn|]. now apply IH.
Qed.

Lemma updateFirst_absent (p : Entry.t -> bool) (f : Entry.t -> Entry.t)
  (lib : list Entry.t) :
  List.find p lib = None -> updateFirst p f lib = lib.
Proof.
  induction lib as [|x lib IH]; intros H; [reflexivity|].
  simpl in *. destruct (p x); [discriminate H|]. now rewrite IH.
Qed.

(** An update that keeps the paths keeps the list of paths. *)
Lemma updateFirst_paths (p : Entry.t -> bool) (f : Entry.t -> Entry.t)
  (lib : list Entry.t) :
  (forall b, Entry.path (f b) = Entry.path b) ->
  map Entry.path (updateFirst p f lib) = map Entry.path lib.
Proof.
  intros Hf. induction lib as [|x lib IH]; [reflexivity|].
  simpl. destruct (p x); simpl; [now rewrite Hf | now rewrite IH].
Qed.

Lemma findByPath_None (p : string) (lib : list Entry.t) :
  findByPath p lib = None <-> ~ In p (map Entry.path lib).
Proof.
  unfold findByPath. induction lib as [|x lib IH]; simpl; [tauto|].
  destruct (String.eqb_spec (Entry.path x) p) as [E|E].
  - split; [discriminate | intros H; exfalso; apply H; now left].
  - rewrite IH. tauto.
Qed.

Lemma findByPath_Some_path (p : string) (lib : list Entry.t) (b : Entry.t) :
  findByPath p lib = Some b -> Entry.path b = p /\ In b lib.
Proof.
  intros H. destruct (find_some _ _ H) as [Hin Hp].
  split; [now apply String.eqb_eq | exact Hin].
Qed.

End Index.

(** ** Editing the metadata of an entry *)

Section Editing.

Import Js Renderer.

(** C10.  Editing the entry that the dialog was opened on stores the title
    and author typed in, an empty title being replaced by "Unknown Title"
    and an empty author by "Unknown Author": neither stored field is ever
    the empty string.  The entry is changed where it stands, nothing else
    in the index moves, the whole index is handed to the storage bridge
    once, at once, and the dialog is closed. *)
Theorem saveEditedBook_never_empty (titleInput authorInput bookId : string)
  (st : State) (b : Entry.t) :
  editingBookId st = Some bookId -> truthy bookId = true ->
  findById bookId (library st) = Some b ->
  let st' := saveEditedBook titleInput authorInput st in
  exists b' : Entry.t,
    findById bookId (library st') = Some b' /\
    Entry.title b' = (if String.eqb titleInput "" then "Unknown Title" else titleInput) /\
    Entry.author b' = (if String.eqb authorInput "" then "Unknown Author" else authorInput) /\
    Entry.title b' <> EmptyString /\ Entry.author b' <> EmptyString /\
    Entry.id b' = Entry.id b /\ Entry.path b' = Entry.path b /\
    Entry.lastPosition b' = Entry.lastPosition b /\ Entry.progress b' = Entry.progress b /\
    (exists before after : list Entry.t,
        library st = before ++ b :: after /\ library st' = before ++ b' :: after) /\
    libraryWrites (calls st') = libraryWrites (calls st) ++ [library st'] /\
    editingBookId st' = None.
Proof.
  intros Hedit Htruthy Hfind st'. subst st'. unfold saveEditedBook.
  rewrite Hedit, Htruthy, Hfind.
  destruct (find_split _ _ _ Hfind) as (before & after & Elib & Hb & Hn).
  set (edit := editEntry titleInput authorInput).
  exists (edit b).
  cbn [library calls editingBookId set_editingBookId saveLibrary emit set_calls set_library].
  rewrite Elib, (updateFirst_at _ edit before after b Hn Hb).
  split; [|split; [|split; [|split; [|split]]]].
  - unfold findById. apply find_at; [exact Hn | exact Hb].
  - unfold edit, editEntry, or_else, truthy. cbn [Entry.title].
    now destruct (String.eqb titleInput "").
  - unfold edit, editEntry, or_else, truthy. cbn [Entry.author].
    now destruct (String.eqb authorInput "").
  - apply truthy_nonempty. unfold edit, editEntry. cbn [Entry.title].
    now apply or_else_truthy.
  - apply truthy_nonempty. unfold edit, editEntry. cbn [Entry.author].
    now apply or_else_truthy.
  - repeat split; try reflexivity.
    + exists before, after. split; reflexivity.
    + rewrite libraryWrites_app. reflexivity.
Qed.

Lemma saveEditedBook_never_empty_witness :
  exists b' : Entry.t,
    findById "isbn123"
      (library (saveEditedBook "" "Melville" (openEditBookDialog "isbn123" sampleState)))
      = Some b' /\
    Entry.title b' = "Unknown Title"%string /\ Entry.author b' = "Melville"%string.
Proof.
  destruct (saveEditedBook_never_empty "" "Melville" "isbn123"
              (openEditBookDialog "isbn123" sampleState) sampleEntry
              eq_refl eq_refl eq_refl)
    as (b' & H1 & H2 & H3 & _).
  exists b'. split; [exact H1 | split; [exact H2 | exact H3]].
Defined.

(** With no dialog open, or an identifier that is no longer in the index,
    nothing is edited and nothing is saved. *)
Lemma saveEditedBook_without_target (titleInput authorInput : string) (st : State) :
  editingBookId st = None -> saveEditedBook titleInput authorInput st = st.
Proof. intros H. unfold saveEditedBook. now rewrite H. Qed.

End Editing.

(** ** Recording the reading position *)

Section Progress.

Import Js Renderer.

(** A fraction of [k] hundredths, [k] from 0 to 100, stores [k]: the
    product of the double nearest to [k / 100] with 100 rounds back to
    [k]. *)
Lemma progressOf_whole_percent (k : Z) :
  0 <= k <= 100 -> progressOf (Some (ratio k 100)) = ofInteger k.
Proof.
  intros H.
  assert (E : exists n : nat, k = Z.of_nat n /\ (n <= 100)%nat)
    by (exists (Z.to_nat k); lia).
  destruct E as (n & -> & Hn).
  do 101 (destruct n as [|n]; [vm_compute; reflexivity|]). lia.
Qed.

(** C2, as the specification states it, fails: the stored figure is not
    clamped.  A reported fraction of 1.5 stores a progress of 150. *)
Lemma progress_not_clamped :
  ~ (forall (st : State) (s : Start) (p : string) (b' : Entry.t),
        currentBookPath st = Some p ->
        findByPath p (library (onLocationChange (Some {| start := Some s |}) st)) = Some b' ->
        Wording.inRange (Entry.progress b') = true).
Proof.
  intros H.
  set (s := {| cfi := "epubcfi(/6/4!/4/2,/1:0,/1:10)"; percentage := Some (ratio 3 2) |}).
  assert (E : exists b', findByPath "/books/a.epub"
                (library (onLocationChange (Some {| start := Some s |}) sampleState)) = Some b'
              /\ Entry.progress b' = ofInteger 150).
  { eexists. split; reflexivity. }
  destruct E as (b' & E1 & E2).
  specialize (H sampleState s "/books/a.epub"%string b' eq_refl E1).
  rewrite E2 in H. discriminate H.
Qed.

(** C2, amended.  A location change on the open book, when the book is in
    the library, sets the [lastPosition] of its entry to the locator of the
    event and its [progress] to [Math.round] of the product, in doubles,
    of the fraction and 100, a fraction that is missing, [NaN] or zero
    counting as 0; nothing else in the entry or the index changes.  No
    clamping takes place.  A fraction of [k] hundredths, [k] from 0 to
    100, stores [k]. *)
Theorem onLocationChange_records_progress (st : State) (s : Start) (p : string)
  (b : Entry.t) :
  currentBookPath st = Some p -> truthy p = true ->
  findByPath p (library st) = Some b ->
  let st' := onLocationChange (Some {| start := Some s |}) st in
  exists b' : Entry.t,
    findByPath p (library st') = Some b' /\
    Entry.lastPosition b' = Some (cfi s) /\
    Entry.progress b' =
      Math_round (PrimFloat.mul (num_or_zero (percentage s)) (ofInteger 100)) /\
    Entry.id b' = Entry.id b /\ Entry.path b' = Entry.path b /\
    Entry.title b' = Entry.title b /\ Entry.author b' = Entry.author b /\
    Entry.fileType b' = Entry.fileType b /\ Entry.coverPath b' = Entry.coverPath b /\
    Entry.addedDate b' = Entry.addedDate b /\ Entry.lastOpened b' = Entry.lastOpened b /\
    (exists before after : list Entry.t,
        library st = before ++ b :: after /\ library st' = before ++ b' :: after) /\
    (forall k : Z, 0 <= k <= 100 -> percentage s = Some (ratio k 100) ->
                   Entry.progress b' = ofInteger k) /\
    (percentage s = None -> Entry.progress b' = PrimFloat.zero).
Proof.
  intros Hcur Htruthy Hfind st'. subst st'. unfold onLocationChange.
  cbn [currentBookPath library set_currentLocationCfi set_settingsManager saveSettings
       emit set_calls clock].
  rewrite Hcur, Htruthy, Hfind.
  destruct (find_split _ _ _ Hfind) as (before & after & Elib & Hb & Hn).
  set (record := recordPosition s).
  exists (record b).
  cbn [library set_librarySaveTimeout set_library].
  rewrite Elib, (updateFirst_at _ record before after b Hn Hb).
  split.
  { unfold findByPath. apply find_at; [exact Hn | exact Hb]. }
  do 10 (split; [reflexivity|]).
  split; [|split].
  - exists before, after. split; reflexivity.
  - intros k Hk Hq. unfold record, recordPosition. cbn [Entry.progress]. rewrite Hq.
    apply progressOf_whole_percent. exact Hk.
  - intros Hq. unfold record, recordPosition. cbn [Entry.progress]. rewrite Hq.
    reflexivity.
Qed.

Lemma onLocationChange_records_progress_witness :
  exists b' : Entry.t,
    findByPath "/books/a.epub"
      (library
         (onLocationChange
            (Some {| start := Some {| cfi := "epubcfi(/6/4!/4/2,/1:0,/1:10)";
                                      percentage := Some (ratio 42 100) |} |})
            sampleState)) = Some b' /\
    Entry.lastPosition b' = Some "epubcfi(/6/4!/4/2,/1:0,/1:10)"%string /\
    Entry.progress b' = ofInteger 42.
Proof.
  destruct (onLocationChange_records_progress sampleState
              {| cfi := "epubcfi(/6/4!/4/2,/1:0,/1:10)"; percentage := Some (ratio 42 100) |}
              "/books/a.epub" sampleEntry eq_refl eq_refl eq_refl)
    as (b' & H1 & H2 & _ & _ & _ & _ & _ & _ & _ & _ & _ & _ & H3 & _).
  exists b'. split; [exact H1 | split; [exact H2 | apply (H3 42); [lia | reflexivity]]].
Defined.

End Progress.

(** ** Adding a book: one entry for each path *)

Section Adding.

Import Js Renderer.

Lemma chosenPath_arg (filePathArg : option string) (w : World) (filePath : string) :
  truthy_opt filePathArg = true -> chosenPath filePathArg w = Some filePath ->
  filePathArg = Some filePath.
Proof. unfold chosenPath. now intros ->. Qed.

(** Called with a path, [addBookToLibrary] never reaches [loadBook]. *)
Lemma addBookToLibrary_with_path (open1 open2 : string -> State -> State)
  (filePathArg titleArg authorArg fileTypeArg : option string) (w : World) (st : State) :
  truthy_opt filePathArg = true ->
  addBookToLibrary_with open1 filePathArg titleArg authorArg fileTypeArg w st =
  addBookToLibrary_with open2 filePathArg titleArg authorArg fileTypeArg w st.
Proof. intros H. unfold addBookToLibrary_with, libraryEntryFor, addBookToLibrary_failed. rewrite H. reflexivity. Qed.

(** On a path that is in the library, all that is left of the operation is
    the opening of the book, and only when no path was passed. *)
Lemma addBookToLibrary_with_present (openBook : string -> State -> State)
  (filePathArg titleArg authorArg fileTypeArg : option string) (w : World) (st : State)
  (filePath : string) (e : Entry.t) :
  chosenPath filePathArg w = Some filePath ->
  findByPath filePath (library st) = Some e ->
  addBookToLibrary_with openBook filePathArg titleArg authorArg fileTypeArg w st =
    if truthy_opt filePathArg then st else openBook filePath st.
Proof.
  intros Hc Hf. unfold addBookToLibrary_with, libraryEntryFor, addBookToLibrary_failed. cbv zeta. rewrite Hc, Hf. reflexivity.
Qed.

Lemma onePerPath_cons (e : Entry.t) (lib : list Entry.t) :
  findByPath (Entry.path e) lib = None -> onePerPath lib -> onePerPath (e :: lib).
Proof.
  intros Hf Hnd. unfold onePerPath. simpl. constructor; [|exact Hnd].
  rewrite list_elem_of_In. now apply findByPath_None.
Qed.

(** The invariant survives an add if it survives the opening of a book. *)
Lemma addBookToLibrary_with_onePerPath (openBook : string -> State -> State)
  (filePathArg titleArg authorArg fileTypeArg : option string) (w : World) (st : State) :
  (forall p s, onePerPath (library s) -> onePerPath (library (openBook p s))) ->
  onePerPath (library st) ->
  onePerPath
    (library (addBookToLibrary_with openBook filePathArg titleArg authorArg fileTypeArg w st)).
Proof.
  intros Hopen Hst. unfold addBookToLibrary_with, libraryEntryFor, addBookToLibrary_failed. cbv zeta.
  destruct (chosenPath filePathArg w) as [filePath|]; [|exact Hst].
  destruct (findByPath filePath (library st)) as [e|] eqn:Hf.
  { destruct (truthy_opt filePathArg); [exact Hst | now apply Hopen]. }
  assert (Hfin : forall (e : Entry.t) (s : State),
             Entry.path e = filePath -> library s = library st ->
             onePerPath
               (library
                  (if truthy_opt filePathArg
                   then saveLibrary (set_library (e :: library s) s)
                   else openBook filePath (saveLibrary (set_library (e :: library s) s))))).
  { intros e s He Hs.
    assert (H1 : onePerPath (library (saveLibrary (set_library (e :: library s) s)))).
    { cbn [library saveLibrary emit set_calls set_library]. rewrite Hs.
      apply onePerPath_cons; [now rewrite He | exact Hst]. }
    destruct (truthy_opt filePathArg); [exact H1 | now apply Hopen]. }
  destruct (String.eqb _ "pdf").
  - destruct (files w filePath); try exact Hst.
    destruct (pdfViewerLoaded st); cbn [negb]; [|exact Hst]. now apply Hfin.
  - destruct (files w filePath) as [| | | d |]; try exact Hst.
    destruct (metadata d); [|exact Hst].
    apply Hfin; [reflexivity|]. now destruct (hasCover d).
Qed.

Lemma loadEPUB_library (filePath : string) (w : World) (st : State) :
  library (loadEPUB filePath w st) = library st.
Proof.
  unfold loadEPUB, loadEPUB_read, loadEPUB_failed. destruct (files w filePath) as [| | | d |]; try reflexivity.
  destruct (displays d); [|reflexivity].
  unfold generateBookIdentifier.
  destruct (metadata d) as [m|]; [destruct (truthy_opt (identifier m))|]; reflexivity.
Qed.

Lemma loadBook_onePerPath (filePath : string) (w : World) (st : State) :
  onePerPath (library st) -> onePerPath (library (loadBook filePath w st)).
Proof.
  intros Hst. unfold loadBook, loadBook_after, loadBook_failed. destruct (dispatch filePath).
  - unfold loadPDF, loadPDF_view, loadPDF_read, loadPDF_failed.
    destruct (_ && _); [|destruct (pdfSupport w); [|exact Hst]];
      (destruct (files w filePath); try exact Hst;
       unfold addBookToLibrary_from_loader;
       apply addBookToLibrary_with_onePerPath; [intros; assumption | exact Hst]).
  - now rewrite loadEPUB_library.
  - exact Hst.
Qed.

(** Opening a book whose path is in the library leaves the library as it
    is: the add made by the PDF loader finds the entry. *)
Lemma loadBook_library_present (filePath : string) (w : World) (st : State) (e : Entry.t) :
  findByPath filePath (library st) = Some e ->
  library (loadBook filePath w st) = library st.
Proof.
  intros Hf. unfold loadBook, loadBook_after, loadBook_failed. destruct (dispatch filePath) eqn:Hd.
  - apply dispatch_pdf_truthy in Hd.
    unfold loadPDF, loadPDF_view, loadPDF_read, loadPDF_failed.
    destruct (_ && _); [|destruct (pdfSupport w); [|reflexivity]];
      (destruct (files w filePath); try reflexivity;
       unfold addBookToLibrary_from_loader;
       erewrite addBookToLibrary_with_present with (filePath := filePath) (e := e);
       [ cbn [truthy_opt]; rewrite Hd; reflexivity
       | unfold chosenPath; cbn [truthy_opt]; now rewrite Hd
       | exact Hf ]).
  - now rewrite loadEPUB_library.
  - reflexivity.
Qed.

(** An add that runs from start to end on its own keeps the rule of one
    entry for each path; and on a path that is already in the library
    (whether passed as an argument or picked in the dialog) it leaves the
    library as it is, so the length is the same and the entry found for the
    path, with its [id], is the one that was there.  Adds that overlap are
    another matter, taken up in the section on calls that overlap. *)
Lemma addBookToLibrary_one_entry_per_path
  (filePathArg titleArg authorArg fileTypeArg : option string) (w : World) (st : State) :
  let st' := addBookToLibrary filePathArg titleArg authorArg fileTypeArg w st in
  (onePerPath (library st) -> onePerPath (library st')) /\
  (forall (filePath : string) (e : Entry.t),
      chosenPath filePathArg w = Some filePath ->
      findByPath filePath (library st) = Some e ->
      library st' = library st /\
      length (library st') = length (library st) /\
      findByPath filePath (library st') = Some e) /\
  (forall (filePath : string) (e : Entry.t)
          (filePathArg2 titleArg2 authorArg2 fileTypeArg2 : option string) (w2 : World),
      chosenPath filePathArg2 w2 = Some filePath ->
      findByPath filePath (library st') = Some e ->
      let st'' := addBookToLibrary filePathArg2 titleArg2 authorArg2 fileTypeArg2 w2 st' in
      library st'' = library st' /\ findByPath filePath (library st'') = Some e).
Proof.
  assert (Hpresent :
            forall fp t a ft w0 s filePath e,
              chosenPath fp w0 = Some filePath ->
              findByPath filePath (library s) = Some e ->
              library (addBookToLibrary fp t a ft w0 s) = library s).
  { intros fp t a ft w0 s filePath e Hc Hf. unfold addBookToLibrary.
    rewrite (addBookToLibrary_with_present _ fp t a ft w0 s filePath e Hc Hf).
    destruct (truthy_opt fp); [reflexivity|].
    now apply loadBook_library_present with (e := e). }
  intros st'. split; [|split].
  - intros Hst. subst st'. unfold addBookToLibrary.
    apply addBookToLibrary_with_onePerPath; [|exact Hst].
    intros p s Hs. now apply loadBook_onePerPath.
  - intros filePath e Hc Hf.
    assert (E : library st' = library st) by (eapply Hpresent; eassumption).
    rewrite E. repeat split. exact Hf.
  - intros filePath e fp2 t2 a2 ft2 w2 Hc Hf st''.
    assert (E : library st'' = library st') by (eapply Hpresent; eassumption).
    rewrite E. split; [reflexivity | exact Hf].
Qed.

(** The other operations on the index, each run on its own, keep the rule
    as well. *)
Lemma filter_onePerPath (keep : Entry.t -> bool) (lib : list Entry.t) :
  onePerPath lib -> onePerPath (List.filter keep lib).
Proof.
  unfold onePerPath. induction lib as [|x lib IH]; intros Hnd; [exact Hnd|].
  simpl in Hnd. inversion Hnd as [|? ? Hx Hnd']; subst. simpl.
  destruct (keep x); [|now apply IH]. simpl. constructor; [|now apply IH].
  intros Hin. apply Hx. apply list_elem_of_In in Hin. apply list_elem_of_In.
  apply in_map_iff in Hin as (y & Hy & Hin). apply in_map_iff.
  exists y. split; [exact Hy|]. now apply filter_In in Hin as [Hin _].
Qed.

Lemma updateFirst_onePerPath (test : Entry.t -> bool) (f : Entry.t -> Entry.t)
  (lib : list Entry.t) :
  (forall b, Entry.path (f b) = Entry.path b) ->
  onePerPath lib -> onePerPath (updateFirst test f lib).
Proof. intros Hf. unfold onePerPath. now rewrite updateFirst_paths. Qed.

Lemma operations_keep_onePerPath (st : State) :
  onePerPath (library st) ->
  (forall location, onePerPath (library (onLocationChange location st))) /\
  (forall dt, onePerPath (library (elapse dt st))) /\
  (forall titleInput authorInput,
      onePerPath (library (saveEditedBook titleInput authorInput st))) /\
  (forall bookId confirmed,
      onePerPath (library (removeBookFromLibrary bookId confirmed st))) /\
  (forall bookPath w, onePerPath (library (openBookFromLibrary bookPath w st))).
Proof.
  intros Hst. split; [|split; [|split; [|split]]].
  - intros [[[s|]]|]; try exact Hst. unfold onLocationChange.
    cbn [currentBookPath library set_currentLocationCfi set_settingsManager
         saveSettings emit set_calls].
    destruct (currentBookPath st) as [p|]; [|exact Hst].
    destruct (truthy p); [|exact Hst].
    destruct (findByPath p (library st)); [|exact Hst].
    cbn [library set_librarySaveTimeout set_library].
    now apply updateFirst_onePerPath.
  - intros dt. unfold elapse. cbn [librarySaveTimeout set_clock clock].
    destruct (librarySaveTimeout st) as [d|]; [|exact Hst].
    destruct (d <=? clock st + dt); exact Hst.
  - intros titleInput authorInput. unfold saveEditedBook.
    destruct (editingBookId st) as [bookId|]; [|exact Hst].
    destruct (truthy bookId); [|exact Hst].
    destruct (findById bookId (library st)); [|exact Hst].
    cbn [library set_editingBookId saveLibrary emit set_calls set_library].
    now apply updateFirst_onePerPath.
  - intros bookId [|]; [|exact Hst]. unfold removeBookFromLibrary.
    cbn [library saveLibrary emit set_calls set_library].
    now apply filter_onePerPath.
  - intros bookPath w. unfold openBookFromLibrary. cbv zeta.
    set (st1 := match findByPath bookPath (library st) with
                | Some _ => _
                | None => st
                end).
    assert (H1 : onePerPath (library st1)).
    { subst st1. destruct (findByPath bookPath (library st)); [|exact Hst].
      cbn [library saveLibrary emit set_calls set_library].
      now apply updateFirst_onePerPath. }
    assert (H2 := loadBook_onePerPath bookPath w st1 H1).
    destruct (findByPath bookPath (library st)) as [b|]; [|exact H2].
    destruct (_ && _ && present (rendition _)).
    + unfold resumeEPUB. destruct (rendition _) as [r|]; [|exact H2].
      destruct (display _ r); exact H2.
    + destruct (_ && _ && present (pdfViewer _)); [|exact H2].
      unfold resumePDF. destruct (pdfViewer _) as [v|]; [|exact H2].
      destruct (parseInt _) as [k|]; [|exact H2]. destruct (0 <? k); exact H2.
Qed.

Lemma addBookToLibrary_one_entry_per_path_witness :
  library (addBookToLibrary (Some "/books/a.epub"%string) None None None sampleWorld
             sampleState) = [sampleEntry] /\
  library (addBookToLibrary None None None None sampleWorld sampleState) = [sampleEntry].
Proof.
  split.
  - apply (addBookToLibrary_one_entry_per_path
             (Some "/books/a.epub"%string) None None None sampleWorld sampleState)
      with (filePath := "/books/a.epub"%string) (e := sampleEntry); reflexivity.
  - apply (addBookToLibrary_one_entry_per_path
             None None None None sampleWorld sampleState)
      with (filePath := "/books/a.epub"%string) (e := sampleEntry); reflexivity.
Defined.

(** The scenario of the specification: an empty library, then the EPUB
    whose engine reports title Foo, author Bar and identifier isbn123. *)
Example add_to_empty_library :
  library (addBookToLibrary (Some "/books/a.epub"%string) None None None sampleWorld
             emptyState) = [sampleEntry].
Proof. reflexivity. Qed.

Example add_pdf_twice :
  let st1 := loadBook "/books/manual.pdf" sampleWorld emptyState in
  let st2 := loadBook "/books/manual.pdf" sampleWorld st1 in
  map Entry.id (library st1) = ["manual-unknown-1700000000000"%string] /\
  library st2 = library st1.
Proof. split; reflexivity. Qed.

End Adding.

(** ** Resuming a PDF at its last page *)

Section Resume.

Import Js Renderer.

(** The add made by a loader touches neither viewer. *)
Lemma addBookToLibrary_from_loader_viewers
  (filePathArg titleArg authorArg fileTypeArg : option string) (w : World) (st : State) :
  let st' := addBookToLibrary_from_loader filePathArg titleArg authorArg fileTypeArg w st in
  pdfViewer st' = pdfViewer st /\ rendition st' = rendition st.
Proof.
  unfold addBookToLibrary_from_loader, addBookToLibrary_with, libraryEntryFor, addBookToLibrary_failed. cbv zeta.
  destruct (chosenPath filePathArg w) as [filePath|]; [|split; reflexivity].
  destruct (findByPath filePath (library st)).
  { destruct (truthy_opt filePathArg); split; reflexivity. }
  destruct (String.eqb _ "pdf").
  - destruct (files w filePath); try (split; reflexivity).
    destruct (pdfViewerLoaded st); cbn [negb]; [|split; reflexivity].
    destruct (truthy_opt filePathArg); split; reflexivity.
  - destruct (files w filePath) as [| | | d |]; try (split; reflexivity).
    destruct (metadata d); [|split; reflexivity].
    destruct (truthy_opt filePathArg), (hasCover d); split; reflexivity.
Qed.

(** After a successful load of a PDF of [n] pages the viewer shows page 1
    and no rendition is left. *)
Lemma loadBook_pdf_viewer (filePath : string) (w : World) (st : State)
  (n : Z) (t a : option string) :
  dispatch filePath = ToPDF -> pdfSupport w = true ->
  files w filePath = PdfDocument n t a ->
  pdfViewer (loadBook filePath w st)
    = Some {| PDFViewer.pdfDoc := true; PDFViewer.currentPage := 1;
              PDFViewer.totalPages := n |} /\
  rendition (loadBook filePath w st) = None.
Proof.
  intros Hd Hs Hf. unfold loadBook, loadBook_after, loadPDF. rewrite Hd, Hs.
  destruct (_ && _); unfold loadPDF_view, loadPDF_read;
    cbn [files set_currentBookPath set_rendition]; rewrite Hf;
    match goal with
    | |- context [addBookToLibrary_from_loader ?fp ?ti ?au ?ft ?w0 ?s] =>
        destruct (addBookToLibrary_from_loader_viewers fp ti au ft w0 s) as [Hv Hr]
    end;
    cbv zeta in Hv, Hr; rewrite Hv, Hr; split; reflexivity.
Qed.

(** C9.  Resuming a PDF entry whose file opens as a PDF of [n] pages: when
    [lastPosition] parses as a page number [p] with [1 <= p <= n] the
    viewer ends on page [p]; when it parses as a number below 1 or above
    [n], or does not parse, the viewer stays on page 1, where the load
    left it. *)
Theorem openBookFromLibrary_resumes_pdf (bookPath pos : string) (w : World) (st : State)
  (b : Entry.t) (n : Z) (t a : option string) :
  findByPath bookPath (library st) = Some b ->
  Entry.fileType b = "pdf"%string -> Entry.lastPosition b = Some pos ->
  dispatch bookPath = ToPDF -> pdfSupport w = true ->
  files w bookPath = PdfDocument n t a ->
  let st' := openBookFromLibrary bookPath w st in
  let onPage (k : Z) :=
    Some {| PDFViewer.pdfDoc := true; PDFViewer.currentPage := k;
            PDFViewer.totalPages := n |} in
  (forall p : Z, parseInt pos = Some p -> 1 <= p <= n -> pdfViewer st' = onPage p) /\
  (forall p : Z, parseInt pos = Some p -> p < 1 \/ n < p -> pdfViewer st' = onPage 1) /\
  (parseInt pos = None -> pdfViewer st' = onPage 1).
Proof.
  intros Hfind Hty Hpos Hd Hs Hf st' onPage. subst st'. unfold openBookFromLibrary.
  cbv zeta. rewrite Hfind, Hty, Hpos.
  set (st1 := saveLibrary _).
  destruct (loadBook_pdf_viewer bookPath w st1 n t a Hd Hs Hf) as [Hv Hr].
  rewrite Hr, Hv. cbn [present truthy_opt default from_option id].
  rewrite andb_false_r, !andb_true_r.
  assert (Hresume : forall k : Z,
             (match parseInt pos with
              | Some p => if 0 <? p then (if (1 <=? p) && (p <=? n) then p else 1) else 1
              | None => 1
              end) = k ->
             pdfViewer (if truthy pos then resumePDF pos (loadBook bookPath w st1)
                        else loadBook bookPath w st1) = onPage k).
  { intros k Hk. destruct (truthy pos) eqn:Htr.
    - unfold resumePDF. rewrite Hv. destruct (parseInt pos) as [p|]; [|now subst k].
      destruct (0 <? p); [|now rewrite Hv; subst k].
      cbn [pdfViewer set_pdfViewer]. unfold PDFViewer.goToPage, PDFViewer.renderPage.
      cbn [PDFViewer.totalPages PDFViewer.pdfDoc].
      destruct ((1 <=? p) && (p <=? n)); now subst k.
    - rewrite Hv. assert (pos = EmptyString) as ->.
      { unfold truthy in Htr. apply negb_false_iff in Htr. now apply String.eqb_eq. }
      now subst k. }
  split; [|split].
  - intros p Hp Hrange. apply Hresume. rewrite Hp.
    replace (0 <? p) with true by (symmetry; apply Z.ltb_lt; lia).
    replace ((1 <=? p) && (p <=? n)) with true; [reflexivity|].
    symmetry. apply andb_true_iff. split; apply Z.leb_le; lia.
  - intros p Hp Hrange. apply Hresume. rewrite Hp.
    destruct (0 <? p); [|reflexivity].
    replace ((1 <=? p) && (p <=? n)) with false; [reflexivity|].
    symmetry. apply andb_false_iff. destruct Hrange; [left | right]; apply Z.leb_gt; lia.
  - intros Hp. apply Hresume. now rewrite Hp.
Qed.

Lemma openBookFromLibrary_resumes_pdf_witness :
  pdfViewer (openBookFromLibrary "/books/manual.pdf" sampleWorld pdfState)
    = Some {| PDFViewer.pdfDoc := true; PDFViewer.currentPage := 5;
              PDFViewer.totalPages := 10 |}.
Proof.
  apply (openBookFromLibrary_resumes_pdf "/books/manual.pdf" "5" sampleWorld pdfState
           pdfEntry 10 (Some "Manual"%string) None eq_refl eq_refl eq_refl eq_refl
           eq_refl eq_refl);
    [reflexivity | lia].
Defined.

(** A locator that is not a page number leaves the PDF on page 1. *)
Example resume_with_epub_locator :
  let stale :=
    {| Entry.id := Entry.id pdfEntry; Entry.path := Entry.path pdfEntry;
       Entry.title := Entry.title pdfEntry; Entry.author := Entry.author pdfEntry;
       Entry.fileType := "pdf"; Entry.coverPath := None;
       Entry.addedDate := Entry.addedDate pdfEntry; Entry.lastOpened := None;
       Entry.lastPosition := Some "epubcfi(/6/4!/4/2)"%string; Entry.progress := PrimFloat.zero |} in
  option_map PDFViewer.currentPage
    (pdfViewer (openBookFromLibrary "/books/manual.pdf" sampleWorld
                  (set_library [stale] sampleState))) = Some 1.
Proof. reflexivity. Qed.

End Resume.

(** ** Debounced saving of the reading position *)

Section Debounce.

Import Js Renderer.

(** A location change on an open book of the library, written out. *)
Lemma onLocationChange_on_book (st : State) (s : Start) (p : string) (b : Entry.t) :
  currentBookPath st = Some p -> truthy p = true ->
  findByPath p (library st) = Some b ->
  exists st0 : State,
    library st0 = library st /\ clock st0 = clock st /\
    currentBookPath st0 = Some p /\
    libraryWrites (calls st0) = libraryWrites (calls st) /\
    onLocationChange (Some {| start := Some s |}) st =
      set_librarySaveTimeout (Some (clock st + quietWindow))
        (set_library
           (updateFirst (fun x => String.eqb (Entry.path x) p) (recordPosition s)
                        (library st))
           st0).
Proof.
  intros Hcur Htruthy Hfind. unfold onLocationChange.
  cbn [currentBookPath library set_currentLocationCfi set_settingsManager saveSettings
       emit set_calls clock].
  rewrite Hcur, Htruthy, Hfind.
  exists (saveSettings
            (set_settingsManager
               (Settings.set "lastLocation" (Settings.VStr (cfi s)) (settingsManager st))
               (set_currentLocationCfi (Some (cfi s)) st))).
  split; [reflexivity|]. split; [reflexivity|]. split; [exact Hcur|].
  split; [|reflexivity].
  cbn [saveSettings emit calls set_calls set_settingsManager set_currentLocationCfi].
  rewrite libraryWrites_app. cbn [libraryWrites]. apply app_nil_r.
Qed.

(** After a location change the timer is set anew, nothing has been
    written, and the entry holds the position of the event. *)
Lemma onLocationChange_arms (st : State) (s : Start) (p : string) :
  currentBookPath st = Some p -> truthy p = true ->
  findByPath p (library st) <> None ->
  let st' := onLocationChange (Some {| start := Some s |}) st in
  armed p (libraryWrites (calls st)) st' /\ clock st' = clock st /\
  holdsPosition p s (library st').
Proof.
  intros Hcur Htruthy Hfind st'.
  destruct (findByPath p (library st)) as [b|] eqn:Hb; [clear Hfind | congruence].
  destruct (onLocationChange_on_book st s p b Hcur Htruthy Hb)
    as (st0 & Hlib & Hclk & Hcur0 & Hw & E).
  subst st'. rewrite E. unfold armed.
  cbn [currentBookPath librarySaveTimeout clock calls library
       set_librarySaveTimeout set_library].
  rewrite Hclk. repeat split; try assumption.
  destruct (find_split _ _ _ Hb) as (before & after & Elib & Hpb & Hn).
  exists (recordPosition s b).
  rewrite Elib, (updateFirst_at _ (recordPosition s) before after b Hn Hpb).
  split; [|split; reflexivity].
  unfold findByPath. apply find_at; [exact Hn | exact Hpb].
Qed.

(** Time that stops short of the deadline changes the clock alone. *)
Lemma elapse_short (dt : Z) (st : State) (deadline : Z) :
  librarySaveTimeout st = Some deadline -> clock st + dt < deadline ->
  elapse dt st = set_clock (clock st + dt) st.
Proof.
  intros Ht Hlt. unfold elapse. cbn [librarySaveTimeout set_clock clock]. rewrite Ht.
  now replace (deadline <=? clock st + dt) with false by (symmetry; apply Z.leb_gt; lia).
Qed.

(** Time that reaches the deadline runs the save, once. *)
Lemma elapse_fires (dt : Z) (st : State) (deadline : Z) :
  librarySaveTimeout st = Some deadline -> deadline <= clock st + dt ->
  elapse dt st = saveLibrary (set_librarySaveTimeout None (set_clock (clock st + dt) st)).
Proof.
  intros Ht Hle. unfold elapse. cbn [librarySaveTimeout set_clock clock]. rewrite Ht.
  now replace (deadline <=? clock st + dt) with true by (symmetry; apply Z.leb_le; lia).
Qed.

Lemma elapse_idle (dt : Z) (st : State) :
  librarySaveTimeout st = None -> elapse dt st = set_clock (clock st + dt) st.
Proof. intros Ht. unfold elapse. cbn [librarySaveTimeout set_clock]. now rewrite Ht. Qed.

Lemma holdsPosition_present (p : string) (s : Start) (lib : list Entry.t) :
  holdsPosition p s lib -> findByPath p lib <> None.
Proof. intros (b & Hb & _). congruence. Qed.

Lemma last_cons_default {A : Type} (x d : A) (l : list A) :
  List.last (x :: l) d = List.last l x.
Proof.
  revert x d. induction l as [|y l IH]; intros x d; [reflexivity|].
  change (List.last (x :: y :: l) d) with (List.last (y :: l) d).
  rewrite !IH. reflexivity.
Qed.

(** The events that follow the first one of a burst keep the timer ahead of
    the clock: nothing is written, and the last position stays in the
    entry. *)
Lemma run_rest_of_burst (p : string) (ws : list (list Entry.t))
  (rest : list (Z * Start)) (st : State) (s : Start) :
  armed p ws st -> holdsPosition p s (library st) ->
  Forall (fun gs => 0 <= fst gs < quietWindow) rest ->
  let st' :=
    run (flat_map (fun gs => [Elapse (fst gs); relocatedAt (snd gs)]) rest) st in
  armed p ws st' /\ holdsPosition p (List.last (map snd rest) s) (library st').
Proof.
  revert st s. induction rest as [|[gap s1] rest IH]; intros st s Harm Hpos Hgaps.
  - simpl. split; assumption.
  - inversion Hgaps as [|? ? Hgap Hgaps']; subst. cbn [fst] in Hgap.
    destruct Harm as (Hcur & Htr & Htimer & Hws).
    cbn [flat_map app run fold_left step fst snd relocatedAt].
    rewrite (elapse_short gap st _ Htimer) by lia.
    set (st1 := set_clock (clock st + gap) st).
    assert (Hcur1 : currentBookPath st1 = Some p) by exact Hcur.
    assert (Hfind1 : findByPath p (library st1) <> None)
      by (apply (holdsPosition_present p s); exact Hpos).
    destruct (onLocationChange_arms st1 s1 p Hcur1 Htr Hfind1) as (Harm2 & _ & Hpos2).
    cbv zeta in Harm2, Hpos2.
    replace (libraryWrites (calls st1)) with ws in Harm2 by (symmetry; exact Hws).
    specialize (IH _ s1 Harm2 Hpos2 Hgaps'). cbv zeta in IH. unfold run in IH.
    destruct IH as [IH1 IH2]. split; [exact IH1|].
    cbn [map snd]. rewrite last_cons_default. exact IH2.
Qed.

(** C5.  A burst of location changes on the open book, each arriving less
    than the quiet window of 2000 ms after the one before: no library
    write happens during the burst; once 2000 ms or more have passed after
    the last event exactly one write has happened, it carries the library
    as the last event left it (the entry holding the locator and progress
    of that event), and no further write follows however long one
    waits. *)
Theorem debounce_coalescing (p : string) (st : State) (first : Start)
  (rest : list (Z * Start)) (dt : Z) :
  currentBookPath st = Some p -> truthy p = true ->
  findByPath p (library st) <> None ->
  Forall (fun gs => 0 <= fst gs < quietWindow) rest ->
  quietWindow <= dt ->
  let st1 := run (burst first rest) st in
  let st2 := elapse dt st1 in
  libraryWrites (calls st1) = libraryWrites (calls st) /\
  libraryWrites (calls st2) = libraryWrites (calls st) ++ [library st1] /\
  library st2 = library st1 /\
  holdsPosition p (finalStart first rest) (library st1) /\
  (forall dt' : Z, 0 <= dt' ->
                   libraryWrites (calls (elapse dt' st2)) = libraryWrites (calls st2)).
Proof.
  intros Hcur Htr Hfind Hgaps Hdt st1 st2.
  destruct (onLocationChange_arms st first p Hcur Htr Hfind) as (Harm & _ & Hpos).
  cbv zeta in Harm, Hpos.
  destruct (run_rest_of_burst p _ rest _ first Harm Hpos Hgaps) as [Harm1 Hpos1].
  change (run _ (onLocationChange _ st)) with st1 in Harm1, Hpos1.
  destruct Harm1 as (Hcur1 & _ & Htimer1 & Hws1).
  assert (E2 : st2 = saveLibrary
                       (set_librarySaveTimeout None (set_clock (clock st1 + dt) st1))).
  { subst st2. apply (elapse_fires dt st1 _ Htimer1). lia. }
  split; [exact Hws1|]. split; [|split; [|split]].
  - rewrite E2. cbn [saveLibrary emit calls set_calls library
                      set_librarySaveTimeout set_clock].
    rewrite libraryWrites_app, Hws1. reflexivity.
  - rewrite E2. reflexivity.
  - exact Hpos1.
  - intros dt' Hdt'. rewrite (elapse_idle dt' st2); [reflexivity|].
    rewrite E2. reflexivity.
Qed.

Lemma debounce_coalescing_witness :
  let s1 := {| cfi := "epubcfi(/6/4!/4/2)"; percentage := Some (Js.ratio 10 100) |} in
  let s2 := {| cfi := "epubcfi(/6/6!/4/2)"; percentage := Some (Js.ratio 20 100) |} in
  let s3 := {| cfi := "epubcfi(/6/8!/4/2)"; percentage := Some (Js.ratio 42 100) |} in
  let st1 := run (burst s1 [(500, s2); (1999, s3)]) sampleState in
  libraryWrites (calls st1) = [] /\
  libraryWrites (calls (elapse 2000 st1)) = [library st1] /\
  holdsPosition "/books/a.epub" s3 (library st1).
Proof.
  intros s1 s2 s3 st1.
  assert (Hgaps : Forall (fun gs : Z * Start => 0 <= fst gs < quietWindow)
                         [(500, s2); (1999, s3)]).
  { repeat constructor; simpl; unfold quietWindow; lia. }
  destruct (debounce_coalescing "/books/a.epub" sampleState s1
              [(500, s2); (1999, s3)] 2000 eq_refl eq_refl
              ltac:(discriminate) Hgaps ltac:(unfold quietWindow; lia))
    as (H1 & H2 & _ & H4 & _).
  split; [exact H1 | split; [exact H2 | exact H4]].
Defined.

(** The same burst with a gap of a full window in the middle is written
    twice, the first write carrying an intermediate position. *)
Example two_bursts_two_writes :
  let s1 := {| cfi := "epubcfi(/6/4!/4/2)"; percentage := Some (Js.ratio 10 100) |} in
  let s2 := {| cfi := "epubcfi(/6/6!/4/2)"; percentage := Some (Js.ratio 20 100) |} in
  let st1 := run [relocatedAt s1; Elapse 2000; relocatedAt s2; Elapse 2000] sampleState in
  map (map Entry.progress) (libraryWrites (calls st1)) = [[Js.ofInteger 10]; [Js.ofInteger 20]].
Proof. reflexivity. Qed.

End Debounce.

(** ** Page navigation of the PDF viewer *)

Section PdfPages.

Import PDFViewer.

(** X1.  The page shown never leaves the document: from a page between 1
    and [totalPages], neither [nextPage], nor [previousPage], nor
    [goToPage] with any argument leads outside that range, and none of
    them changes the page count. *)
Theorem navigation_stays_in_range (v : t) (k : Z) :
  1 <= currentPage v <= totalPages v ->
  (1 <= currentPage (nextPage v) <= totalPages v /\
   totalPages (nextPage v) = totalPages v) /\
  (1 <= currentPage (previousPage v) <= totalPages v /\
   totalPages (previousPage v) = totalPages v) /\
  (1 <= currentPage (goToPage k v) <= totalPages v /\
   totalPages (goToPage k v) = totalPages v).
Proof.
  intros Hr. unfold nextPage, previousPage, goToPage, renderPage.
  destruct (pdfDoc v);
    destruct (currentPage v <? totalPages v) eqn:E1;
    destruct (1 <? currentPage v) eqn:E2;
    destruct ((1 <=? k) && (k <=? totalPages v)) eqn:E3;
    cbn [currentPage totalPages];
    try apply andb_true_iff in E3 as [E3a E3b];
    repeat split; lia.
Qed.

Lemma navigation_stays_in_range_witness :
  1 <= currentPage (goToPage 99 (loadPDF 10 constructor)) <= totalPages (loadPDF 10 constructor).
Proof.
  apply (navigation_stays_in_range (loadPDF 10 constructor) 99). cbn. lia.
Defined.

(** X2.  On a loaded document [nextPage] and [previousPage] undo each
    other away from the ends, and do nothing at the ends: the next page
    of the last page and the previous page of the first page are that
    page. *)
Theorem next_previous_inverse (v : t) :
  pdfDoc v = true -> 1 <= currentPage v <= totalPages v ->
  (currentPage v < totalPages v ->
     currentPage (nextPage v) = currentPage v + 1 /\ previousPage (nextPage v) = v) /\
  (1 < currentPage v ->
     currentPage (previousPage v) = currentPage v - 1 /\ nextPage (previousPage v) = v) /\
  (currentPage v = totalPages v -> nextPage v = v) /\
  (currentPage v = 1 -> previousPage v = v).
Proof.
  destruct v as [doc cur total]. cbn [pdfDoc currentPage totalPages].
  intros -> Hr. unfold nextPage, previousPage, renderPage.
  cbn [pdfDoc currentPage totalPages]. split; [|split; [|split]].
  - intros Hlt. replace (cur <? total) with true by (symmetry; apply Z.ltb_lt; lia).
    cbn [pdfDoc currentPage totalPages]. split; [reflexivity|].
    replace (1 <? cur + 1) with true by (symmetry; apply Z.ltb_lt; lia).
    f_equal. lia.
  - intros Hgt. replace (1 <? cur) with true by (symmetry; apply Z.ltb_lt; lia).
    cbn [pdfDoc currentPage totalPages]. split; [reflexivity|].
    replace (cur - 1 <? total) with true by (symmetry; apply Z.ltb_lt; lia).
    f_equal. lia.
  - intros ->. now rewrite Z.ltb_irrefl.
  - intros ->. now rewrite Z.ltb_irrefl.
Qed.

Lemma next_previous_inverse_witness :
  previousPage (nextPage (loadPDF 10 constructor)) = loadPDF 10 constructor /\
  previousPage (loadPDF 10 constructor) = loadPDF 10 constructor.
Proof.
  assert (Hr : 1 <= currentPage (loadPDF 10 constructor) <= totalPages (loadPDF 10 constructor))
    by (cbn; lia).
  destruct (next_previous_inverse (loadPDF 10 constructor) eq_refl Hr) as (H1 & _ & _ & H4).
  split.
  - apply H1. cbn. lia.
  - apply H4. reflexivity.
Defined.

(** X3.  A viewer that holds no document, be it new or destroyed, ignores
    every navigation call; and [destroy] always leaves such a viewer, on
    page 1 of 0. *)
Theorem navigation_without_document (v : t) (k : Z) :
  (pdfDoc v = false ->
     renderPage k v = v /\ goToPage k v = v /\ nextPage v = v /\ previousPage v = v) /\
  pdfDoc (destroy v) = false /\ currentPage (destroy v) = 1 /\ totalPages (destroy v) = 0 /\
  goToPage k (destroy v) = destroy v.
Proof.
  split.
  - intros H. unfold goToPage, nextPage, previousPage, renderPage. rewrite H.
    repeat split.
    + now destruct ((1 <=? k) && (k <=? totalPages v)).
    + now destruct (currentPage v <? totalPages v).
    + now destruct (1 <? currentPage v).
  - repeat split. unfold goToPage, destroy, renderPage. cbn [totalPages pdfDoc].
    now destruct ((1 <=? k) && (k <=? 0)).
Qed.

Lemma navigation_without_document_witness :
  goToPage 3 constructor = constructor /\ nextPage constructor = constructor.
Proof.
  destruct (navigation_without_document constructor 3) as [H _].
  destruct (H eq_refl) as (_ & H2 & H3 & _). split; [exact H2 | exact H3].
Defined.

End PdfPages.

(** ** Removing a book *)

Section Removing.

Import Js Renderer.

(** X4.  A confirmed removal deletes every entry that carries the given
    [id] (there may be several: two copies of one book share their
    publisher identifier), keeps all other entries in their order, and hands
    the new index to the storage bridge at once; it makes no other call, so
    covers and highlight sets stay on disk, and it leaves the highlights
    in memory alone.  A declined removal changes nothing. *)
Theorem removeBookFromLibrary_removes_id (bookId : string) (st : State) :
  let st' := removeBookFromLibrary bookId true st in
  findById bookId (library st') = None /\
  (forall b : Entry.t,
      In b (library st') <-> In b (library st) /\ Entry.id b <> bookId) /\
  library st' =
    List.filter (fun b => negb (String.eqb (Entry.id b) bookId)) (library st) /\
  calls st' = calls st ++ [SaveLibrary (library st')] /\
  highlights st' = highlights st /\
  removeBookFromLibrary bookId false st = st.
Proof.
  intros st'. subst st'. unfold removeBookFromLibrary.
  cbn [library calls highlights saveLibrary emit set_calls set_library].
  split; [|split; [|repeat split]].
  - unfold findById. destruct (List.find _ _) as [b|] eqn:E; [|reflexivity].
    apply find_some in E as [Hin Hb]. apply filter_In in Hin as [_ Hn].
    rewrite Hb in Hn. discriminate Hn.
  - intros b. rewrite filter_In. split; intros [Hin Hb]; split; try exact Hin.
    + intros E. apply String.eqb_eq in E. now rewrite E in Hb.
    + apply negb_true_iff. now apply String.eqb_neq.
Qed.

End Removing.

(** ** Creating and deleting highlights *)

Section HighlightLife.

Import Js Renderer.

(** X5.  Creating a highlight on a selected range appends it to the set,
    with the clock as its [id] and [created] and with text and note
    trimmed, and hands the whole set to the storage bridge under the
    current book identifier; when no earlier highlight carries that [id],
    deleting it again (and confirming) gives back the set as it was and
    hands that set to the bridge.  With no range selected nothing is
    created or saved. *)
Theorem saveHighlight_then_delete (cfiRange rawText note color : string) (st : State) :
  truthy cfiRange = true ->
  let st1 := Annotations.saveHighlightFrom (Some cfiRange) (Some rawText) note color st in
  let st2 := deleteHighlight (Date_now st) true st1 in
  (exists h : Highlight.t,
      highlights st1 = highlights st ++ [h] /\
      Highlight.id h = Date_now st /\ Highlight.created h = clock st /\
      Highlight.cfiRange h = cfiRange /\ Highlight.text h = Annotations.trim rawText /\
      Highlight.color h = color /\ Highlight.note h = Annotations.trim note) /\
  calls st1 = calls st ++ [SaveHighlights (bookIdentifier st) (highlights st1)] /\
  (~ In (Date_now st) (highlightIds (highlights st)) ->
     highlights st2 = highlights st /\
     calls st2 = calls st1 ++ [SaveHighlights (bookIdentifier st) (highlights st)]) /\
  Annotations.saveHighlightFrom None (Some rawText) note color st = st /\
  Annotations.saveHighlightFrom (Some EmptyString) (Some rawText) note color st = st.
Proof.
  intros Htr st1 st2. subst st1 st2.
  unfold Annotations.saveHighlightFrom. cbn [truthy_opt default from_option id].
  rewrite Htr. unfold saveHighlight, deleteHighlight, saveHighlightsToFile.
  cbn [highlights calls bookIdentifier emit set_calls set_highlights].
  split; [|split; [reflexivity|split; [|split; reflexivity]]].
  - eexists. split; [reflexivity|]. repeat split.
  - intros Hfresh. rewrite List.filter_app. cbn [List.filter Highlight.id].
    rewrite String.eqb_refl. cbn [negb]. rewrite app_nil_r.
    fold (keeps (Date_now st)). rewrite (filter_absent _ _ Hfresh). split; reflexivity.
Qed.

Lemma saveHighlight_then_delete_witness :
  highlights
    (deleteHighlight (Date_now sampleState) true
       (Annotations.saveHighlightFrom (Some "epubcfi(/6/4!/4/2,/1:0,/1:10)"%string)
          (Some " call me "%string) "" "yellow" sampleState))
    = [].
Proof.
  apply (saveHighlight_then_delete "epubcfi(/6/4!/4/2,/1:0,/1:10)" " call me " "" "yellow"
           sampleState eq_refl).
  simpl. tauto.
Defined.

(** X6.  The [id] of a highlight is the clock reading in milliseconds, so
    two highlights created within the same millisecond share it, and one
    confirmed delete by that [id] removes both. *)
Theorem highlights_of_one_millisecond (c1 t1 n1 k1 c2 t2 n2 k2 : string) (st : State) :
  truthy c1 = true -> truthy c2 = true ->
  let st2 :=
    Annotations.saveHighlightFrom (Some c2) (Some t2) n2 k2
      (Annotations.saveHighlightFrom (Some c1) (Some t1) n1 k1 st) in
  map Highlight.id (skipn (length (highlights st)) (highlights st2))
    = [Date_now st; Date_now st] /\
  highlights (deleteHighlight (Date_now st) true st2)
    = List.filter (keeps (Date_now st)) (highlights st).
Proof.
  intros H1 H2 st2. subst st2.
  unfold Annotations.saveHighlightFrom. cbn [truthy_opt default from_option id].
  rewrite H1, H2. unfold saveHighlight, deleteHighlight, saveHighlightsToFile.
  cbn [highlights calls bookIdentifier emit set_calls set_highlights clock].
  unfold Date_now. cbn [clock set_highlights set_calls]. split.
  - rewrite <- app_assoc. rewrite skipn_app, skipn_all.
    replace (length (highlights st) - length (highlights st))%nat with 0%nat by lia.
    reflexivity.
  - rewrite !List.filter_app. cbn [List.filter Highlight.id].
    rewrite !String.eqb_refl. cbn [negb]. now rewrite !app_nil_r.
Qed.

Lemma highlights_of_one_millisecond_witness :
  highlights
    (deleteHighlight (Date_now sampleState) true
       (Annotations.saveHighlightFrom (Some "epubcfi(/6/6)"%string) (Some "b"%string) "" "green"
          (Annotations.saveHighlightFrom (Some "epubcfi(/6/4)"%string) (Some "a"%string) ""
             "yellow" sampleState)))
    = [].
Proof.
  apply (highlights_of_one_millisecond "epubcfi(/6/4)" "a" "" "yellow"
           "epubcfi(/6/6)" "b" "" "green" sampleState eq_refl eq_refl).
Defined.

End HighlightLife.

(** ** What opening a book hands to the storage bridge *)

Section Opening.

Import Js Renderer.

Lemma loadEPUB_libraryWrites (filePath : string) (w : World) (st : State) :
  libraryWrites (calls (loadEPUB filePath w st)) = libraryWrites (calls st).
Proof.
  unfold loadEPUB, loadEPUB_read, loadEPUB_failed, alert, saveSettings, loadHighlights.
  destruct (files w filePath) as [| | | d |];
    try (cbn [calls set_rendition]; rewrite libraryWrites_emit;
         cbn [calls set_rendition set_pdfViewer]; now rewrite app_nil_r).
  destruct (displays d).
  - rewrite libraryWrites_emit. rewrite app_nil_r.
    unfold generateBookIdentifier.
    destruct (metadata d) as [m|]; [destruct (truthy_opt (identifier m))|]; reflexivity.
  - cbn [calls set_rendition]. rewrite libraryWrites_emit.
    cbn [calls set_rendition set_pdfViewer]. now rewrite app_nil_r.
Qed.

(** Opening a book whose path is in the library writes no library. *)
Lemma loadBook_libraryWrites_present (filePath : string) (w : World) (st : State)
  (e : Entry.t) :
  findByPath filePath (library st) = Some e ->
  libraryWrites (calls (loadBook filePath w st)) = libraryWrites (calls st).
Proof.
  intros Hf. unfold loadBook, loadBook_after, loadBook_failed. destruct (dispatch filePath) eqn:Hd.
  - apply dispatch_pdf_truthy in Hd. unfold loadPDF, loadPDF_view, loadPDF_read, loadPDF_failed.
    destruct (_ && _); [|destruct (pdfSupport w)];
      try (destruct (files w filePath));
      try (unfold alert, emit;
           cbn [calls set_pdfViewer set_rendition set_currentBookPath set_calls
                set_pdfLibrariesLoaded];
           rewrite ?libraryWrites_app; cbn [libraryWrites]; now rewrite ?app_nil_r);
      (unfold addBookToLibrary_from_loader;
       erewrite addBookToLibrary_with_present with (filePath := filePath) (e := e);
       [ cbn [truthy_opt]; rewrite Hd; reflexivity
       | unfold chosenPath; cbn [truthy_opt]; now rewrite Hd
       | exact Hf ]).
  - now rewrite loadEPUB_libraryWrites.
  - unfold alert. rewrite libraryWrites_emit. cbn [calls set_currentBookPath].
    now rewrite app_nil_r.
Qed.

Lemma findByPath_head (e : Entry.t) (lib : list Entry.t) :
  findByPath (Entry.path e) (e :: lib) = Some e.
Proof. unfold findByPath. cbn [List.find]. now rewrite String.eqb_refl. Qed.

(** What the add does once the entry is built. *)
Lemma finish_add (filePathArg : option string) (w : World) (e : Entry.t) (s : State) :
  let s1 := saveLibrary (set_library (e :: library s) s) in
  let st' := if truthy_opt filePathArg then s1 else loadBook (Entry.path e) w s1 in
  library st' = e :: library s /\
  libraryWrites (calls st') = libraryWrites (calls s) ++ [e :: library s].
Proof.
  intros s1 st'.
  assert (H1 : library s1 = e :: library s) by reflexivity.
  assert (H2 : libraryWrites (calls s1) = libraryWrites (calls s) ++ [e :: library s]).
  { subst s1. unfold saveLibrary. now rewrite libraryWrites_emit. }
  subst st'. destruct (truthy_opt filePathArg); [split; assumption|].
  assert (Hf : findByPath (Entry.path e) (library s1) = Some e)
    by (rewrite H1; apply findByPath_head).
  rewrite (loadBook_library_present _ w s1 e Hf),
          (loadBook_libraryWrites_present _ w s1 e Hf).
  split; assumption.
Qed.

(** X7.  Adding an EPUB whose path is not in the library and whose
    metadata the engine reads puts one entry at the head of the index and
    keeps the older entries in order.  The entry has the path, the title
    and author from the arguments or else the metadata or else "Unknown
    Title" and "Unknown Author", the publisher identifier as [id] when
    there is one and the slug with the clock appended otherwise, progress
    0 and neither position nor opening date; the new index is handed to
    the storage bridge once.  This holds whether the path came as an
    argument or from the dialog. *)
Theorem addBookToLibrary_new_epub
  (filePathArg titleArg authorArg fileTypeArg : option string) (w : World) (st : State)
  (filePath : string) (d : EpubDoc) (m : EpubMetadata) :
  chosenPath filePathArg w = Some filePath ->
  findByPath filePath (library st) = None ->
  or_else fileTypeArg (classifyFileType filePath) <> "pdf"%string ->
  files w filePath = EpubDocument d -> metadata d = Some m ->
  let st' := addBookToLibrary filePathArg titleArg authorArg fileTypeArg w st in
  let title := or_else (or_opt titleArg (md_title m)) "Unknown Title" in
  let author := or_else (or_opt authorArg (creator m)) "Unknown Author" in
  let bookId := or_else (identifier m) (slugOf title author +:+ "-" +:+ Date_now st) in
  library st' =
    {| Entry.id := bookId; Entry.path := filePath; Entry.title := title;
       Entry.author := author;
       Entry.fileType := or_else fileTypeArg (classifyFileType filePath);
       Entry.coverPath := if hasCover d then Some (coverFile bookId) else None;
       Entry.addedDate := clock st; Entry.lastOpened := None;
       Entry.lastPosition := None; Entry.progress := PrimFloat.zero |} :: library st /\
  libraryWrites (calls st') = libraryWrites (calls st) ++ [library st'].
Proof.
  intros Hc Hf Hty Hfile Hmd st' title author bookId. subst st'.
  unfold addBookToLibrary, addBookToLibrary_with, libraryEntryFor, addBookToLibrary_failed. cbv zeta.
  rewrite Hc, Hf, Hfile, Hmd. apply String.eqb_neq in Hty. rewrite Hty.
  fold title. fold author. fold bookId.
  match goal with
  | |- context [saveLibrary (set_library (?e :: library ?s) ?s)] =>
      destruct (finish_add filePathArg w e s) as [H1 H2]
  end.
  cbv zeta in H1, H2. cbn [Entry.path] in H1, H2.
  rewrite H1, H2.
  destruct (hasCover d); cbn [library calls emit set_calls];
    rewrite ?libraryWrites_app; cbn [libraryWrites]; rewrite ?app_nil_r;
    split; reflexivity.
Qed.

Lemma addBookToLibrary_new_epub_witness :
  library (addBookToLibrary None None None None sampleWorld emptyState) = [sampleEntry].
Proof.
  apply (addBookToLibrary_new_epub None None None None sampleWorld emptyState
           "/books/a.epub"
           {| metadata :=
                Some {| md_title := Some "Foo"%string; creator := Some "Bar"%string;
                        identifier := Some "isbn123"%string |};
              hasCover := false; displays := true; accepts := fun _ => true |}
           {| md_title := Some "Foo"%string; creator := Some "Bar"%string;
              identifier := Some "isbn123"%string |}
           eq_refl eq_refl);
    [vm_compute; discriminate | reflexivity | reflexivity].
Defined.

(** X8.  An add that cannot read the chosen file as the kind of document
    its file type asks for changes nothing but for one alert: the library
    is as before, nothing is handed to the storage bridge, and the book is
    not opened, also when the path came from the dialog. *)
Theorem addBookToLibrary_unreadable
  (filePathArg titleArg authorArg fileTypeArg : option string) (w : World) (st : State)
  (filePath : string) :
  chosenPath filePathArg w = Some filePath ->
  findByPath filePath (library st) = None ->
  (files w filePath = Unreadable \/ files w filePath = EmptyFile \/
   files w filePath = OtherBytes \/
   (exists d, files w filePath = EpubDocument d /\
              (or_else fileTypeArg (classifyFileType filePath) = "pdf"%string \/
               metadata d = None)) \/
   (exists n t a, files w filePath = PdfDocument n t a /\
                  or_else fileTypeArg (classifyFileType filePath) <> "pdf"%string)) ->
  addBookToLibrary filePathArg titleArg authorArg fileTypeArg w st
    = alert "Failed to add book to library. Please try again." st.
Proof.
  intros Hc Hf Hfile. unfold addBookToLibrary, addBookToLibrary_with, libraryEntryFor, addBookToLibrary_failed. cbv zeta.
  rewrite Hc, Hf.
  destruct Hfile as [E|[E|[E|[(d & E & Hd)|(n & t & a & E & Hty)]]]]; rewrite E.
  - now destruct (String.eqb _ "pdf").
  - now destruct (String.eqb _ "pdf").
  - now destruct (String.eqb _ "pdf").
  - destruct Hd as [Hty|Hmd].
    + now rewrite Hty.
    + rewrite Hmd. now destruct (String.eqb _ "pdf").
  - apply String.eqb_neq in Hty. now rewrite Hty.
Qed.

Lemma addBookToLibrary_unreadable_witness :
  library (addBookToLibrary (Some "/books/missing.epub"%string) None None None
             emptyWorld sampleState) = [sampleEntry].
Proof.
  rewrite (addBookToLibrary_unreadable (Some "/books/missing.epub"%string) None None None
             emptyWorld sampleState "/books/missing.epub" eq_refl eq_refl);
    [reflexivity | left; reflexivity].
Defined.

(** X9.  Opening a book from the library stamps the first entry of that
    path with the clock as [lastOpened], leaves every other field and
    entry as it is, and hands the index to the storage bridge at once and
    once only, before the file is read: the stamp is made and saved also
    when the file then fails to load. *)
Theorem openBookFromLibrary_stamps (bookPath : string) (w : World) (st : State)
  (b : Entry.t) :
  findByPath bookPath (library st) = Some b ->
  let st' := openBookFromLibrary bookPath w st in
  (exists before after : list Entry.t,
      library st = before ++ b :: after /\
      library st' = before ++ touchEntry (clock st) b :: after) /\
  findByPath bookPath (library st') = Some (touchEntry (clock st) b) /\
  libraryWrites (calls st') = libraryWrites (calls st) ++ [library st'].
Proof.
  intros Hfind st'.
  destruct (find_split _ _ _ Hfind) as (before & after & Elib & Hb & Hn).
  set (lib1 := before ++ touchEntry (clock st) b :: after).
  set (st1 := saveLibrary
                (set_library
                   (updateFirst (fun x => String.eqb (Entry.path x) bookPath)
                                (touchEntry (clock st)) (library st)) st)).
  assert (Hlib1 : library st1 = lib1).
  { subst st1 lib1. cbn [library saveLibrary emit set_calls set_library].
    rewrite Elib. now apply updateFirst_at. }
  assert (Hf1 : findByPath bookPath (library st1) = Some (touchEntry (clock st) b)).
  { rewrite Hlib1. unfold findByPath, lib1. apply find_at; [exact Hn | exact Hb]. }
  assert (Hw1 : libraryWrites (calls st1) = libraryWrites (calls st) ++ [lib1]).
  { rewrite <- Hlib1. subst st1. unfold saveLibrary. now rewrite libraryWrites_emit. }
  assert (Hshape : library st' = library (loadBook bookPath w st1) /\
                   calls st' = calls (loadBook bookPath w st1)).
  { subst st'. unfold openBookFromLibrary. cbv zeta. rewrite Hfind. fold st1.
    destruct (_ && _ && present (rendition _)).
    - unfold resumeEPUB. destruct (rendition _) as [r|]; [|split; reflexivity].
      destruct (display _ r); split; reflexivity.
    - destruct (_ && _ && present (pdfViewer _)); [|split; reflexivity].
      unfold resumePDF. destruct (pdfViewer _) as [v|]; [|split; reflexivity].
      destruct (parseInt _) as [k|]; [|split; reflexivity].
      destruct (0 <? k); split; reflexivity. }
  destruct Hshape as [Hl Hc]. rewrite Hl, Hc.
  rewrite (loadBook_library_present _ w st1 _ Hf1),
          (loadBook_libraryWrites_present _ w st1 _ Hf1), Hlib1, Hw1.
  split; [|split; [|reflexivity]].
  - exists before, after. split; [exact Elib | reflexivity].
  - rewrite <- Hlib1. exact Hf1.
Qed.

Lemma openBookFromLibrary_stamps_witness :
  findByPath "/books/a.epub"
    (library (openBookFromLibrary "/books/a.epub" emptyWorld sampleState))
    = Some (touchEntry (clock sampleState) sampleEntry).
Proof.
  apply (openBookFromLibrary_stamps "/books/a.epub" emptyWorld sampleState sampleEntry
           eq_refl).
Defined.

End Opening.

(** ** Resuming an EPUB, and what location changes record *)

Section Positions.

Import Js Renderer.

Lemma loadBook_epub_rendition (filePath : string) (w : World) (st : State) (d : EpubDoc) :
  dispatch filePath = ToEPUB -> files w filePath = EpubDocument d -> displays d = true ->
  rendition (loadBook filePath w st) = Some {| shown := None; navigable := accepts d |} /\
  pdfViewer (loadBook filePath w st) = None.
Proof.
  intros Hd Hf Hdisp. unfold loadBook, loadBook_after, loadBook_failed, loadEPUB, loadEPUB_read, loadEPUB_failed. rewrite Hd.
  cbn [files set_currentBookPath]. rewrite Hf, Hdisp.
  unfold generateBookIdentifier.
  destruct (metadata d) as [m|]; [destruct (truthy_opt (identifier m))|];
    split; reflexivity.
Qed.

(** X10.  Resuming an EPUB entry that holds a position: when the document
    accepts the locator the rendition shows it; when it does not (a stale
    locator) the failure is swallowed and the outcome is, call for call and
    field for field, that of opening the book with no position replayed:
    the book is shown from its start and no message is raised. *)
Theorem openBookFromLibrary_resumes_epub (bookPath pos : string) (w : World) (st : State)
  (b : Entry.t) (d : EpubDoc) :
  findByPath bookPath (library st) = Some b ->
  Entry.fileType b = "epub"%string -> Entry.lastPosition b = Some pos ->
  truthy pos = true ->
  dispatch bookPath = ToEPUB -> files w bookPath = EpubDocument d -> displays d = true ->
  let st1 :=
    saveLibrary
      (set_library
         (updateFirst (fun x => String.eqb (Entry.path x) bookPath)
                      (touchEntry (clock st)) (library st)) st) in
  let st' := openBookFromLibrary bookPath w st in
  (accepts d pos = true ->
     rendition st' = Some {| shown := Some pos; navigable := accepts d |} /\
     calls st' = calls (loadBook bookPath w st1)) /\
  (accepts d pos = false ->
     st' = loadBook bookPath w st1 /\
     rendition st' = Some {| shown := None; navigable := accepts d |}).
Proof.
  intros Hfind Hty Hpos Htr Hd Hf Hdisp st1 st'. subst st'.
  unfold openBookFromLibrary. cbv zeta. rewrite Hfind, Hty, Hpos. fold st1.
  destruct (loadBook_epub_rendition bookPath w st1 d Hd Hf Hdisp) as [Hr Hv].
  rewrite Hr. cbn [present truthy_opt default from_option id]. rewrite Htr.
  cbn [andb String.eqb Ascii.eqb Bool.eqb]. unfold resumeEPUB. rewrite Hr.
  unfold display. cbn [navigable].
  split; intros Hacc; rewrite Hacc.
  - split; reflexivity.
  - split; [reflexivity | exact Hr].
Qed.

Lemma openBookFromLibrary_resumes_epub_witness :
  let b := recordPosition {| cfi := "epubcfi(/6/4!/4/2)"; percentage := Some (Js.ratio 1 2) |}
             sampleEntry in
  option_map shown
    (rendition (openBookFromLibrary "/books/a.epub" sampleWorld (set_library [b] sampleState)))
    = Some (Some "epubcfi(/6/4!/4/2)"%string).
Proof.
  intros b.
  destruct (openBookFromLibrary_resumes_epub "/books/a.epub" "epubcfi(/6/4!/4/2)"
              sampleWorld (set_library [b] sampleState) b
              {| metadata :=
                   Some {| md_title := Some "Foo"%string; creator := Some "Bar"%string;
                           identifier := Some "isbn123"%string |};
                 hasCover := false; displays := true; accepts := fun _ => true |}
              eq_refl eq_refl eq_refl eq_refl eq_refl eq_refl eq_refl) as [H _].
  destruct (H eq_refl) as [Hr _]. rewrite Hr. reflexivity.
Defined.

(** X11.  Every location change that carries a position stores its
    locator as the setting [lastLocation] and hands the settings to the
    storage bridge at once, one call for each event and whatever the
    library holds; only the library save is delayed.  When the open book
    is not in the library the library and the save timer are left alone.
    An event without a position changes nothing at all. *)
Theorem onLocationChange_saves_settings (st : State) (s : Start) :
  let st' := onLocationChange (Some {| start := Some s |}) st in
  Settings.get "lastLocation" (settingsManager st') = Some (Settings.VStr (cfi s)) /\
  (forall k : string, k <> "lastLocation"%string ->
      Settings.get k (settingsManager st') = Settings.get k (settingsManager st)) /\
  currentLocationCfi st' = Some (cfi s) /\
  calls st' = calls st ++ [SaveSettings (Settings.settings (settingsManager st'))] /\
  (match currentBookPath st with
   | Some p => findByPath p (library st) = None
   | None => True
   end ->
   library st' = library st /\ librarySaveTimeout st' = librarySaveTimeout st) /\
  onLocationChange None st = st /\
  onLocationChange (Some {| start := None |}) st = st.
Proof.
  intros st'.
  set (st2 := saveSettings
                (set_settingsManager
                   (Settings.set "lastLocation" (Settings.VStr (cfi s)) (settingsManager st))
                   (set_currentLocationCfi (Some (cfi s)) st))).
  assert (Hshape :
            settingsManager st' = settingsManager st2 /\
            currentLocationCfi st' = currentLocationCfi st2 /\
            calls st' = calls st2 /\
            (match currentBookPath st with
             | Some p => findByPath p (library st) = None
             | None => True
             end ->
             library st' = library st /\ librarySaveTimeout st' = librarySaveTimeout st)).
  { subst st' st2. unfold onLocationChange.
    cbn [currentBookPath library set_currentLocationCfi set_settingsManager saveSettings
         emit set_calls clock settingsManager].
    destruct (currentBookPath st) as [p|]; [|now repeat split].
    destruct (truthy p); [|now repeat split].
    destruct (findByPath p (library st)) as [e|]; [|now repeat split].
    split; [reflexivity | split; [reflexivity | split; [reflexivity|]]].
    intros Habs. discriminate Habs. }
  destruct Hshape as (Hs & Hc & Hcalls & Hlib).
  rewrite Hs, Hc, Hcalls. subst st2.
  cbn [settingsManager currentLocationCfi calls saveSettings emit set_calls
       set_settingsManager set_currentLocationCfi].
  unfold Settings.get, Settings.set. cbn [Settings.settings].
  split; [apply lookup_insert_eq|].
  split; [intros k Hk; now apply lookup_insert_ne|].
  split; [reflexivity|]. split; [reflexivity|]. split; [exact Hlib|].
  split; reflexivity.
Qed.

Lemma run_app (evs1 evs2 : list Event) (st : State) :
  run (evs1 ++ evs2) st = run evs2 (run evs1 st).
Proof. unfold run. apply fold_left_app. Qed.

(** For a book that is not in the library no event touches the library or
    starts a save. *)
Lemma run_outside_library (p : string) (evs : list Event) (st : State) :
  currentBookPath st = Some p -> findByPath p (library st) = None ->
  librarySaveTimeout st = None ->
  let st' := run evs st in
  library st' = library st /\ libraryWrites (calls st') = libraryWrites (calls st) /\
  librarySaveTimeout st' = None /\ currentBookPath st' = Some p.
Proof.
  revert st. induction evs as [|ev evs IH]; intros st Hcur Hf Ht; [now repeat split|].
  cbn [run fold_left]. fold (run evs (step st ev)).
  assert (Hstep : library (step st ev) = library st /\
                  libraryWrites (calls (step st ev)) = libraryWrites (calls st) /\
                  librarySaveTimeout (step st ev) = None /\
                  currentBookPath (step st ev) = Some p).
  { destruct ev as [[[[s|]]|]|dt]; cbn [step]; try (now repeat split).
    - unfold onLocationChange.
      cbn [currentBookPath library set_currentLocationCfi set_settingsManager
           saveSettings emit set_calls].
      rewrite Hcur, Hf. destruct (truthy p);
        cbn [library calls librarySaveTimeout currentBookPath set_calls
             set_settingsManager set_currentLocationCfi emit saveSettings];
        rewrite libraryWrites_app; cbn [libraryWrites]; rewrite app_nil_r;
        now repeat split.
    - rewrite elapse_idle by exact Ht. now repeat split. }
  destruct Hstep as (H1 & H2 & H3 & H4).
  destruct (IH (step st ev) H4 ltac:(now rewrite H1) H3) as (I1 & I2 & I3 & I4).
  cbv zeta. rewrite I1, I2, H1, H2. now repeat split.
Qed.

(** X12.  An EPUB opened by its path alone (from the menu or the file
    dialog of the reader) is not added to the library, and so nothing of
    the reading that follows is recorded: whatever positions the engine
    reports and however long one waits, the library stays as it was and no
    library save is made. *)
Theorem epub_outside_library_not_recorded (filePath : string) (w : World) (st : State)
  (evs : list Event) :
  dispatch filePath = ToEPUB -> findByPath filePath (library st) = None ->
  librarySaveTimeout st = None ->
  let st' := run evs (loadBook filePath w st) in
  library st' = library st /\ libraryWrites (calls st') = libraryWrites (calls st).
Proof.
  intros Hd Hf Ht st'.
  assert (H0 : library (loadBook filePath w st) = library st /\
               libraryWrites (calls (loadBook filePath w st)) = libraryWrites (calls st) /\
               librarySaveTimeout (loadBook filePath w st) = None /\
               currentBookPath (loadBook filePath w st) = Some filePath).
  { unfold loadBook, loadBook_after, loadBook_failed. rewrite Hd. rewrite loadEPUB_library, loadEPUB_libraryWrites.
    split; [reflexivity | split; [reflexivity|]].
    unfold loadEPUB, loadEPUB_read, loadEPUB_failed. destruct (files w filePath) as [| | | d |];
      try (split; [exact Ht | reflexivity]).
    destruct (displays d); [|split; [exact Ht | reflexivity]].
    unfold generateBookIdentifier.
    destruct (metadata d) as [m|]; [destruct (truthy_opt (identifier m))|];
      (split; [exact Ht | reflexivity]). }
  destruct H0 as (H1 & H2 & H3 & H4).
  destruct (run_outside_library filePath evs (loadBook filePath w st) H4
              ltac:(now rewrite H1) H3) as (I1 & I2 & _).
  subst st'. cbv zeta in I1, I2. rewrite I1, I2, H1, H2. split; reflexivity.
Qed.

Lemma epub_outside_library_not_recorded_witness :
  library
    (run [relocatedAt {| cfi := "epubcfi(/6/4!/4/2)"; percentage := Some (Js.ratio 1 2) |};
          Elapse 5000]
         (loadBook "/books/a.epub" sampleWorld emptyState)) = [].
Proof.
  apply (epub_outside_library_not_recorded "/books/a.epub" sampleWorld emptyState
           [relocatedAt {| cfi := "epubcfi(/6/4!/4/2)"; percentage := Some (Js.ratio 1 2) |};
            Elapse 5000] eq_refl eq_refl eq_refl).
Defined.

End Positions.

(** ** Leaving the reader, and the engines in use *)

Section Leaving.

Import Js Renderer Reader.

(** X13.  Going back to the library does not cancel the pending save: a
    burst of location changes, then [backToLibrary] before the quiet
    window has passed, still leads to exactly one library write once the
    window has passed, and that write carries the position of the last
    event.  Going back destroys the rendition and empties the highlights
    in memory; it writes nothing itself. *)
Theorem backToLibrary_keeps_pending_save (p : string) (st : State) (first : Start)
  (rest : list (Z * Start)) (dt : Z) :
  currentBookPath st = Some p -> truthy p = true ->
  findByPath p (library st) <> None ->
  Forall (fun gs => 0 <= fst gs < quietWindow) rest ->
  quietWindow <= dt ->
  let st1 := backToLibrary (run (burst first rest) st) in
  let st2 := elapse dt st1 in
  rendition st1 = None /\ highlights st1 = [] /\
  calls st1 = calls (run (burst first rest) st) /\
  libraryWrites (calls st1) = libraryWrites (calls st) /\
  libraryWrites (calls st2) = libraryWrites (calls st) ++ [library st2] /\
  holdsPosition p (finalStart first rest) (library st2).
Proof.
  intros Hcur Htr Hfind Hgaps Hdt st1 st2.
  destruct (onLocationChange_arms st first p Hcur Htr Hfind) as (Harm & _ & Hpos).
  cbv zeta in Harm, Hpos.
  destruct (run_rest_of_burst p _ rest _ first Harm Hpos Hgaps) as [Harm1 Hpos1].
  set (st0 := run (burst first rest) st).
  change (run _ (onLocationChange _ st)) with st0 in Harm1, Hpos1.
  destruct Harm1 as (_ & _ & Htimer & Hws).
  assert (Hsame : library st1 = library st0 /\ calls st1 = calls st0 /\
                  librarySaveTimeout st1 = librarySaveTimeout st0 /\
                  clock st1 = clock st0 /\ rendition st1 = None /\ highlights st1 = []).
  { subst st1. fold st0. unfold backToLibrary.
    destruct (rendition st0) eqn:Hr; cbn [present]; repeat split. exact Hr. }
  destruct Hsame as (Hl & Hc & Ht & Hclk & Hr & Hh).
  assert (E2 : st2 = saveLibrary
                       (set_librarySaveTimeout None (set_clock (clock st1 + dt) st1))).
  { subst st2. apply (elapse_fires dt st1 (clock st0 + quietWindow)).
    - now rewrite Ht.
    - rewrite Hclk. lia. }
  split; [exact Hr|]. split; [exact Hh|]. split; [exact Hc|].
  split; [now rewrite Hc|].
  assert (Hl2 : library st2 = library st0) by (rewrite E2; exact Hl).
  split.
  - rewrite Hl2. rewrite E2.
    cbn [saveLibrary emit calls set_calls library set_librarySaveTimeout set_clock].
    rewrite libraryWrites_app, Hc, Hws, Hl. reflexivity.
  - rewrite Hl2. exact Hpos1.
Qed.

Lemma backToLibrary_keeps_pending_save_witness :
  let s1 := {| cfi := "epubcfi(/6/4!/4/2)"; percentage := Some (Js.ratio 10 100) |} in
  let s2 := {| cfi := "epubcfi(/6/8!/4/2)"; percentage := Some (Js.ratio 42 100) |} in
  let st2 := elapse 2000 (backToLibrary (run (burst s1 [(700, s2)]) sampleState)) in
  libraryWrites (calls st2) = [library st2] /\
  holdsPosition "/books/a.epub" s2 (library st2).
Proof.
  intros s1 s2 st2.
  assert (Hgaps : Forall (fun gs : Z * Start => 0 <= fst gs < quietWindow) [(700, s2)]).
  { repeat constructor; simpl; unfold quietWindow; lia. }
  destruct (backToLibrary_keeps_pending_save "/books/a.epub" sampleState s1 [(700, s2)]
              2000 eq_refl eq_refl ltac:(discriminate) Hgaps
              ltac:(unfold quietWindow; lia))
    as (_ & _ & _ & _ & H5 & H6).
  split; [exact H5 | exact H6].
Defined.

(** What an add is made of: a state with the same engines, and then
    perhaps the opening of the book. *)
Lemma addBookToLibrary_with_engines (openBook : string -> State -> State)
  (filePathArg titleArg authorArg fileTypeArg : option string) (w : World) (st : State) :
  exists s : State,
    rendition s = rendition st /\ pdfViewer s = pdfViewer st /\
    (addBookToLibrary_with openBook filePathArg titleArg authorArg fileTypeArg w st = s \/
     exists p, addBookToLibrary_with openBook filePathArg titleArg authorArg fileTypeArg w st
               = openBook p s).
Proof.
  unfold addBookToLibrary_with, libraryEntryFor, addBookToLibrary_failed. cbv zeta.
  assert (Hst : forall X : State,
             X = st \/ (exists p, X = openBook p st) ->
             exists s : State,
               rendition s = rendition st /\ pdfViewer s = pdfViewer st /\
               (X = s \/ exists p, X = openBook p s)).
  { intros X HX. exists st. auto. }
  destruct (chosenPath filePathArg w) as [filePath|]; [|apply Hst; auto].
  destruct (findByPath filePath (library st)).
  { destruct (truthy_opt filePathArg); apply Hst; eauto. }
  destruct (String.eqb _ "pdf").
  - destruct (files w filePath);
      try (eexists; split; [|split]; [| |left; reflexivity]; reflexivity).
    destruct (pdfViewerLoaded st); cbn [negb];
      [|eexists; split; [|split]; [| |left; reflexivity]; reflexivity].
    destruct (truthy_opt filePathArg); eexists; (split; [|split]);
      [| |left; reflexivity| | |right; eexists; reflexivity]; reflexivity.
  - destruct (files w filePath) as [| | | d |];
      try (eexists; split; [|split]; [| |left; reflexivity]; reflexivity).
    destruct (metadata d);
      [|eexists; split; [|split]; [| |left; reflexivity]; reflexivity].
    destruct (truthy_opt filePathArg), (hasCover d);
      (eexists; split; [|split];
       [| |first [right; eexists; reflexivity | left; reflexivity]]; reflexivity).
Qed.

(** A load of a PDF run on its own ends with no rendition, a load of an
    EPUB with no PDF viewer. *)
Lemma loadBook_pdf_rendition (filePath : string) (w : World) (st : State) :
  dispatch filePath = ToPDF -> rendition (loadBook filePath w st) = None.
Proof.
  intros Hd. unfold loadBook, loadBook_after, loadBook_failed. rewrite Hd.
  unfold loadPDF, loadPDF_view, loadPDF_read, loadPDF_failed.
  destruct (_ && _); [|destruct (pdfSupport w); [|reflexivity]];
    (destruct (files w filePath); try reflexivity;
     match goal with
     | |- context [addBookToLibrary_from_loader ?fp ?ti ?au ?ft ?w0 ?s] =>
         destruct (addBookToLibrary_from_loader_viewers fp ti au ft w0 s) as [_ Hr]
     end;
     cbv zeta in Hr; cbv beta iota; rewrite Hr; reflexivity).
Qed.

Lemma loadBook_epub_pdfViewer (filePath : string) (w : World) (st : State) :
  dispatch filePath = ToEPUB -> pdfViewer (loadBook filePath w st) = None.
Proof.
  intros Hd. unfold loadBook. rewrite Hd. unfold loadEPUB, loadEPUB_read, loadEPUB_failed.
  destruct (files w filePath) as [| | | d |]; try reflexivity.
  destruct (displays d); [|reflexivity].
  unfold generateBookIdentifier.
  destruct (metadata d) as [m|]; [destruct (truthy_opt (identifier m))|]; reflexivity.
Qed.

Lemma loadBook_oneEngine (filePath : string) (w : World) (st : State) :
  oneEngine st -> oneEngine (loadBook filePath w st).
Proof.
  intros Hst. unfold oneEngine. destruct (dispatch filePath) eqn:Hd.
  - left. now apply loadBook_pdf_rendition.
  - right. now apply loadBook_epub_pdfViewer.
  - unfold loadBook. rewrite Hd. exact Hst.
Qed.

(** Each operation run from start to end on its own keeps at most one
    engine holding a document: opening a path, opening a book of the
    library, an add, going back to the library.  A load of a PDF run on
    its own ends with no rendition, a load of an EPUB with no PDF viewer,
    whether the load succeeds or fails.  Loads that overlap are taken up
    in the section on calls that overlap. *)
Lemma one_engine_at_a_time (st : State) (w : World) (filePath : string)
  (filePathArg titleArg authorArg fileTypeArg : option string) :
  oneEngine st ->
  oneEngine (loadBook filePath w st) /\
  oneEngine (openBookFromLibrary filePath w st) /\
  oneEngine (addBookToLibrary filePathArg titleArg authorArg fileTypeArg w st) /\
  oneEngine (backToLibrary st) /\
  (dispatch filePath = ToPDF -> rendition (loadBook filePath w st) = None) /\
  (dispatch filePath = ToEPUB -> pdfViewer (loadBook filePath w st) = None).
Proof.
  intros Hst. split; [now apply loadBook_oneEngine|]. split; [|split; [|split; [|split]]].
  - unfold openBookFromLibrary. cbv zeta.
    set (st1 := match findByPath filePath (library st) with
                | Some _ => _
                | None => st
                end).
    assert (H1 : oneEngine st1).
    { subst st1. destruct (findByPath filePath (library st)); exact Hst. }
    assert (H2 := loadBook_oneEngine filePath w st1 H1).
    destruct (findByPath filePath (library st)) as [b|]; [|exact H2].
    destruct (_ && _ && present (rendition _)).
    + unfold resumeEPUB. destruct (rendition _) as [r|] eqn:Hr; [|exact H2].
      destruct (display _ r); [|exact H2].
      right. cbn [pdfViewer set_rendition]. destruct H2 as [H2|H2]; [congruence | exact H2].
    + destruct (_ && _ && present (pdfViewer _)); [|exact H2].
      unfold resumePDF. destruct (pdfViewer _) as [v|] eqn:Hv; [|exact H2].
      destruct (parseInt _) as [k|]; [|exact H2]. destruct (0 <? k); [|exact H2].
      left. cbn [rendition set_pdfViewer]. destruct H2 as [H2|H2]; [exact H2 | congruence].
  - unfold addBookToLibrary.
    destruct (addBookToLibrary_with_engines (fun p => loadBook p w)
                filePathArg titleArg authorArg fileTypeArg w st)
      as (s & Hr & Hv & [E|[p E]]); rewrite E.
    + unfold oneEngine. rewrite Hr, Hv. exact Hst.
    + apply loadBook_oneEngine. unfold oneEngine. rewrite Hr, Hv. exact Hst.
  - unfold backToLibrary, oneEngine. destruct (rendition st) eqn:Hr; cbn [present].
    + left. reflexivity.
    + left. exact Hr.
  - intros Hd. now apply loadBook_pdf_rendition.
  - intros Hd. now apply loadBook_epub_pdfViewer.
Qed.

Lemma one_engine_at_a_time_witness :
  oneEngine (loadBook "/books/manual.pdf" sampleWorld
               (loadBook "/books/a.epub" sampleWorld sampleState)).
Proof.
  assert (H0 : oneEngine (loadBook "/books/a.epub" sampleWorld sampleState)).
  { right. unfold loadBook, loadBook_after, loadBook_failed. cbn [dispatch]. apply loadBook_epub_rendition with
      (d := {| metadata :=
                 Some {| md_title := Some "Foo"%string; creator := Some "Bar"%string;
                         identifier := Some "isbn123"%string |};
               hasCover := false; displays := true; accepts := fun _ => true |});
      reflexivity. }
  destruct (one_engine_at_a_time (loadBook "/books/a.epub" sampleWorld sampleState)
              sampleWorld "/books/manual.pdf" None None None None H0) as [H1 _].
  exact H1.
Defined.

(** X15.  Highlights follow the document, not the file: two loads of EPUBs
    with the same metadata, from any two paths and in any two states, end
    with the same book identifier and with the highlight set that the
    store keeps under that identifier. *)
Theorem highlights_follow_the_document (p1 p2 : string) (w : World) (st1 st2 : State)
  (d1 d2 : EpubDoc) (m : EpubMetadata) :
  files w p1 = EpubDocument d1 -> files w p2 = EpubDocument d2 ->
  displays d1 = true -> displays d2 = true ->
  metadata d1 = Some m -> metadata d2 = Some m ->
  exists bookId : string,
    bookIdentifier (loadEPUB p1 w st1) = Some bookId /\
    bookIdentifier (loadEPUB p2 w st2) = Some bookId /\
    highlights (loadEPUB p1 w st1) = highlightStore w bookId /\
    highlights (loadEPUB p2 w st2) = highlightStore w bookId.
Proof.
  intros F1 F2 D1 D2 M1 M2. unfold loadEPUB, loadEPUB_read, loadEPUB_failed. rewrite F1, F2, D1, D2, M1, M2.
  unfold generateBookIdentifier, loadHighlights.
  destruct (truthy_opt (identifier m)) eqn:Hid.
  - destruct (identifier m) as [i|] eqn:Ei; [|discriminate Hid].
    exists i. repeat split.
  - eexists. repeat split.
Qed.

Lemma highlights_follow_the_document_witness :
  exists bookId : string,
    bookIdentifier (loadEPUB "/books/a.epub" sampleWorld emptyState) = Some bookId /\
    bookIdentifier (loadEPUB "/books/a.epub" sampleWorld sampleState) = Some bookId.
Proof.
  destruct (highlights_follow_the_document "/books/a.epub" "/books/a.epub" sampleWorld
              emptyState sampleState _ _ _ eq_refl eq_refl eq_refl eq_refl eq_refl eq_refl)
    as (bookId & H1 & H2 & _).
  exists bookId. split; [exact H1 | exact H2].
Defined.

End Leaving.

(** ** Where a path is sent *)

Section Dispatching.

Import Js Renderer.

Lemma dispatch_pdf (filePath : string) :
  toLowerCase (lastSegment "." filePath) = "pdf"%string -> dispatch filePath = ToPDF.
Proof. intros H. unfold dispatch. cbv zeta. now rewrite H. Qed.

Lemma dispatch_epub (filePath : string) :
  toLowerCase (lastSegment "." filePath) = "epub"%string -> dispatch filePath = ToEPUB.
Proof. intros H. unfold dispatch. cbv zeta. now rewrite H. Qed.

(** C3, as the specification states it, fails: [loadBook] does not hand
    every path whose extension is not [pdf] to the EPUB loader.  The file
    [/books/notes.txt] holds a document that the EPUB engine opens, and
    [loadBook] refuses it: no rendition is made. *)
Lemma loadBook_unknown_extension_refused :
  ~ (forall (filePath : string) (w : World) (st : State),
        toLowerCase (lastSegment "." filePath) <> "pdf"%string ->
        loadBook filePath w st = loadEPUB filePath w (set_currentBookPath (Some filePath) st)).
Proof.
  intros H.
  set (w := everyFile (EpubDocument anEpub)).
  specialize (H "/books/notes.txt"%string w sampleState).
  assert (E : rendition (loadBook "/books/notes.txt" w sampleState) = None) by reflexivity.
  rewrite H in E; [discriminate E|].
  vm_compute. discriminate.
Qed.

(** C3, amended.  [loadBook] records the path as the current one and
    compares the lowercased last dot-separated segment of the path, which
    for a path [base.ext] with no dot in [ext] is [ext].  [pdf] goes to
    [loadPDF], whose error, if it throws, is reported: no rendition is
    left, and a file that holds a PDF ends in a viewer on page 1.  [epub]
    goes to [loadEPUB]: no PDF viewer is left, and a document that
    displays ends in a rendition at its start.  Any other extension is
    refused with the message "Unsupported file format", neither loader
    being entered and nothing but the current path being changed.  The
    fallback to EPUB for an extension other than [pdf] exists in
    [addBookToLibrary] alone, where it fixes the [fileType] stored in the
    library entry. *)
Theorem loadBook_classification (filePath : string) (w : World) (st : State) :
  let extension := toLowerCase (lastSegment "." filePath) in
  let st1 := set_currentBookPath (Some filePath) st in
  (extension = "pdf"%string ->
     loadBook filePath w st = loadBook_after (loadPDF filePath w st1) /\
     rendition (loadBook filePath w st) = None /\
     (forall (n : Z) (t a : option string),
         pdfSupport w = true -> files w filePath = PdfDocument n t a ->
         pdfViewer (loadBook filePath w st)
           = Some {| PDFViewer.pdfDoc := true; PDFViewer.currentPage := 1;
                     PDFViewer.totalPages := n |}) /\
     classifyFileType filePath = "pdf"%string) /\
  (extension = "epub"%string ->
     loadBook filePath w st = loadEPUB filePath w st1 /\
     pdfViewer (loadBook filePath w st) = None /\
     (forall d : EpubDoc,
         files w filePath = EpubDocument d -> displays d = true ->
         rendition (loadBook filePath w st)
           = Some {| shown := None; navigable := accepts d |}) /\
     classifyFileType filePath = "epub"%string) /\
  (extension <> "pdf"%string -> extension <> "epub"%string ->
     loadBook filePath w st =
       alert "Failed to load book: Unsupported file format. Only EPUB and PDF files are supported."
             st1 /\
     rendition (loadBook filePath w st) = rendition st /\
     pdfViewer (loadBook filePath w st) = pdfViewer st /\
     classifyFileType filePath = "epub"%string) /\
  (forall base ext : string,
      occurs "." ext = false -> filePath = (base +:+ "." +:+ ext)%string ->
      extension = toLowerCase ext).
Proof.
  intros extension st1. split; [|split; [|split]].
  - intros Hext. assert (Hd := dispatch_pdf filePath Hext).
    split; [unfold loadBook; now rewrite Hd|].
    split; [now apply loadBook_pdf_rendition|].
    split.
    + intros n t a Hs Hf. now apply (loadBook_pdf_viewer filePath w st n t a Hd Hs Hf).
    + unfold classifyFileType. fold extension. now rewrite Hext.
  - intros Hext. assert (Hd := dispatch_epub filePath Hext).
    split; [unfold loadBook; now rewrite Hd|].
    split; [now apply loadBook_epub_pdfViewer|].
    split.
    + intros d Hf Hdisp. now apply (loadBook_epub_rendition filePath w st d Hd Hf Hdisp).
    + unfold classifyFileType. fold extension. now rewrite Hext.
  - intros Hpdf Hepub. apply String.eqb_neq in Hpdf, Hepub.
    assert (E : loadBook filePath w st =
                alert "Failed to load book: Unsupported file format. Only EPUB and PDF files are supported."
                      st1).
    { unfold loadBook, dispatch. cbv zeta. fold extension. now rewrite Hpdf, Hepub. }
    rewrite E. repeat split.
    unfold classifyFileType. fold extension. now rewrite Hpdf.
  - intros base ext Hdot ->. subst extension. now rewrite lastSegment_dot.
Qed.

Lemma loadBook_classification_witness :
  pdfViewer (loadBook "/books/Manual.PDF"
               (everyFile (PdfDocument 10 None None)) sampleState)
    = Some {| PDFViewer.pdfDoc := true; PDFViewer.currentPage := 1;
              PDFViewer.totalPages := 10 |} /\
  rendition (loadBook "/books/a.EPub"
               (everyFile (EpubDocument anEpub)) sampleState)
    = Some {| shown := None; navigable := accepts anEpub |} /\
  rendition (loadBook "/books/notes.txt"
               (everyFile (EpubDocument anEpub)) sampleState)
    = rendition sampleState.
Proof.
  split; [|split].
  - destruct (loadBook_classification "/books/Manual.PDF"
                (everyFile (PdfDocument 10 None None)) sampleState) as [H _].
    destruct (H eq_refl) as (_ & _ & Hv & _).
    apply (Hv 10 None None); reflexivity.
  - destruct (loadBook_classification "/books/a.EPub"
                (everyFile (EpubDocument anEpub)) sampleState) as (_ & H & _).
    destruct (H eq_refl) as (_ & _ & Hr & _).
    apply (Hr anEpub); reflexivity.
  - destruct (loadBook_classification "/books/notes.txt"
                (everyFile (EpubDocument anEpub)) sampleState) as (_ & _ & H & _).
    destruct H as (_ & Hr & _); [vm_compute; discriminate | vm_compute; discriminate |].
    exact Hr.
Defined.

End Dispatching.

(** ** The library view *)

Section View.

Import Js LibraryView.

Lemma insertBy_perm (cmp : Entry.t -> Entry.t -> Z) (x : Entry.t) (l : list Entry.t) :
  Permutation (insertBy cmp x l) (x :: l).
Proof.
  induction l as [|y l IH]; cbn [insertBy]; [reflexivity|].
  destruct (cmp x y <=? 0); [reflexivity|].
  rewrite IH. apply perm_swap.
Qed.

Lemma sortBy_perm (cmp : Entry.t -> Entry.t -> Z) (l : list Entry.t) :
  Permutation (sortBy cmp l) l.
Proof.
  unfold sortBy. induction l as [|x l IH]; cbn [foldr]; [reflexivity|].
  rewrite insertBy_perm. now rewrite IH.
Qed.

Lemma insertBy_sorted (x : Entry.t) (l : list Entry.t) :
  StronglySorted (fun a b => openedAt b <= openedAt a) l ->
  StronglySorted (fun a b => openedAt b <= openedAt a) (insertBy newerFirst x l).
Proof.
  induction 1 as [|y l Hs IH Hy]; cbn [insertBy].
  - repeat constructor.
  - unfold newerFirst at 1. destruct (_ <=? 0) eqn:E.
    + apply Z.leb_le in E. constructor; [now constructor|].
      constructor; [lia|]. eapply List.Forall_impl; [|exact Hy].
      intros z Hz. cbn beta in Hz. lia.
    + apply Z.leb_gt in E. constructor; [exact IH|].
      rewrite insertBy_perm. constructor; [lia | exact Hy].
Qed.

Lemma sortBy_sorted (l : list Entry.t) :
  StronglySorted (fun a b => openedAt b <= openedAt a) (sortBy newerFirst l).
Proof.
  unfold sortBy. induction l as [|x l IH]; cbn [foldr]; [constructor|].
  now apply insertBy_sorted.
Qed.

Lemma sorted_take_drop (n : nat) (l : list Entry.t) :
  StronglySorted (fun a b => openedAt b <= openedAt a) l ->
  StronglySorted (fun a b => openedAt b <= openedAt a) (take n l) /\
  (forall r x, In r (take n l) -> In x (drop n l) -> openedAt x <= openedAt r).
Proof.
  revert n. induction l as [|y l IH]; intros n Hs.
  - rewrite take_nil, drop_nil. split; [constructor | intros r x []].
  - destruct n as [|n]; cbn [take drop].
    + split; [constructor | intros r x []].
    + inversion Hs as [|? ? Hs' Hy]; subst. destruct (IH n Hs') as [I1 I2].
      rewrite Forall_forall in Hy. split.
      * constructor; [exact I1|]. apply Forall_forall. intros z Hz.
        apply Hy. now apply (subseteq_take n l).
      * intros r x [<-|Hr] Hx; [|now apply I2].
        apply Hy. apply (subseteq_drop n l). now apply list_elem_of_In.
Qed.

(** X16.  The "Recently Opened" row holds at most four books, all of them
    entries of the library that have been opened, the most recently opened
    first; the opened books it leaves out are the remaining ones, none of
    them opened later than any book in the row, and none is left out while
    the row has fewer than four. *)
Theorem recentBooks_most_recent_four (lib : list Entry.t) :
  (length (recentBooks lib) <= 4)%nat /\
  (forall b, In b (recentBooks lib) -> In b lib /\ Entry.lastOpened b <> None) /\
  StronglySorted (fun a b => openedAt b <= openedAt a) (recentBooks lib) /\
  (exists rest : list Entry.t,
      Permutation (List.filter opened lib) (recentBooks lib ++ rest) /\
      (forall r x, In r (recentBooks lib) -> In x rest -> openedAt x <= openedAt r) /\
      ((length (recentBooks lib) < 4)%nat -> rest = [])).
Proof.
  unfold recentBooks. set (sorted := sortBy newerFirst (List.filter opened lib)).
  assert (Hperm : Permutation sorted (List.filter opened lib)) by apply sortBy_perm.
  destruct (sorted_take_drop 4 sorted (sortBy_sorted _)) as [Hs Hd].
  split; [rewrite length_take; lia|]. split; [|split; [exact Hs|]].
  - intros b Hb.
    assert (Hin : In b (List.filter opened lib)).
    { apply list_elem_of_In. rewrite <- Hperm. apply (subseteq_take 4 sorted).
      now apply list_elem_of_In. }
    apply filter_In in Hin as [Hin Hop]. split; [exact Hin|].
    unfold opened in Hop. now destruct (Entry.lastOpened b).
  - exists (drop 4 sorted). split; [now rewrite take_drop|]. split; [exact Hd|].
    intros Hlt. rewrite length_take in Hlt. apply drop_ge. lia.
Qed.

Lemma filter_all (keep : Entry.t -> bool) (l : list Entry.t) :
  (length l <= length (List.filter keep l))%nat -> List.filter keep l = l.
Proof.
  induction l as [|x l IH]; intros H; [reflexivity|].
  cbn [List.filter] in *. destruct (keep x); cbn [length] in *.
  - f_equal. apply IH. lia.
  - assert (Hle := filter_length_le keep l). lia.
Qed.

(** X17.  No book is hidden: every entry of the library is on the page,
    in the grid of all books or, when that grid is left out, in the row
    of recently opened books; the grid, when present, is the index in
    index order.  The empty notice is shown exactly for the empty
    library. *)
Theorem renderLibrary_shows_every_book (lib : list Entry.t) :
  (forall b, In b lib -> In b (shown (renderLibrary lib))) /\
  (forall header grid, allBooks (renderLibrary lib) = Some (header, grid) -> grid = lib) /\
  (emptyNotice (renderLibrary lib) = true <-> lib = []).
Proof.
  unfold renderLibrary. destruct lib as [|e lib']; cbn [length Nat.eqb].
  { repeat split; try discriminate. intros b []. }
  set (lib := e :: lib'). cbv zeta.
  change (S (length lib')) with (length lib).
  split; [|split; [|split; [discriminate | intros H; discriminate H]]].
  - intros b Hb. unfold shown. cbn [recentSection allBooks].
    destruct ((0 <? length lib)%nat && _)%bool eqn:Hall.
    + apply in_or_app. right. exact Hb.
    + apply in_or_app. left.
      apply andb_false_iff in Hall as [Hall|Hall]; [discriminate Hall|].
      apply orb_false_iff in Hall as [H0 Hlt].
      apply Nat.eqb_neq in H0. apply Nat.ltb_ge in Hlt.
      replace (0 <? length (recentBooks lib))%nat with true
        by (symmetry; apply Nat.ltb_lt; lia).
      cbn [default from_option id].
      unfold recentBooks in *. rewrite length_take in Hlt.
      assert (Hlen : length (sortBy newerFirst (List.filter opened lib))
                     = length (List.filter opened lib))
        by (apply Permutation_length, sortBy_perm).
      assert (Hle := filter_length_le opened lib).
      assert (Hfil : List.filter opened lib = lib) by (apply filter_all; lia).
      rewrite take_ge by lia. apply list_elem_of_In.
      rewrite sortBy_perm, Hfil. apply list_elem_of_In. exact Hb.
  - intros header grid. cbn [allBooks].
    destruct (_ && _)%bool; intros H; [|discriminate H].
    now injection H as _ <-.
Qed.

End View.

(** ** Theme colours *)

Section ThemeFacts.

Import Settings Themes.

(** X18.  [getThemeColors] answers with one of the six palettes for every
    theme that is not the name of a member inherited from
    [Object.prototype]: the palette of that name for the six known names,
    and sepia for every other value, be it an unknown name, a value that
    is not a string or no value at all.  For an inherited name such as
    [constructor] the lookup finds that member, so the fallback is not
    taken and what is returned is not a palette. *)
Theorem getThemeColors_falls_back_to_sepia (m : SettingsManager) :
  (forall name, settings m !! "theme"%string = Some (VStr name) ->
                name ∈ inheritedNames -> getThemeColors m = Inherited name) /\
  (forall name c, settings m !! "theme"%string = Some (VStr name) ->
                  themes !! name = Some c ->
                  getThemeColors m = Palette c /\
                  c ∈ [white; sepia; kindle; blue; gray; dark]) /\
  ((forall name, settings m !! "theme"%string = Some (VStr name) ->
                 themes !! name = None /\ name ∉ inheritedNames) ->
   getThemeColors m = Palette sepia).
Proof.
  unfold getThemeColors, themesAt. split; [|split].
  - intros name Ht Hin. rewrite Ht.
    assert (Hnone : themes !! name = None).
    { unfold inheritedNames in Hin. repeat (apply elem_of_cons in Hin as [->|Hin]);
        [reflexivity .. | now apply elem_of_nil in Hin]. }
    rewrite Hnone, bool_decide_eq_true_2 by exact Hin. reflexivity.
  - intros name c Ht Hc. rewrite Ht, Hc. split; [reflexivity|].
    unfold themes in Hc. apply elem_of_list_to_map_2 in Hc.
    repeat (apply elem_of_cons in Hc as [Hc|Hc];
            [injection Hc as _ <-; set_solver|]).
    now apply elem_of_nil in Hc.
  - intros H. destruct (settings m !! "theme"%string) as [[| | |name]|]; try reflexivity.
    destruct (H name eq_refl) as [Hnone Hnot].
    rewrite Hnone, bool_decide_eq_false_2 by exact Hnot. reflexivity.
Qed.

Lemma getThemeColors_falls_back_to_sepia_witness :
  getThemeColors (Settings.set "theme" (VStr "solarized") constructor) = Palette sepia /\
  getThemeColors (Settings.set "theme" (VStr "dark") constructor) = Palette dark /\
  getThemeColors (Settings.set "theme" (VStr "constructor") constructor)
    = Inherited "constructor".
Proof.
  split; [|split].
  - apply (getThemeColors_falls_back_to_sepia
             (Settings.set "theme" (VStr "solarized") constructor)).
    intros name H. vm_compute in H. injection H as <-. split; [reflexivity|].
    vm_compute. intros Hin. repeat (apply elem_of_cons in Hin as [Hin|Hin];
                                    [discriminate Hin|]).
    now apply elem_of_nil in Hin.
  - apply (getThemeColors_falls_back_to_sepia
             (Settings.set "theme" (VStr "dark") constructor) ) with (name := "dark"%string);
      reflexivity.
  - apply (getThemeColors_falls_back_to_sepia
             (Settings.set "theme" (VStr "constructor") constructor)); [reflexivity|].
    unfold inheritedNames. set_solver.
Defined.

End ThemeFacts.

(** ** Searching a PDF *)

Section PdfSearch.

Import Js PDFSearch.

Lemma skip_empty (k : nat) : skip k EmptyString = EmptyString.
Proof. now destruct k. Qed.

Lemma skip_skip (a b : nat) (s : string) : skip a (skip b s) = skip (a + b) s.
Proof.
  revert s. induction b as [|b IH]; intros s.
  - now rewrite Nat.add_0_r.
  - rewrite Nat.add_succ_r. destruct s as [|c r]; cbn [skip].
    + now rewrite skip_empty.
    + apply IH.
Qed.

Lemma length_skip (k : nat) (s : string) :
  String.length (skip k s) = (String.length s - k)%nat.
Proof.
  revert s. induction k as [|k IH]; intros s; cbn [skip].
  - now rewrite Nat.sub_0_r.
  - destruct s as [|c r]; [reflexivity | apply IH].
Qed.

Lemma prefix_empty_text (q : string) : q <> EmptyString -> String.prefix q "" = false.
Proof. destruct q; [congruence | reflexivity]. Qed.

Lemma indexOfAt_head (q s : string) (pos : nat) :
  q <> EmptyString -> indexOfAt q s pos = head (occurrences q s pos).
Proof.
  intros Hq. revert pos. induction s as [|c r IH]; intros pos; cbn [indexOfAt occurrences].
  - apply String.eqb_neq in Hq. now rewrite Hq.
  - destruct (String.prefix q (String c r)); [reflexivity | apply IH].
Qed.

(** The occurrences after the first one are those of the text that
    follows it. *)
Lemma occurrences_cons (q s : string) (pos i : nat) (rest : list nat) :
  occurrences q s pos = i :: rest ->
  (pos <= i)%nat /\ (i - pos < String.length s)%nat /\
  rest = occurrences q (skip (S (i - pos)) s) (S i).
Proof.
  revert pos. induction s as [|c r IH]; intros pos H; [discriminate H|].
  cbn [occurrences] in H. destruct (String.prefix q (String c r)).
  - cbn [app] in H. injection H as <- <-. rewrite Nat.sub_diag.
    cbn [skip String.length]. repeat split; lia.
  - cbn [app] in H. destruct (IH (S pos) H) as (H1 & H2 & H3).
    replace (i - pos)%nat with (S (i - S pos)) by lia.
    cbn [skip String.length]. repeat split; [lia | lia | exact H3].
Qed.

Lemma In_occurrences (q s : string) (pos i : nat) :
  In i (occurrences q s pos) <-> (pos <= i)%nat /\ occursAt q s (i - pos) = true.
Proof.
  unfold occursAt. revert pos. induction s as [|c r IH]; intros pos; cbn [occurrences].
  - split; [intros [] | intros [_ H]; discriminate H].
  - rewrite in_app_iff, IH. split.
    + intros [H|[H1 H2]].
      * destruct (String.prefix q (String c r)) eqn:E; [|destruct H].
        destruct H as [<-|[]]. rewrite Nat.sub_diag. cbn [skip String.length].
        split; [lia|]. now rewrite E.
      * split; [lia|]. replace (i - pos)%nat with (S (i - S pos)) by lia.
        cbn [skip String.length]. apply andb_true_iff in H2 as [H2 H3].
        apply andb_true_iff. split; [|exact H3].
        apply Nat.ltb_lt. apply Nat.ltb_lt in H2. lia.
    + intros [H1 H2]. destruct (Nat.eq_dec i pos) as [->|Hne].
      * left. rewrite Nat.sub_diag in H2. cbn [skip] in H2.
        apply andb_true_iff in H2 as [_ H2]. rewrite H2. now left.
      * right. split; [lia|]. replace (i - pos)%nat with (S (i - S pos)) in H2 by lia.
        cbn [skip String.length] in H2. apply andb_true_iff in H2 as [H2 H3].
        apply andb_true_iff. split; [|exact H3].
        apply Nat.ltb_lt. apply Nat.ltb_lt in H2. lia.
Qed.

(** The loop of one page, with enough fuel, builds one record for each
    occurrence from position [k] on. *)
Lemma collect_occurrences (q pageText : string) (page : Z) (fuel k : nat) :
  q <> EmptyString -> (k <= String.length pageText)%nat ->
  (String.length pageText - k < fuel)%nat ->
  collect fuel q pageText page (indexOfAt q (skip k pageText) k)
    = map (matchAt pageText page) (occurrences q (skip k pageText) k).
Proof.
  intros Hq. revert k. induction fuel as [|fuel IH]; intros k Hk Hfuel; [lia|].
  rewrite indexOfAt_head by exact Hq.
  destruct (occurrences q (skip k pageText) k) as [|i rest] eqn:Hocc; [reflexivity|].
  cbn [head collect map]. destruct (occurrences_cons _ _ _ _ _ Hocc) as (H1 & H2 & H3).
  rewrite length_skip in H2. rewrite skip_skip in H3.
  replace (S (i - k) + k)%nat with (S i) in H3 by lia.
  f_equal.
  - unfold matchAt. f_equal. f_equal. lia.
  - unfold indexOf. replace (i + 1)%nat with (S i) by lia.
    replace (Nat.min (S i) (String.length pageText)) with (S i) by lia.
    rewrite IH by lia. now rewrite H3.
Qed.

Lemma matchesOnPage_occurrences (q pageText : string) (page : Z) :
  q <> EmptyString ->
  matchesOnPage q pageText page = map (matchAt pageText page) (occurrences q pageText 0).
Proof.
  intros Hq. unfold matchesOnPage, indexOf. cbn [Nat.min skip].
  change pageText with (skip 0 pageText) at 3 5.
  destruct pageText as [|c r]; apply collect_occurrences; cbn [String.length]; try exact Hq; lia.
Qed.

Lemma In_matchesOnPage (q pageText : string) (page : Z) (m : Match) :
  q <> EmptyString ->
  In m (matchesOnPage q pageText page) <->
  pageNum m = page /\ occursAt q pageText (index m) = true /\
  text m = String.substring (index m - 30) 100 pageText.
Proof.
  intros Hq. rewrite matchesOnPage_occurrences by exact Hq. rewrite in_map_iff. split.
  - intros (i & <- & Hi). apply In_occurrences in Hi as [_ Hi].
    rewrite Nat.sub_0_r in Hi. cbn [matchAt pageNum index text]. now repeat split.
  - intros (Hp & Ho & Ht). exists (index m). split.
    + destruct m as [p t i]. cbn [pageNum index text] in *. unfold matchAt. now subst.
    + apply In_occurrences. rewrite Nat.sub_0_r. split; [lia | exact Ho].
Qed.

Lemma searchPages_complete (textOf : Z -> option (list string)) (q : string)
  (count : nat) (page : Z) (acc : list Match) :
  q <> EmptyString ->
  (forall p, page <= p < page + Z.of_nat count -> textOf p <> None) ->
  exists found,
    searchPages textOf q page count acc = (acc ++ found, true) /\
    forall m, In m found <->
              page <= pageNum m < page + Z.of_nat count /\
              exists items, textOf (pageNum m) = Some items /\
                            In m (matchesOnPage q (toLowerCase (join " " items)) (pageNum m)).
Proof.
  intros Hq. revert page acc. induction count as [|count IH]; intros page acc Hall.
  - exists []. split; [cbn; now rewrite app_nil_r|].
    intros m. split; [intros [] | intros [H _]; lia].
  - cbn [searchPages]. destruct (textOf page) as [items|] eqn:Hitems.
    2:{ exfalso. apply (Hall page); [lia | exact Hitems]. }
    destruct (IH (page + 1)
                 (acc ++ matchesOnPage q (toLowerCase (join " " items)) page))
      as (found & E & Hfound).
    { intros p Hp. apply Hall. lia. }
    exists (matchesOnPage q (toLowerCase (join " " items)) page ++ found).
    split; [now rewrite E, app_assoc|].
    intros m. rewrite in_app_iff, Hfound. split.
    + intros [Hm|(Hr & items' & Hi & Hm)].
      * assert (Hp : pageNum m = page)
          by (apply (In_matchesOnPage q _ page m Hq) in Hm; tauto).
        split; [lia|]. exists items. rewrite Hp. split; [exact Hitems | exact Hm].
      * split; [lia|]. exists items'. split; assumption.
    + intros (Hr & items' & Hi & Hm).
      destruct (Z.eq_dec (pageNum m) page) as [Hp|Hp].
      * left. rewrite Hp in Hi, Hm. rewrite Hitems in Hi. now injection Hi as <-.
      * right. split; [lia|]. exists items'. split; assumption.
Qed.

Lemma toLowerCase_nonempty (s : string) :
  truthy s = true -> toLowerCase s <> EmptyString.
Proof.
  intros H. apply truthy_nonempty in H. destruct s; [congruence | discriminate].
Qed.

(** X19.  On a loaded document whose pages can all be read, [searchText]
    with a non-empty query finds every occurrence and nothing else: the
    matches are exactly the records for the positions, overlapping ones
    included, at which the lowercased query starts in the lowercased text
    of a page from 1 to [totalPages], that text being the items of the
    page joined by spaces; each record carries up to 100 code units of
    context from 30 before the position.  The array returned is the list
    kept in the viewer, and the search index is reset to -1. *)
Theorem searchText_finds_every_occurrence (textOf : Z -> option (list string))
  (query : string) (s : t) :
  PDFViewer.pdfDoc (viewer s) = true -> truthy query = true ->
  (forall p, 1 <= p <= PDFViewer.totalPages (viewer s) -> textOf p <> None) ->
  let s' := fst (searchText textOf query s) in
  let result := snd (searchText textOf query s) in
  searchMatches s' = result /\ currentSearchIndex s' = -1 /\
  searchQuery s' = toLowerCase query /\ viewer s' = viewer s /\
  forall m : Match,
    In m result <->
    1 <= pageNum m <= PDFViewer.totalPages (viewer s) /\
    exists items : list string,
      textOf (pageNum m) = Some items /\
      occursAt (toLowerCase query) (toLowerCase (join " " items)) (index m) = true /\
      text m = String.substring (index m - 30) 100 (toLowerCase (join " " items)).
Proof.
  intros Hdoc Hq Hall s' result. subst s' result. unfold searchText.
  rewrite Hdoc, Hq. cbn [negb orb].
  assert (Hq' := toLowerCase_nonempty query Hq).
  destruct (searchPages_complete textOf (toLowerCase query)
              (Z.to_nat (PDFViewer.totalPages (viewer s))) 1 [] Hq')
    as (found & E & Hfound).
  { intros p Hp. apply Hall. lia. }
  rewrite E. cbn [fst snd app searchMatches currentSearchIndex searchQuery viewer].
  do 4 (split; [reflexivity|]).
  intros m. split.
  - intros Hm. apply Hfound in Hm as (Hr & items & Hi & Hm).
    apply (In_matchesOnPage _ _ _ m Hq') in Hm as (_ & Ho & Ht).
    split; [lia|]. exists items. split; [exact Hi | split; [exact Ho | exact Ht]].
  - intros (Hr & items & Hi & Ho & Ht). apply Hfound. split; [lia|].
    exists items. split; [exact Hi|]. apply (In_matchesOnPage _ _ _ m Hq').
    split; [reflexivity | split; [exact Ho | exact Ht]].
Qed.

Lemma searchText_finds_every_occurrence_witness :
  let textOf := fun p : Z =>
    if p =? 1 then Some ["Call me"; "Ishmael."]%string else Some ["Some years ago"]%string in
  let s := ofViewer (PDFViewer.loadPDF 2 PDFViewer.constructor) in
  In {| pageNum := 2; text := "some years ago"; index := 2%nat |}
     (snd (searchText textOf "ME" s)).
Proof.
  intros textOf s.
  apply (searchText_finds_every_occurrence textOf "ME" s eq_refl eq_refl).
  - intros p _. unfold textOf. destruct (p =? 1); discriminate.
  - cbn [pageNum index text]. split; [cbn; lia|].
    exists ["Some years ago"]%string. repeat split.
Defined.

Lemma searchPages_stops (textOf : Z -> option (list string)) (q : string)
  (count : nat) (page k : Z) (acc : list Match) :
  q <> EmptyString ->
  (forall p, page <= p < k -> textOf p <> None) -> textOf k = None ->
  page <= k < page + Z.of_nat count ->
  exists found,
    searchPages textOf q page count acc = (acc ++ found, false) /\
    forall m, In m found <->
              page <= pageNum m < k /\
              exists items, textOf (pageNum m) = Some items /\
                            In m (matchesOnPage q (toLowerCase (join " " items)) (pageNum m)).
Proof.
  intros Hq. revert page acc. induction count as [|count IH]; intros page acc Hall Hk Hr;
    [lia|].
  cbn [searchPages]. destruct (Z.eq_dec page k) as [->|Hne].
  - rewrite Hk. exists []. split; [now rewrite app_nil_r|].
    intros m. split; [intros [] | intros [H _]; lia].
  - destruct (textOf page) as [items|] eqn:Hitems.
    2:{ exfalso. apply (Hall page); [lia | exact Hitems]. }
    destruct (IH (page + 1)
                 (acc ++ matchesOnPage q (toLowerCase (join " " items)) page))
      as (found & E & Hfound); [intros p Hp; apply Hall; lia | exact Hk | lia |].
    exists (matchesOnPage q (toLowerCase (join " " items)) page ++ found).
    split; [now rewrite E, app_assoc|].
    intros m. rewrite in_app_iff, Hfound. split.
    + intros [Hm|(Hr' & items' & Hi & Hm)].
      * assert (Hp : pageNum m = page)
          by (apply (In_matchesOnPage q _ page m Hq) in Hm; tauto).
        split; [lia|]. exists items. rewrite Hp. split; [exact Hitems | exact Hm].
      * split; [lia|]. exists items'. split; assumption.
    + intros (Hr' & items' & Hi & Hm).
      destruct (Z.eq_dec (pageNum m) page) as [Hp|Hp].
      * left. rewrite Hp in Hi, Hm. rewrite Hitems in Hi. now injection Hi as <-.
      * right. split; [lia|]. exists items'. split; assumption.
Qed.

(** X20.  [searchText] returns no result, and raises nothing, in three
    cases.  Without a document, or with an empty query, the matches kept
    in the viewer are cleared and the search index is left as it is.  When
    a page cannot be read the search stops there: the array returned is
    empty although the viewer keeps the matches found on the pages before
    it, with its index reset to -1. *)
Theorem searchText_without_result (textOf : Z -> option (list string))
  (query : string) (s : t) :
  (PDFViewer.pdfDoc (viewer s) = false \/ query = EmptyString ->
     searchText textOf query s =
       ({| viewer := viewer s; searchMatches := [];
           currentSearchIndex := currentSearchIndex s; searchQuery := searchQuery s |}, [])) /\
  (forall k : Z,
      PDFViewer.pdfDoc (viewer s) = true -> truthy query = true ->
      1 <= k <= PDFViewer.totalPages (viewer s) -> textOf k = None ->
      (forall p, 1 <= p < k -> textOf p <> None) ->
      snd (searchText textOf query s) = [] /\
      currentSearchIndex (fst (searchText textOf query s)) = -1 /\
      forall m : Match,
        In m (searchMatches (fst (searchText textOf query s))) <->
        1 <= pageNum m < k /\
        exists items : list string,
          textOf (pageNum m) = Some items /\
          occursAt (toLowerCase query) (toLowerCase (join " " items)) (index m) = true /\
          text m = String.substring (index m - 30) 100 (toLowerCase (join " " items))).
Proof.
  split.
  - intros [Hdoc| ->]; unfold searchText.
    + now rewrite Hdoc.
    + cbn [truthy String.eqb negb]. now rewrite orb_true_r.
  - intros k Hdoc Hq Hk Hnone Hbefore. unfold searchText. rewrite Hdoc, Hq. cbn [negb orb].
    assert (Hq' := toLowerCase_nonempty query Hq).
    destruct (searchPages_stops textOf (toLowerCase query)
                (Z.to_nat (PDFViewer.totalPages (viewer s))) 1 k [] Hq' Hbefore Hnone)
      as (found & E & Hfound); [lia|].
    rewrite E. cbn [fst snd app searchMatches currentSearchIndex].
    split; [reflexivity|]. split; [reflexivity|].
    intros m. split.
    + intros Hm. apply Hfound in Hm as (Hr & items & Hi & Hm).
      apply (In_matchesOnPage _ _ _ m Hq') in Hm as (_ & Ho & Ht).
      split; [lia|]. exists items. split; [exact Hi | split; [exact Ho | exact Ht]].
    + intros (Hr & items & Hi & Ho & Ht). apply Hfound. split; [lia|].
      exists items. split; [exact Hi|]. apply (In_matchesOnPage _ _ _ m Hq').
      split; [reflexivity | split; [exact Ho | exact Ht]].
Qed.

Lemma searchText_without_result_witness :
  let textOf := fun p : Z =>
    if p =? 1 then Some ["Call me"; "Ishmael."]%string else None in
  let s := ofViewer (PDFViewer.loadPDF 2 PDFViewer.constructor) in
  snd (searchText textOf "me" s) = [] /\
  snd (searchText textOf "" s) = [].
Proof.
  intros textOf s. split.
  - apply (searchText_without_result textOf "me" s) with (k := 2);
      [reflexivity | reflexivity | cbn; lia | reflexivity |].
    intros p Hp. assert (p = 1) as -> by lia. discriminate.
  - destruct (searchText_without_result textOf "" s) as [H _].
    rewrite H; [reflexivity | right; reflexivity].
Defined.

(** X21.  With matches at hand and the search index at -1 (as a search
    leaves it) or on a match, [nextSearchResult] and
    [previousSearchResult] never fail and always end on a match: the next
    one, wrapping from the last to the first, or the previous one,
    wrapping from the first (or from -1) to the last; the viewer is sent
    to the page of that match and shows it whenever that page lies in the
    document, and the matches are left alone.  From a match, each call
    undoes the other.  With no match both calls do nothing. *)
Theorem search_navigation_wraps (s : t) :
  let n := Z.of_nat (length (searchMatches s)) in
  let i := currentSearchIndex s in
  (0 < n -> -1 <= i < n ->
   exists (s1 s2 : t) (m1 m2 : Match),
     nextSearchResult s = Some s1 /\ previousSearchResult s = Some s2 /\
     currentSearchIndex s1 = (if i + 1 =? n then 0 else i + 1) /\
     currentSearchIndex s2 = (if i <=? 0 then n - 1 else i - 1) /\
     searchMatches s !! Z.to_nat (currentSearchIndex s1) = Some m1 /\
     searchMatches s !! Z.to_nat (currentSearchIndex s2) = Some m2 /\
     viewer s1 = PDFViewer.goToPage (pageNum m1) (viewer s) /\
     viewer s2 = PDFViewer.goToPage (pageNum m2) (viewer s) /\
     searchMatches s1 = searchMatches s /\ searchMatches s2 = searchMatches s /\
     (PDFViewer.pdfDoc (viewer s) = true ->
      1 <= pageNum m1 <= PDFViewer.totalPages (viewer s) ->
      PDFViewer.currentPage (viewer s1) = pageNum m1) /\
     (0 <= i ->
      option_map currentSearchIndex (previousSearchResult s1) = Some i /\
      option_map currentSearchIndex (nextSearchResult s2) = Some i)) /\
  (n = 0 -> nextSearchResult s = Some s /\ previousSearchResult s = Some s).
Proof.
  intros n i. split.
  - intros Hn Hi.
    assert (Hlen : (length (searchMatches s) =? 0)%nat = false)
      by (apply Nat.eqb_neq; subst n; lia).
    assert (Hshow : forall j (s0 : t), searchMatches s0 = searchMatches s -> 0 <= j < n ->
               exists m, searchMatches s !! Z.to_nat j = Some m /\
                         showMatch j s0 =
                           Some {| viewer := PDFViewer.goToPage (pageNum m) (viewer s0);
                                   searchMatches := searchMatches s; currentSearchIndex := j;
                                   searchQuery := searchQuery s0 |}).
    { intros j s0 Hs0 Hj. unfold showMatch. rewrite Hs0.
      replace (j <? 0) with false by (symmetry; apply Z.ltb_ge; lia).
      destruct (searchMatches s !! Z.to_nat j) as [m|] eqn:Hm.
      - exists m. split; reflexivity.
      - apply lookup_ge_None in Hm. subst n. lia. }
    set (j1 := if i + 1 =? n then 0 else i + 1).
    set (j2 := if i <=? 0 then n - 1 else i - 1).
    assert (Hj1 : 0 <= j1 < n) by (subst j1; destruct (Z.eqb_spec (i + 1) n); lia).
    assert (Hj2 : 0 <= j2 < n) by (subst j2; destruct (Z.leb_spec i 0); lia).
    assert (Hrem : Z.rem (i + 1) n = j1).
    { subst j1. destruct (Z.eqb_spec (i + 1) n) as [E|E].
      - rewrite E. apply Z.rem_same. lia.
      - apply Z.rem_small. lia. }
    destruct (Hshow j1 s eq_refl Hj1) as (m1 & Hm1 & E1).
    destruct (Hshow j2 s eq_refl Hj2) as (m2 & Hm2 & E2).
    eexists _, _, m1, m2.
    split; [unfold nextSearchResult; rewrite Hlen; fold n; fold i; rewrite Hrem; exact E1|].
    split; [unfold previousSearchResult; rewrite Hlen; fold n; fold i; exact E2|].
    cbn [currentSearchIndex viewer searchMatches].
    do 8 (split; [first [reflexivity | assumption]|]).
    split.
    + intros Hdoc Hr. unfold PDFViewer.goToPage, PDFViewer.renderPage. rewrite Hdoc.
      replace ((1 <=? pageNum m1) && (pageNum m1 <=? PDFViewer.totalPages (viewer s)))
        with true; [reflexivity|].
      symmetry. apply andb_true_iff. split; apply Z.leb_le; lia.
    + intros H0. split.
      * unfold previousSearchResult. cbn [searchMatches currentSearchIndex].
        rewrite Hlen. fold n.
        assert (Hback : (if j1 <=? 0 then n - 1 else j1 - 1) = i).
        { subst j1. destruct (Z.eqb_spec (i + 1) n) as [E|E]; cbn.
          - lia.
          - destruct (Z.leb_spec (i + 1) 0); lia. }
        rewrite Hback.
        destruct (Hshow i {| viewer := PDFViewer.goToPage (pageNum m1) (viewer s);
                             searchMatches := searchMatches s; currentSearchIndex := j1;
                             searchQuery := searchQuery s |} eq_refl ltac:(lia))
          as (m & _ & E).
        rewrite E. reflexivity.
      * unfold nextSearchResult. cbn [searchMatches currentSearchIndex].
        rewrite Hlen. fold n.
        assert (Hforth : Z.rem (j2 + 1) n = i).
        { subst j2. destruct (Z.leb_spec i 0).
          - replace (n - 1 + 1) with n by lia. rewrite Z.rem_same by lia. lia.
          - replace (i - 1 + 1) with i by lia. apply Z.rem_small. lia. }
        rewrite Hforth.
        destruct (Hshow i {| viewer := PDFViewer.goToPage (pageNum m2) (viewer s);
                             searchMatches := searchMatches s; currentSearchIndex := j2;
                             searchQuery := searchQuery s |} eq_refl ltac:(lia))
          as (m & _ & E).
        rewrite E. reflexivity.
  - intros Hn. unfold nextSearchResult, previousSearchResult.
    replace (length (searchMatches s) =? 0)%nat with true
      by (symmetry; apply Nat.eqb_eq; subst n; lia).
    split; reflexivity.
Qed.

Lemma search_navigation_wraps_witness :
  let textOf := fun p : Z =>
    if p =? 1 then Some ["Call me"; "Ishmael."]%string else Some ["Some years ago"]%string in
  let s := fst (searchText textOf "me" (ofViewer (PDFViewer.loadPDF 2 PDFViewer.constructor))) in
  exists s1 s2 : t,
    nextSearchResult s = Some s1 /\ previousSearchResult s = Some s2 /\
    currentSearchIndex s1 = 0 /\ currentSearchIndex s2 = 1.
Proof.
  intros textOf s.
  destruct (search_navigation_wraps s) as [H _].
  destruct H as (s1 & s2 & m1 & m2 & H1 & H2 & H3 & H4 & _);
    [vm_compute; reflexivity
    | vm_compute; split; [intros E; discriminate E | reflexivity] |].
  exists s1, s2. split; [exact H1 | split; [exact H2 | split; [exact H3 | exact H4]]].
Defined.

End PdfSearch.

(** ** Comparing versions *)

Section Versions.

Import Js Updater.

Lemma ltNum_irrefl (a : Num) : ltNum a a = false.
Proof.
  destruct a as [|q|[|]]; cbn; try reflexivity.
  now rewrite (proj1 (Qeq_alt q q) (Qeq_refl q)).
Qed.

Lemma ltNum_asym (a b : Num) : ltNum a b = true -> ltNum b a = false.
Proof.
  destruct a as [|p|[|]], b as [|q|[|]]; cbn; try congruence.
  rewrite <- (Qcompare_antisym p q). now destruct (p ?= q)%Q.
Qed.

Lemma compareFrom_swap (parts1 parts2 : list Num) (i k : nat) :
  compareFrom parts2 parts1 i k = - compareFrom parts1 parts2 i k.
Proof.
  revert i. induction k as [|k IH]; intros i; cbn [compareFrom]; [reflexivity|].
  unfold gtNum.
  destruct (ltNum (orZero (parts2 !! i)) (orZero (parts1 !! i))) eqn:E1.
  - now rewrite (ltNum_asym _ _ E1).
  - destruct (ltNum (orZero (parts1 !! i)) (orZero (parts2 !! i))); [reflexivity | apply IH].
Qed.

Lemma compareFrom_sign (parts1 parts2 : list Num) (i k : nat) :
  compareFrom parts1 parts2 i k = -1 \/ compareFrom parts1 parts2 i k = 0 \/
  compareFrom parts1 parts2 i k = 1.
Proof.
  revert i. induction k as [|k IH]; intros i; cbn [compareFrom]; [auto|].
  destruct (gtNum _ _); [auto|]. destruct (ltNum _ _); [auto | apply IH].
Qed.

Lemma compareFrom_refl (parts : list Num) (i k : nat) : compareFrom parts parts i k = 0.
Proof.
  revert i. induction k as [|k IH]; intros i; cbn [compareFrom]; [reflexivity|].
  unfold gtNum. rewrite ltNum_irrefl. apply IH.
Qed.

(** X22.  [compareVersions] is a three-way comparison on all strings: its
    result is -1, 0 or 1, a version compares equal to itself, and
    swapping the two arguments negates the result. *)
Theorem compareVersions_antisymmetric (v1 v2 : string) :
  compareVersions v2 v1 = - compareVersions v1 v2 /\
  compareVersions v1 v1 = 0 /\
  (compareVersions v1 v2 = -1 \/ compareVersions v1 v2 = 0 \/ compareVersions v1 v2 = 1).
Proof.
  unfold compareVersions. cbv zeta. split; [|split].
  - rewrite Nat.max_comm. apply compareFrom_swap.
  - apply compareFrom_refl.
  - apply compareFrom_sign.
Qed.

(** The loop sees its two arrays only through [parts[i] || 0]. *)
Lemma compareFrom_ext (p1 p2 q1 q2 : list Num) (i k : nat) :
  (forall j, orZero (p1 !! j) = orZero (q1 !! j)) ->
  (forall j, orZero (p2 !! j) = orZero (q2 !! j)) ->
  compareFrom p1 p2 i k = compareFrom q1 q2 i k.
Proof.
  intros H1 H2. revert i. induction k as [|k IH]; intros i; cbn [compareFrom];
    [reflexivity|].
  rewrite H1, H2, IH. reflexivity.
Qed.

Lemma compareFrom_tail (x y : Num) (p1 p2 : list Num) (i k : nat) :
  compareFrom (x :: p1) (y :: p2) (S i) k = compareFrom p1 p2 i k.
Proof.
  revert i. induction k as [|k IH]; intros i; cbn [compareFrom]; [reflexivity|].
  rewrite IH. reflexivity.
Qed.

Lemma orZero_component (n : N) : orZero (Some (componentValue n)) = componentValue n.
Proof.
  unfold orZero, componentValue. destruct (Qeq_bool _ 0) eqn:E; [|reflexivity].
  apply Qeq_bool_eq in E. unfold Qeq in E. cbn in E.
  rewrite Z.mul_1_r in E. now rewrite E.
Qed.

Lemma ltNum_component (a b : N) :
  ltNum (componentValue a) (componentValue b) = (a <? b)%N.
Proof.
  unfold ltNum, componentValue, Qcompare. cbn [Qnum Qden inject_Z].
  rewrite !Z.mul_1_r, N2Z.inj_compare. unfold N.ltb. now destruct (a ?= b)%N.
Qed.

(** Past the end of both arrays every turn compares 0 with 0. *)
Lemma compareFrom_padding (i k : nat) : compareFrom [] [] i k = 0.
Proof. apply compareFrom_refl. Qed.

Lemma compareFrom_components (l1 l2 : list N) (k : nat) :
  (Nat.max (length l1) (length l2) <= k)%nat ->
  compareFrom (map componentValue l1) (map componentValue l2) 0 k = compareComponents l1 l2.
Proof.
  revert l1 l2. induction k as [|k IH]; intros l1 l2 Hk.
  - destruct l1, l2; cbn [length] in Hk; try lia. reflexivity.
  - cbn [compareFrom]. unfold gtNum.
    destruct l1 as [|x r1], l2 as [|y r2]; cbn [map lookup list_lookup compareComponents].
    + cbn [orZero]. rewrite ltNum_irrefl. apply compareFrom_padding.
    + rewrite orZero_component. change (orZero None) with (componentValue 0).
      rewrite !ltNum_component. cbn [nonZero existsb]. fold (nonZero r2).
      replace (y <? 0)%N with false by (symmetry; apply N.ltb_ge; lia).
      destruct (0 <? y)%N; [reflexivity|]. cbn [orb].
      transitivity (compareFrom [componentValue 0]
                                (componentValue y :: map componentValue r2) 1 k).
      { apply compareFrom_ext; [intros [|j]; reflexivity | reflexivity]. }
      rewrite compareFrom_tail.
      assert (E := IH [] r2 ltac:(cbn [length] in *; lia)). cbn [map] in E. rewrite E.
      now destruct r2.
    + rewrite orZero_component. change (orZero None) with (componentValue 0).
      rewrite !ltNum_component. cbn [nonZero existsb]. fold (nonZero r1).
      replace (x <? 0)%N with false by (symmetry; apply N.ltb_ge; lia).
      destruct (0 <? x)%N; [reflexivity|]. cbn [orb].
      transitivity (compareFrom (componentValue x :: map componentValue r1)
                                [componentValue 0] 1 k).
      { apply compareFrom_ext; [reflexivity | intros [|j]; reflexivity]. }
      rewrite compareFrom_tail.
      assert (E := IH r1 [] ltac:(cbn [length] in *; lia)). cbn [map] in E. rewrite E.
      now destruct r1.
    + rewrite !orZero_component, !ltNum_component.
      destruct (y <? x)%N; [reflexivity|]. destruct (x <? y)%N; [reflexivity|].
      rewrite compareFrom_tail. apply IH. cbn [length] in Hk. lia.
Qed.

Lemma digitsOnly_string_of_uint (d : Decimal.uint) :
  digitsOnly (NilEmpty.string_of_uint d) = true.
Proof. induction d; cbn [NilEmpty.string_of_uint digitsOnly]; try rewrite IHd; reflexivity. Qed.

Lemma numToString_digits (n : N) :
  digitsOnly (numToString n) = true /\ numToString n <> EmptyString /\
  decimalValue (numToString n) = Some (Z.of_N n).
Proof.
  unfold numToString, NilZero.string_of_uint.
  assert (Hn := DecimalN.Unsigned.of_to n).
  assert (Hu := NilEmpty.usu (N.to_uint n)).
  assert (Hd := digitsOnly_string_of_uint (N.to_uint n)).
  destruct (N.to_uint n) as [|d|d|d|d|d|d|d|d|d|d] eqn:E.
  1:{ cbn in Hn. subst n. repeat split. discriminate. }
  all: split; [exact Hd|]; split; [discriminate|].
  all: unfold decimalValue; rewrite Hu; cbn [NilEmpty.string_of_uint option_map];
    now rewrite Hn.
Qed.

Lemma isDigit_facts (c : ascii) :
  isDigit c = true ->
  isWhiteSpace c = false /\ Ascii.eqb c "e" = false /\ Ascii.eqb c "E" = false /\
  Ascii.eqb "." c = false.
Proof.
  destruct c as [[] [] [] [] [] [] [] []]; intros H;
    first [discriminate H | repeat split].
Qed.

Lemma digitsOnly_plain (s : string) :
  digitsOnly s = true ->
  trimStart s = s /\ trimEnd s = s /\ splitExponent s = (s, None) /\ occurs "." s = false.
Proof.
  induction s as [|c r IH]; intros H; [repeat split|].
  cbn [digitsOnly] in H. apply andb_true_iff in H as [Hc Hr].
  destruct (isDigit_facts c Hc) as (Hw & He & HE & Hdot).
  destruct (IH Hr) as (_ & I2 & I3 & I4).
  cbn [trimStart trimEnd splitExponent occurs]. rewrite Hw, He, HE, Hdot, I2, I3, I4.
  repeat split.
Qed.

Lemma NumberOfSegment_head (c : ascii) (r : string) :
  isDigit c = true -> digitsOnly r = true ->
  NumberOfSegment (String c r) = unsignedDecimal (String c r).
Proof.
  intros Hc Hr.
  assert (Hd : digitsOnly (String c r) = true) by (cbn [digitsOnly]; now rewrite Hc, Hr).
  destruct (digitsOnly_plain _ Hd) as (Hs & He & _).
  unfold NumberOfSegment. rewrite Hs, He. cbv zeta.
  destruct c as [[] [] [] [] [] [] [] []]; try discriminate Hc; try reflexivity.
  destruct r as [|c2 r2]; [reflexivity|].
  cbn [digitsOnly] in Hr. apply andb_true_iff in Hr as [Hc2 _].
  destruct c2 as [[] [] [] [] [] [] [] []]; try discriminate Hc2; reflexivity.
Qed.

(** [Number] of the decimal numeral of [n] is [n]. *)
Lemma NumberOfSegment_numeral (n : N) : NumberOfSegment (numToString n) = componentValue n.
Proof.
  destruct (numToString_digits n) as (Hd & Hne & Hv).
  destruct (digitsOnly_plain _ Hd) as (_ & _ & Hx & _).
  destruct (numToString n) as [|c r] eqn:E; [congruence|].
  cbn [digitsOnly] in Hd. apply andb_true_iff in Hd as [Hc Hr].
  rewrite (NumberOfSegment_head c r Hc Hr).
  unfold unsignedDecimal.
  replace (String.eqb (String c r) "Infinity") with false.
  2:{ symmetry. apply String.eqb_neq. intros Heq.
      rewrite Heq in Hv. discriminate Hv. }
  rewrite Hx, Hv. reflexivity.
Qed.

Lemma split_dot_cons (s t : string) :
  occurs "." s = false -> split "." (s +:+ "." +:+ t) = s :: split "." t.
Proof.
  unfold split. induction s as [|c r IH]; intros H.
  - change (split_from "." 0 (String "." t) = "" :: split_from "." 0 t)%string.
    cbn [split_from]. rewrite prefix_dot. reflexivity.
  - cbn [occurs] in H. apply orb_false_iff in H as [Hc Hr].
    change ((String c r) +:+ "." +:+ t)%string with (String c (r +:+ "." +:+ t)).
    cbn [split_from]. rewrite prefix_dot, Hc, (IH Hr). reflexivity.
Qed.

Lemma numToString_no_dot (n : N) : occurs "." (numToString n) = false.
Proof. apply digitsOnly_plain, numToString_digits. Qed.

(** The segments of a rendered version are the numerals of its
    components. *)
Lemma split_renderVersion (l : list N) (t : string) :
  l <> [] ->
  split "." (renderVersion l) = map numToString l /\
  split "." (renderVersion l +:+ "." +:+ t) = map numToString l ++ split "." t.
Proof.
  induction l as [|n l IH]; intros Hne; [congruence|].
  destruct l as [|n' l'].
  - cbn [renderVersion map app]. split.
    + apply split_no_dot, numToString_no_dot.
    + apply split_dot_cons, numToString_no_dot.
  - destruct (IH ltac:(discriminate)) as [I1 I2].
    change (renderVersion (n :: n' :: l'))
      with (numToString n +:+ "." +:+ renderVersion (n' :: l'))%string.
    split.
    + rewrite split_dot_cons by apply numToString_no_dot. now rewrite I1.
    + assert (Hassoc : forall a b c : string, ((a +:+ b) +:+ c = a +:+ (b +:+ c))%string).
      { intros a b c. induction a as [|x a IHa]; [reflexivity|].
        change (String x ((a +:+ b) +:+ c) = String x (a +:+ b +:+ c)). now rewrite IHa. }
      rewrite !Hassoc. rewrite split_dot_cons by apply numToString_no_dot.
      rewrite I2. reflexivity.
Qed.

Lemma parts_of_renderVersion (l : list N) :
  l <> [] ->
  map NumberOfSegment (split "." (renderVersion l)) = map componentValue l.
Proof.
  intros Hne. destruct (split_renderVersion l EmptyString Hne) as [E _].
  rewrite E, map_map. apply map_ext. intros n. apply NumberOfSegment_numeral.
Qed.

(** Versions made of numeric components compare component by component. *)
Lemma compareVersions_rendered (l1 l2 : list N) :
  l1 <> [] -> l2 <> [] ->
  compareVersions (renderVersion l1) (renderVersion l2) = compareComponents l1 l2.
Proof.
  intros H1 H2. unfold compareVersions. cbv zeta.
  rewrite !parts_of_renderVersion by assumption.
  apply compareFrom_components. now rewrite !length_map.
Qed.

(** X23. Two versions written as dot-separated decimal numerals (every
    component below 2^53, where a double holds it exactly) are compared
    component by component as numbers, a missing component counting as
    zero: 1.10.0 is above 1.9.3, and 1.2 equals 1.2.0. *)
Theorem compareVersions_numeric (l1 l2 : list N) :
  l1 <> [] -> l2 <> [] ->
  Forall (fun n => (n < exactBelow)%N) l1 ->
  Forall (fun n => (n < exactBelow)%N) l2 ->
  compareVersions (renderVersion l1) (renderVersion l2) = compareComponents l1 l2.
Proof.
  intros H1 H2 _ _. unfold compareVersions. cbv zeta.
  rewrite !parts_of_renderVersion by assumption.
  apply compareFrom_components. now rewrite !length_map.
Qed.

Lemma compareVersions_numeric_witness :
  compareVersions (renderVersion [1; 10; 0]%N) (renderVersion [1; 9; 3]%N) = 1 /\
  compareVersions (renderVersion [1; 2]%N) (renderVersion [1; 2; 0]%N) = 0.
Proof.
  split.
  - rewrite (compareVersions_numeric [1; 10; 0]%N [1; 9; 3]%N);
      [reflexivity | discriminate | discriminate | |];
      repeat first [apply List.Forall_nil | apply List.Forall_cons; [reflexivity|]].
  - reflexivity.
Defined.

(** X24. A last segment that is not a number (a pre-release suffix such
    as 3-beta) counts as zero: the version compares as if that segment
    were 0, so 1.2.3-beta is below 1.2.1. *)
Theorem compareVersions_suffix_counts_as_zero (l : list N) (seg v2 : string) :
  l <> [] ->
  occurs "." seg = false ->
  NumberOfSegment seg = NaN ->
  compareVersions (renderVersion l +:+ "." +:+ seg) v2 =
  compareVersions (renderVersion (l ++ [0%N])) v2.
Proof.
  intros Hne Hdot Hnan. unfold compareVersions. cbv zeta.
  destruct (split_renderVersion l seg Hne) as [_ E1].
  assert (Hne' : l ++ [0%N] <> []) by (destruct l; discriminate).
  destruct (split_renderVersion (l ++ [0%N]) EmptyString Hne') as [E2 _].
  rewrite E1, E2, (split_no_dot seg Hdot).
  rewrite !map_app, !length_app, !length_map. cbn [map length].
  apply compareFrom_ext; [|reflexivity].
  intros j. destruct (decide (j < length l)%nat) as [Hj|Hj].
  - rewrite !lookup_app_l by (rewrite !length_map; exact Hj). now rewrite map_map.
  - rewrite !lookup_app_r by (rewrite !length_map; lia).
    rewrite !length_map. destruct (j - length l)%nat; [|reflexivity].
    cbn [lookup list_lookup]. rewrite Hnan, NumberOfSegment_numeral. reflexivity.
Qed.

Lemma compareVersions_suffix_counts_as_zero_witness :
  compareVersions (renderVersion [1; 2]%N +:+ "." +:+ "3-beta") "1.2.1" =
  compareVersions (renderVersion [1; 2; 0]%N) "1.2.1" /\
  compareVersions "1.2.3-beta" "1.2.1" = -1.
Proof.
  split.
  - apply (compareVersions_suffix_counts_as_zero [1; 2]%N "3-beta" "1.2.1");
      [discriminate | reflexivity | reflexivity].
  - reflexivity.
Defined.

Lemma dropFirstV_v (s : string) : dropFirstV ("v" +:+ s) = s.
Proof. reflexivity. Qed.

Lemma compareVersions_refl (v : string) : compareVersions v v = 0.
Proof. unfold compareVersions. cbv zeta. apply compareFrom_refl. Qed.

(** X25. A release whose tag is the letter v followed by the running
    version is never announced: a background check shows nothing, and a
    check asked for by hand shows only the no-updates notice. *)
Theorem checkForUpdates_same_version (current url : string)
  (showNoUpdateDialog download : bool) :
  checkForUpdates current showNoUpdateDialog download
    (Answer 200 (Some (mkRelease (Some ("v" +:+ current)) url))) =
  ({| updateAvailable := false; version := None; error := false |},
   if showNoUpdateDialog then [NoUpdates] else []).
Proof.
  unfold checkForUpdates. cbn [Z.eqb Pos.eqb tag_name]. cbv zeta.
  rewrite dropFirstV_v, compareVersions_refl. reflexivity.
Qed.

(** X26. For versions written as decimal numerals, a release tagged v
    plus its version is announced exactly when it is above the running
    version in the component order; the browser is opened on the
    release page only after such an announcement, when the user chooses
    to download. *)
Theorem checkForUpdates_numeric (current latest : list N) (url : string)
  (showNoUpdateDialog download : bool) :
  current <> [] -> latest <> [] ->
  Forall (fun n => (n < exactBelow)%N) current ->
  Forall (fun n => (n < exactBelow)%N) latest ->
  let answer := Answer 200 (Some (mkRelease (Some ("v" +:+ renderVersion latest)) url)) in
  let result := checkForUpdates (renderVersion current) showNoUpdateDialog download answer in
  let newer := 0 <? compareComponents latest current in
  updateAvailable result.1 = newer /\
  error result.1 = false /\
  version result.1 = (if newer then Some (renderVersion latest) else None) /\
  result.2 =
    (if newer then
       UpdateAvailable (renderVersion latest)
         :: (if download then [OpenExternal url] else [])
     else if showNoUpdateDialog then [NoUpdates] else []).
Proof.
  intros Hc Hl _ _. cbv zeta. unfold checkForUpdates.
  cbn [Z.eqb Pos.eqb tag_name html_url]. cbv zeta.
  rewrite dropFirstV_v, (compareVersions_rendered latest current Hl Hc).
  destruct (0 <? compareComponents latest current); repeat split.
Qed.

Lemma checkForUpdates_numeric_witness :
  (checkForUpdates (renderVersion [1; 9; 3]%N) false true
     (Answer 200 (Some (mkRelease (Some ("v" +:+ renderVersion [1; 10; 0]%N))
                                  "https://example.org/release")))).2 =
  [UpdateAvailable "1.10.0"; OpenExternal "https://example.org/release"].
Proof.
  destruct (checkForUpdates_numeric [1; 9; 3]%N [1; 10; 0]%N
              "https://example.org/release" false true) as (_ & _ & _ & H);
    [discriminate | discriminate | | | exact H];
    repeat first [apply List.Forall_nil | apply List.Forall_cons; [reflexivity|]].
Defined.

(** X27. A check that fails (request error, status other than 200, a
    body that does not parse, a release without a tag) never reports an
    update and never opens the browser; the user is told of the failure
    only for a request error in a check asked for by hand, every other
    failure stays silent. *)
Theorem checkForUpdates_failure (current : string) (showNoUpdateDialog download : bool)
  (r : Response) :
  error (checkForUpdates current showNoUpdateDialog download r).1 = true ->
  updateAvailable (checkForUpdates current showNoUpdateDialog download r).1 = false /\
  (checkForUpdates current showNoUpdateDialog download r).2 =
    (match r with
     | RequestError => if showNoUpdateDialog then [CheckFailed] else []
     | Answer _ _ => []
     end).
Proof.
  unfold checkForUpdates. cbv zeta. destruct r as [|code [[[tag|] url]|]];
    [intros _; split; reflexivity|..].
  - destruct (code =? 200); [|intros _; split; reflexivity].
    cbn [tag_name]. destruct (0 <? _); intros H; discriminate H.
  - destruct (code =? 200); intros _; split; reflexivity.
  - destruct (code =? 200); intros _; split; reflexivity.
Qed.

Lemma checkForUpdates_failure_witness :
  (checkForUpdates "1.0.0" true true (Answer 404 None)).2 = [].
Proof.
  apply (checkForUpdates_failure "1.0.0" true true (Answer 404 None)). reflexivity.
Defined.

(** X28. The changelog is shown once per version: when the version file
    can be written and the running version is not the empty string, a
    start that follows any start of the same version does not show it
    again, whatever the file held before. *)
Theorem showChangelogIfNeeded_once (currentVersion : string) (file : option string) :
  currentVersion <> EmptyString ->
  (showChangelogIfNeeded currentVersion true
     (showChangelogIfNeeded currentVersion true file).2).1 = false.
Proof.
  intros Hne.
  assert (Hsame : forall f, getLastShownVersion f = Some currentVersion ->
                  (showChangelogIfNeeded currentVersion true f).1 = false).
  { intros f Hf. unfold showChangelogIfNeeded. rewrite Hf, String.eqb_refl. reflexivity. }
  assert (Hcur : getLastShownVersion (Some currentVersion) = Some currentVersion).
  { unfold getLastShownVersion. destruct currentVersion; [congruence | reflexivity]. }
  unfold showChangelogIfNeeded at 2.
  destruct (getLastShownVersion file) as [lastShown|] eqn:E.
  - destruct (String.eqb_spec lastShown currentVersion) as [->|Hd]; cbn [snd];
      apply Hsame; [exact E | exact Hcur].
  - cbn [snd]. apply Hsame, Hcur.
Qed.

Lemma showChangelogIfNeeded_once_witness :
  (showChangelogIfNeeded "1.1.0" true
     (showChangelogIfNeeded "1.1.0" true (Some "1.0.0"%string)).2).1 = false.
Proof.
  apply (showChangelogIfNeeded_once "1.1.0" (Some "1.0.0"%string)). discriminate.
Defined.

End Versions.

(** ** Paging through a PDF *)

Section Paging.

Import PDFViewer.

Lemma nextPage_iter (k : nat) (v : t) :
  pdfDoc v = true -> 1 <= currentPage v <= totalPages v ->
  pdfDoc (Nat.iter k nextPage v) = true /\
  totalPages (Nat.iter k nextPage v) = totalPages v /\
  currentPage (Nat.iter k nextPage v) = Z.min (currentPage v + Z.of_nat k) (totalPages v).
Proof.
  intros Hdoc Hrange. induction k as [|k (I1 & I2 & I3)].
  - cbn [Nat.iter nat_rect]. repeat split; [exact Hdoc | lia].
  - change (Nat.iter (S k) nextPage v) with (nextPage (Nat.iter k nextPage v)).
    set (w := Nat.iter k nextPage v) in *. unfold nextPage, renderPage. rewrite I1.
    destruct (currentPage w <? totalPages w) eqn:E;
      [apply Z.ltb_lt in E | apply Z.ltb_ge in E];
      cbn [pdfDoc totalPages currentPage]; repeat split; try assumption; lia.
Qed.

Lemma previousPage_iter (k : nat) (v : t) :
  pdfDoc v = true -> 1 <= currentPage v <= totalPages v ->
  pdfDoc (Nat.iter k previousPage v) = true /\
  totalPages (Nat.iter k previousPage v) = totalPages v /\
  currentPage (Nat.iter k previousPage v) = Z.max 1 (currentPage v - Z.of_nat k).
Proof.
  intros Hdoc Hrange. induction k as [|k (I1 & I2 & I3)].
  - cbn [Nat.iter nat_rect]. repeat split; [exact Hdoc | lia].
  - change (Nat.iter (S k) previousPage v) with (previousPage (Nat.iter k previousPage v)).
    set (w := Nat.iter k previousPage v) in *. unfold previousPage, renderPage. rewrite I1.
    destruct (1 <? currentPage w) eqn:E;
      [apply Z.ltb_lt in E | apply Z.ltb_ge in E];
      cbn [pdfDoc totalPages currentPage]; repeat split; try assumption; lia.
Qed.

(** A call that is awaited, on a viewer with no render in progress, is
    the method of [PDFViewer]. *)
Lemma awaited_call (v : t) :
  PageQueue.run (PageQueue.awaited PageQueue.NextPage) (PageQueue.idle v)
    = PageQueue.idle (nextPage v) /\
  PageQueue.run (PageQueue.awaited PageQueue.PreviousPage) (PageQueue.idle v)
    = PageQueue.idle (previousPage v) /\
  (forall pageNum : Z,
      PageQueue.run (PageQueue.awaited (PageQueue.GoToPage pageNum)) (PageQueue.idle v)
        = PageQueue.idle (goToPage pageNum v)).
Proof.
  destruct v as [d c n].
  unfold PageQueue.run, PageQueue.awaited, PageQueue.idle. cbn [fold_left PageQueue.step].
  unfold PageQueue.nextPage, PageQueue.previousPage, PageQueue.goToPage,
    nextPage, previousPage, goToPage.
  cbn [PageQueue.viewer currentPage totalPages].
  split; [|split; [|intros pageNum]].
  - destruct (c <? n); destruct d; reflexivity.
  - destruct (1 <? c); destruct d; reflexivity.
  - destruct ((1 <=? pageNum) && (pageNum <=? n)); destruct d; reflexivity.
Qed.

Lemma awaited_nextPage_iter (j : nat) (v : t) :
  PageQueue.run (concat (repeat (PageQueue.awaited PageQueue.NextPage) j)) (PageQueue.idle v)
    = PageQueue.idle (Nat.iter j nextPage v).
Proof.
  revert v. induction j as [|j IH]; intros v; [reflexivity|].
  cbn [repeat concat]. unfold PageQueue.run. rewrite fold_left_app.
  fold (PageQueue.run (PageQueue.awaited PageQueue.NextPage) (PageQueue.idle v)).
  destruct (awaited_call v) as [-> _].
  fold (PageQueue.run (concat (repeat (PageQueue.awaited PageQueue.NextPage) j))
          (PageQueue.idle (nextPage v))).
  rewrite IH. now rewrite Nat.iter_succ_r.
Qed.

(** Calls of [nextPage] that arrive during a render change the pending
    page only, and all leave the same number there. *)
Lemma nextPage_during_render (k : nat) (s : PageQueue.t) :
  PageQueue.pageRendering s = true -> pdfDoc (PageQueue.viewer s) = true ->
  PageQueue.run (repeat PageQueue.NextPage k) s
    = {| PageQueue.viewer := PageQueue.viewer s; PageQueue.pageRendering := true;
         PageQueue.pageNumPending :=
           if (0 <? k)%nat
              && (currentPage (PageQueue.viewer s) <? totalPages (PageQueue.viewer s))
           then Some (currentPage (PageQueue.viewer s) + 1)
           else PageQueue.pageNumPending s |}.
Proof.
  revert s. induction k as [|k IH]; intros s Hr Hd.
  - destruct s as [v r q]. cbn in Hr. subst r. reflexivity.
  - cbn [repeat]. unfold PageQueue.run. cbn [fold_left PageQueue.step].
    fold (PageQueue.run (repeat PageQueue.NextPage k) (PageQueue.nextPage s)).
    unfold PageQueue.nextPage, PageQueue.renderPage at 1. rewrite Hr, Hd. cbn [negb].
    destruct (currentPage (PageQueue.viewer s) <? totalPages (PageQueue.viewer s)) eqn:E.
    + rewrite IH by (cbn [PageQueue.viewer PageQueue.pageRendering]; assumption || reflexivity).
      cbn [PageQueue.viewer PageQueue.pageRendering PageQueue.pageNumPending].
      rewrite E, andb_true_r. cbn [Nat.ltb Nat.leb andb]. now destruct k.
    + rewrite IH by assumption. rewrite E, !andb_false_r. reflexivity.
Qed.

(** X29.  Paging adds up only for calls that are awaited.  On a loaded
    viewer at a page from 1 to the last, [j] calls of [nextPage], each
    with its render ended before the next call, lead [j] pages on, held
    at the last page.  The handlers of the renderer do not await: [j]
    calls, at least two, made while the render of the first is in
    progress, lead two pages on and no further, the later calls all
    leaving the same page number pending; once the renders have ended
    the viewer is at rest on that page. *)
Theorem paging_and_the_render_queue (v : t) (j : nat) :
  pdfDoc v = true -> 1 <= currentPage v <= totalPages v ->
  PageQueue.run (concat (repeat (PageQueue.awaited PageQueue.NextPage) j)) (PageQueue.idle v)
    = PageQueue.idle
        {| pdfDoc := true;
           currentPage := Z.min (currentPage v + Z.of_nat j) (totalPages v);
           totalPages := totalPages v |} /\
  ((2 <= j)%nat ->
   PageQueue.run
     (repeat PageQueue.NextPage j ++ [PageQueue.RenderDone true; PageQueue.RenderDone true])
     (PageQueue.idle v)
     = PageQueue.idle
         {| pdfDoc := true;
            currentPage := Z.min (currentPage v + 2) (totalPages v);
            totalPages := totalPages v |}).
Proof.
  intros Hd Hrange. split.
  - rewrite awaited_nextPage_iter. f_equal.
    destruct (nextPage_iter j v Hd Hrange) as (I1 & I2 & I3).
    destruct (Nat.iter j nextPage v) as [d c n]. cbn in I1, I2, I3. now subst.
  - intros Hj. destruct j as [|j]; [lia|].
    cbn [repeat app]. unfold PageQueue.run. cbn [fold_left PageQueue.step].
    rewrite fold_left_app.
    destruct v as [d c n]. cbn in Hd, Hrange. subst d.
    cbn [currentPage totalPages].
    set (v := {| pdfDoc := true; currentPage := c; totalPages := n |}).
    destruct (c <? n) eqn:E.
    + assert (Hfirst : PageQueue.nextPage (PageQueue.idle v)
                       = {| PageQueue.viewer :=
                              {| pdfDoc := true; currentPage := c + 1; totalPages := n |};
                            PageQueue.pageRendering := true;
                            PageQueue.pageNumPending := None |}).
      { unfold PageQueue.nextPage, PageQueue.renderPage, PageQueue.idle.
        cbn [PageQueue.viewer PageQueue.pageRendering PageQueue.pageNumPending v pdfDoc
             negb currentPage totalPages].
        now rewrite E. }
      rewrite Hfirst.
      match goal with
      | |- context [fold_left PageQueue.step (repeat PageQueue.NextPage j) ?s] =>
          fold (PageQueue.run (repeat PageQueue.NextPage j) s);
          rewrite (nextPage_during_render j s eq_refl eq_refl)
      end.
      cbn [PageQueue.viewer PageQueue.pageNumPending currentPage totalPages].
      replace (0 <? j)%nat with true by (symmetry; apply Nat.ltb_lt; lia).
      cbn [andb fold_left PageQueue.step]. apply Z.ltb_lt in E.
      destruct (c + 1 <? n) eqn:E2; [apply Z.ltb_lt in E2 | apply Z.ltb_ge in E2];
        unfold PageQueue.renderDone, PageQueue.renderPage, PageQueue.idle;
        cbn [PageQueue.viewer PageQueue.pageRendering PageQueue.pageNumPending pdfDoc negb
             totalPages];
        do 2 f_equal; lia.
    + apply Z.ltb_ge in E.
      assert (Hrest : forall k s, PageQueue.viewer s = v ->
                 fold_left PageQueue.step (repeat PageQueue.NextPage k) s = s).
      { induction k as [|k IH]; intros s Hs; [reflexivity|].
        cbn [repeat fold_left PageQueue.step]. unfold PageQueue.nextPage at 1.
        rewrite Hs. cbn [v currentPage totalPages].
        replace (c <? n) with false by (symmetry; apply Z.ltb_ge; lia). now apply IH. }
      assert (Hone : PageQueue.nextPage (PageQueue.idle v) = PageQueue.idle v).
      { unfold PageQueue.nextPage, PageQueue.idle. cbn [PageQueue.viewer v currentPage totalPages].
        now replace (c <? n) with false by (symmetry; apply Z.ltb_ge; lia). }
      rewrite Hone, Hrest by reflexivity. cbn [fold_left PageQueue.step].
      unfold PageQueue.renderDone, PageQueue.idle. cbn [PageQueue.pageRendering].
      subst v. do 2 f_equal. lia.
Qed.

Lemma paging_and_the_render_queue_witness :
  PageQueue.run
    [PageQueue.NextPage; PageQueue.NextPage; PageQueue.NextPage;
     PageQueue.RenderDone true; PageQueue.RenderDone true]
    (PageQueue.idle (loadPDF 10 constructor))
  = PageQueue.idle {| pdfDoc := true; currentPage := 3; totalPages := 10 |}.
Proof.
  destruct (paging_and_the_render_queue (loadPDF 10 constructor) 3 eq_refl
              ltac:(cbn; lia)) as [_ H].
  apply H. lia.
Defined.

End Paging.

(** ** Preferences in memory *)

Section Preferences.

Import Settings.

(** The manager after a sequence of [set] calls on a new manager. *)
Lemma sets_keep_defaults (sets : list (string * Value)) (m : SettingsManager) :
  defaults (foldl (fun m kv => set kv.1 kv.2 m) m sets) = defaults m.
Proof.
  revert m. induction sets as [|[k v] sets IH]; intros m; [reflexivity|].
  cbn [foldl]. rewrite IH. reflexivity.
Qed.

(** X30.  Preferences round-trip in memory: after any sequence of [set]
    calls on a new manager, [set] followed by [get] of the same key (other
    than [__proto__], which names no property of its own) gives the value
    set, every other key reads as before, and [reset] brings back exactly
    the defaults of a new manager, which no [set] can alter. *)
Theorem set_get_reset_round_trip (sets : list (string * Value)) (key : string) (v : Value) :
  key <> "__proto__"%string ->
  let m := foldl (fun m kv => set kv.1 kv.2 m) constructor sets in
  get key (set key v m) = Some v /\
  (forall k : string, k <> key -> get k (set key v m) = get k m) /\
  reset (set key v m) = constructor.
Proof.
  intros _ m. unfold get, set, reset. cbn [settings defaults].
  split; [apply lookup_insert_eq|]. split.
  - intros k Hk. apply lookup_insert_ne. congruence.
  - subst m. rewrite sets_keep_defaults. reflexivity.
Qed.

Lemma set_get_reset_round_trip_witness :
  get "theme" (set "theme" (VStr "dark")
    (foldl (fun m kv => set kv.1 kv.2 m) constructor [("fontSize"%string, VNum 20)]))
  = Some (VStr "dark").
Proof.
  apply (set_get_reset_round_trip [("fontSize"%string, VNum 20)] "theme" (VStr "dark")).
  discriminate.
Defined.

End Preferences.

(** ** Calls that overlap *)

Section Overlapping.

Import Js Renderer Reader Tasks.

Lemma complete_done (w : World) (k : nat) (st : State) :
  complete w k (st, None) = (st, None).
Proof. destruct k; reflexivity. Qed.

Lemma complete_step (w : World) (k : nat) (st : State) (t : Task) :
  complete w (S k) (st, Some t) = complete w k (resume t w st).
Proof. reflexivity. Qed.

(** The add that [loadPDF] makes, cut at its await and answered, is the
    add run in one piece. *)
Lemma add_by_path_alone (w : World) (k : nat) (p : string)
  (titleArg authorArg fileTypeArg : option string) (st : State) :
  truthy p = true ->
  complete w (S k) (addBookToLibrary_begin (Some p) titleArg authorArg fileTypeArg st)
  = (addBookToLibrary_from_loader (Some p) titleArg authorArg fileTypeArg w st, None).
Proof.
  intros Hp. unfold addBookToLibrary_begin, addBookToLibrary_from_loader,
    addBookToLibrary_with, addBookToLibrary_check, chosenPath.
  cbn [truthy_opt]. rewrite Hp. cbv zeta.
  destruct (findByPath p (library st)); [reflexivity|].
  rewrite complete_step. cbn [resume].
  destruct (libraryEntryFor _ _ _ _ _ _) as [[st1 e]|]; cbv zeta;
    apply complete_done.
Qed.

(** A call of [loadBook], cut at its awaits and answered each time with
    nothing else running in between, is [loadBook] run in one piece. *)
Lemma loadBook_alone (w : World) (k : nat) (p : string) (st : State) :
  complete w (S (S (S k))) (loadBook_begin p st) = (loadBook p w st, None).
Proof.
  unfold loadBook_begin, loadBook. cbv zeta. destruct (dispatch p) eqn:Hd.
  - apply dispatch_pdf_truthy in Hd. unfold loadPDF, loadPDF_view, loadPDF_read.
    cbv zeta.
    assert (Hread : forall (j : nat) (s : State),
               complete w (S (S j))
                 (set_pdfViewer (Some PDFViewer.constructor) s, Some (PdfReading p))
               = (loadBook_after
                    (loadPDF_read p w (set_pdfViewer (Some PDFViewer.constructor) s)),
                  None)).
    { intros j s. rewrite complete_step. cbn [resume]. unfold loadPDF_read.
      destruct (files w p); cbn [pdfViewer set_pdfViewer];
        try (rewrite complete_done; reflexivity).
      rewrite add_by_path_alone by exact Hd. reflexivity. }
    destruct (_ && _).
    + apply (Hread (S k) (set_rendition None (set_currentBookPath (Some p) st))).
    + rewrite complete_step. cbn [resume]. destruct (pdfSupport w).
      * apply (Hread k (set_pdfLibrariesLoaded
                          (set_rendition None (set_currentBookPath (Some p) st)))).
      * apply complete_done.
  - reflexivity.
  - reflexivity.
Qed.

(** The same for [addBookToLibrary], with or without a path. *)
Lemma addBookToLibrary_alone (w : World) (k : nat)
  (filePathArg titleArg authorArg fileTypeArg : option string) (st : State) :
  complete w (S (S (S (S (S k)))))
    (addBookToLibrary_begin filePathArg titleArg authorArg fileTypeArg st)
  = (addBookToLibrary filePathArg titleArg authorArg fileTypeArg w st, None).
Proof.
  assert (Hdialog :
            truthy_opt filePathArg = false ->
            complete w (S (S (S (S k))))
              (resume (AddChoosing titleArg authorArg fileTypeArg) w st)
            = (addBookToLibrary filePathArg titleArg authorArg fileTypeArg w st, None)).
  { intros Hfalse. unfold addBookToLibrary, addBookToLibrary_with, chosenPath.
    rewrite Hfalse. cbn [resume]. destruct (dialogChoice w) as [q|]; cbn [truthy_opt];
      [|apply complete_done].
    destruct (truthy q); [|apply complete_done].
    unfold addBookToLibrary_check. cbv zeta.
    destruct (findByPath q (library st)); [apply (loadBook_alone w (S k))|].
    rewrite complete_step. cbn [resume].
    destruct (libraryEntryFor _ _ _ _ _ _) as [[st1 e]|]; cbv zeta;
      [apply (loadBook_alone w k) | apply complete_done]. }
  unfold addBookToLibrary_begin.
  destruct filePathArg as [p|]; [|rewrite complete_step; now apply Hdialog].
  destruct (truthy p) eqn:Hp; [|rewrite complete_step; now apply Hdialog].
  unfold addBookToLibrary, addBookToLibrary_with, addBookToLibrary_check, chosenPath.
  cbn [truthy_opt]. rewrite Hp. cbv zeta.
  destruct (findByPath p (library st)); [reflexivity|].
  rewrite complete_step. cbn [resume].
  destruct (libraryEntryFor _ _ _ _ _ _) as [[st1 e]|]; cbv zeta; apply complete_done.
Qed.

(** Answering the only waiting call again and again is [complete]. *)
Lemma run_single (w : World) (n : nat) (st : State) (t : option Task) :
  run w (repeat (Resume 0) n) (st, waiting t)
  = (fst (complete w n (st, t)), waiting (snd (complete w n (st, t)))).
Proof.
  revert st t. induction n as [|n IH]; intros st t; [reflexivity|].
  destruct t as [t|].
  - cbn [repeat run fold_left act waiting fst snd lookup list_lookup].
    destruct (resume t w st) as [st' t'] eqn:E.
    cbn [take drop app]. rewrite app_nil_r.
    change (fold_left (act w) (repeat (Resume 0) n) (st', waiting t'))
      with (run w (repeat (Resume 0) n) (st', waiting t')).
    rewrite IH, complete_step, E. reflexivity.
  - cbn [repeat run fold_left act waiting fst snd lookup list_lookup].
    change (fold_left (act w) (repeat (Resume 0) n) (st, []))
      with (run w (repeat (Resume 0) n) (st, waiting None)).
    rewrite IH, !complete_done. reflexivity.
Qed.

(** A call that is started and answered with nothing else running in
    between does what [loadBook] and [addBookToLibrary] above do, and
    leaves no call waiting. *)
Lemma run_alone (c : Call) (w : World) (st : State) :
  run w (Start c :: repeat (Resume 0) 5) (st, []) = (alone c w st, []).
Proof.
  change (run w (Start c :: repeat (Resume 0) 5) (st, []))
    with (run w (repeat (Resume 0) 5) (act w (st, []) (Start c))).
  unfold act. cbn [fst snd app]. destruct (begin c st) as [st' t] eqn:E.
  rewrite run_single. rewrite <- E.
  destruct c as [p|a b c d]; cbn [begin alone].
  - now rewrite (loadBook_alone w 2).
  - now rewrite (addBookToLibrary_alone w 0).
Qed.

(** What the EPUB branch of an add builds. *)
Lemma libraryEntryFor_epub (w : World) (st : State) (p : string) (d : EpubDoc)
  (m : EpubMetadata) (titleArg authorArg : option string) :
  files w p = EpubDocument d -> metadata d = Some m ->
  exists e : Entry.t,
    Entry.path e = p /\
    forall s : State,
      clock s = clock st ->
      exists s1 : State,
        libraryEntryFor p titleArg authorArg "epub" w s = Some (s1, e) /\
        library s1 = library s /\
        libraryWrites (calls s1) = libraryWrites (calls s).
Proof.
  intros Hf Hm. unfold libraryEntryFor. cbn [String.eqb Ascii.eqb Bool.eqb]. rewrite Hf, Hm.
  cbv zeta. unfold Date_now.
  eexists. split; cycle 1.
  - intros s Hs. rewrite Hs. eexists. split; [reflexivity|].
    destruct (hasCover d); [|split; reflexivity].
    split; [reflexivity|]. rewrite libraryWrites_emit. apply app_nil_r.
  - reflexivity.
Qed.

Lemma not_onePerPath_twice (e : Entry.t) (lib : list Entry.t) : ~ onePerPath (e :: e :: lib).
Proof.
  unfold onePerPath. cbn [map]. intros H. inversion H as [|? ? Hnot _]; subst.
  apply Hnot. left.
Qed.

(** C1 fails in the code.  [addBookToLibrary] looks the path up before it
    reads the file and puts the entry in after, with awaits in between
    and no second look-up.  Two adds of a path that is not in the library,
    the second started while the first waits for its file, both find the
    path missing and both put an entry in: the library ends with two
    entries for the path, with the same [id], and that library is handed
    to the storage bridge.  The same two adds one after the other leave
    one entry. *)
Theorem overlapping_adds_duplicate_path (w : World) (st : State) (p : string)
  (d : EpubDoc) (m : EpubMetadata) (titleArg authorArg : option string) :
  truthy p = true ->
  toLowerCase (lastSegment "." p) <> "pdf"%string ->
  files w p = EpubDocument d -> metadata d = Some m ->
  findByPath p (library st) = None ->
  let add := AddBook (Some p) titleArg authorArg None in
  let overlapped := run w [Start add; Start add; Resume 0; Resume 0] (st, []) in
  exists e : Entry.t,
    Entry.path e = p /\
    snd overlapped = [] /\
    library (fst overlapped) = e :: e :: library st /\
    libraryWrites (calls (fst overlapped))
      = libraryWrites (calls st) ++ [e :: library st; e :: e :: library st] /\
    ~ onePerPath (library (fst overlapped)) /\
    library (alone add w (alone add w st)) = e :: library st.
Proof.
  intros Hp Hext Hf Hm Hfind add overlapped.
  destruct (libraryEntryFor_epub w st p d m titleArg authorArg Hf Hm) as (e & He & Hentry).
  exists e. split; [exact He|].
  assert (Hty : or_else None (classifyFileType p) = "epub"%string).
  { unfold classifyFileType. apply String.eqb_neq in Hext. now rewrite Hext. }
  assert (Hbegin : begin add st
                   = (st, Some (AddReading true p titleArg authorArg "epub"))).
  { cbn [begin add addBookToLibrary_begin]. rewrite Hp. unfold addBookToLibrary_check.
    cbv zeta. now rewrite Hfind, Hty. }
  destruct (Hentry st eq_refl) as (s1 & E1 & L1 & W1).
  set (st1 := saveLibrary (set_library (e :: library s1) s1)).
  assert (Hclock : clock st1 = clock st).
  { subst st1. cbn [clock saveLibrary emit set_calls set_library].
    unfold libraryEntryFor in E1. cbn [String.eqb Ascii.eqb Bool.eqb] in E1.
    rewrite Hf, Hm in E1. cbv zeta in E1. injection E1 as <- _.
    now destruct (hasCover d). }
  destruct (Hentry st1 Hclock) as (s2 & E2 & L2 & W2).
  set (st2 := saveLibrary (set_library (e :: library s2) s2)).
  assert (Hrun : overlapped = (st2, [])).
  { subst overlapped. unfold run. cbn [fold_left]. unfold act at 4.
    cbn [fst snd]. rewrite Hbegin. cbn [app waiting]. unfold act at 3.
    cbn [fst snd]. rewrite Hbegin. cbn [app waiting]. unfold act at 2.
    cbn [fst snd lookup list_lookup resume]. rewrite E1. cbv zeta.
    cbn [take drop app waiting]. unfold act.
    cbn [fst snd lookup list_lookup resume]. fold st1. rewrite E2. reflexivity. }
  rewrite Hrun. cbn [fst snd].
  assert (Hlib : library st2 = e :: e :: library st).
  { subst st2 st1. cbn [library saveLibrary emit set_calls set_library].
    rewrite L2. cbn [library saveLibrary emit set_calls set_library]. now rewrite L1. }
  split; [reflexivity|]. split; [exact Hlib|]. split; [|split].
  - subst st2. unfold saveLibrary at 1. rewrite libraryWrites_emit.
    cbn [calls library set_library]. rewrite W2, L2. subst st1.
    unfold saveLibrary at 1. rewrite libraryWrites_emit.
    cbn [calls library set_library saveLibrary emit set_calls]. rewrite W1, L1.
    now rewrite <- app_assoc.
  - rewrite Hlib. apply not_onePerPath_twice.
  - assert (Hone : alone add w st = st1).
    { cbn [alone add]. unfold addBookToLibrary, addBookToLibrary_with, chosenPath.
      cbn [truthy_opt]. rewrite Hp, Hfind, Hty, E1. reflexivity. }
    rewrite Hone. cbn [alone add].
    assert (Hfind1 : findByPath p (library st1) = Some e).
    { subst st1. cbn [library saveLibrary emit set_calls set_library].
      rewrite <- He. apply findByPath_head. }
    unfold addBookToLibrary.
    rewrite (addBookToLibrary_with_present _ (Some p) titleArg authorArg None w st1 p e);
      [|unfold chosenPath; cbn [truthy_opt]; now rewrite Hp | exact Hfind1].
    cbn [truthy_opt]. rewrite Hp. subst st1.
    cbn [library saveLibrary emit set_calls set_library]. now rewrite L1.
Qed.

Lemma overlapping_adds_duplicate_path_witness :
  exists e : Entry.t,
    Entry.path e = "/books/a.epub"%string /\
    library
      (fst (run sampleWorld
              [Start (AddBook (Some "/books/a.epub"%string) None None None);
               Start (AddBook (Some "/books/a.epub"%string) None None None);
               Resume 0; Resume 0] (emptyState, [])))
    = [e; e].
Proof.
  destruct (overlapping_adds_duplicate_path sampleWorld emptyState "/books/a.epub"
              _ _ None None eq_refl ltac:(vm_compute; discriminate) eq_refl eq_refl eq_refl)
    as (e & H1 & _ & H2 & _).
  exists e. split; [exact H1 | exact H2].
Defined.

(** The same defect met from the file dialog and from the menu: "Add
    Book" used twice on the same new EPUB, the second file picked while
    the first add reads its file; and the same new PDF opened twice, the
    second load reaching its add while the first add reads the file. *)
Example overlapping_adds_by_dialog_and_by_menu :
  map Entry.path
    (library
       (fst (run sampleWorld
               [Start (AddBook None None None None); Resume 0;
                Start (AddBook None None None None); Resume 1;
                Resume 0; Resume 1; Resume 0; Resume 0] (emptyState, []))))
  = ["/books/a.epub"; "/books/a.epub"]%string /\
  map Entry.path
    (library
       (fst (run sampleWorld
               [Start (OpenBook "/books/manual.pdf"); Resume 0; Resume 0;
                Start (OpenBook "/books/manual.pdf"); Resume 1;
                Resume 0; Resume 0] (emptyState, []))))
  = ["/books/manual.pdf"; "/books/manual.pdf"]%string.
Proof. split; reflexivity. Qed.

(** The add that a load of a PDF makes leaves the engines alone. *)
Lemma add_task_engines (w : World) (byPath : bool) (p : string)
  (titleArg authorArg : option string) (fileType : string) (st : State) :
  byPath = true ->
  snd (resume (AddReading byPath p titleArg authorArg fileType) w st) = None /\
  rendition (fst (resume (AddReading byPath p titleArg authorArg fileType) w st))
    = rendition st /\
  pdfViewer (fst (resume (AddReading byPath p titleArg authorArg fileType) w st))
    = pdfViewer st /\
  currentBookPath (fst (resume (AddReading byPath p titleArg authorArg fileType) w st))
    = currentBookPath st.
Proof.
  intros ->. cbn [resume]. unfold libraryEntryFor.
  destruct (String.eqb fileType "pdf").
  - destruct (files w p); try (repeat split; reflexivity).
    destruct (pdfViewerLoaded st); cbn [negb]; repeat split; reflexivity.
  - destruct (files w p) as [| | | d |]; try (repeat split; reflexivity).
    destruct (metadata d); [|repeat split; reflexivity].
    destruct (hasCover d); repeat split; reflexivity.
Qed.

(** X14.  The two engines exclude each other only as long as loads do
    not overlap.  [loadEPUB] tears the PDF viewer down before it waits
    for its file and makes its rendition after; [loadPDF] does the
    reverse.  A load of a PDF started while a load of an EPUB waits for
    its file therefore ends with both: the rendition of the EPUB and a
    viewer on page 1 of the PDF, the current path being that of the PDF.
    The same two loads one after the other end with the viewer and no
    rendition. *)
Theorem overlapping_loads_leave_both_engines (w : World) (st : State)
  (epubPath pdfPath : string) (d : EpubDoc) (n : Z) (t a : option string) :
  dispatch epubPath = ToEPUB -> dispatch pdfPath = ToPDF ->
  files w epubPath = EpubDocument d -> displays d = true ->
  files w pdfPath = PdfDocument n t a -> pdfSupport w = true ->
  let overlapped :=
    run w [Start (OpenBook epubPath); Start (OpenBook pdfPath);
           Resume 0; Resume 0; Resume 0; Resume 0] (st, []) in
  let inTurn := loadBook pdfPath w (loadBook epubPath w st) in
  snd overlapped = [] /\
  rendition (fst overlapped) = Some {| shown := None; navigable := accepts d |} /\
  pdfViewer (fst overlapped)
    = Some {| PDFViewer.pdfDoc := true; PDFViewer.currentPage := 1;
              PDFViewer.totalPages := n |} /\
  currentBookPath (fst overlapped) = Some pdfPath /\
  ~ oneEngine (fst overlapped) /\
  rendition inTurn = None /\
  pdfViewer inTurn
    = Some {| PDFViewer.pdfDoc := true; PDFViewer.currentPage := 1;
              PDFViewer.totalPages := n |}.
Proof.
  intros He Hp Hfe Hdisp Hfp Hsup overlapped inTurn.
  assert (Htruthy := dispatch_pdf_truthy pdfPath Hp).
  (* the EPUB load, answered while the PDF load waits *)
  assert (Hepub : forall s : State,
             exists s' : State,
               resume (EpubReading epubPath) w s = (s', None) /\
               rendition s' = Some {| shown := None; navigable := accepts d |} /\
               pdfViewer s' = pdfViewer s /\ currentBookPath s' = currentBookPath s /\
               pdfJsLoaded s' = pdfJsLoaded s /\ pdfViewerLoaded s' = pdfViewerLoaded s).
  { intros s. eexists. split; [reflexivity|]. unfold loadEPUB_read. rewrite Hfe, Hdisp.
    unfold generateBookIdentifier.
    destruct (metadata d) as [m|]; [destruct (truthy_opt (identifier m))|];
      repeat split; reflexivity. }
  (* the PDF load from the read of its file on *)
  assert (Hpdf : forall s : State,
             pdfViewer s = Some PDFViewer.constructor ->
             exists s' : State,
               run w [Resume 0; Resume 0] (s, [PdfReading pdfPath]) = (s', []) /\
               rendition s' = rendition s /\
               pdfViewer s' = Some {| PDFViewer.pdfDoc := true; PDFViewer.currentPage := 1;
                                      PDFViewer.totalPages := n |} /\
               currentBookPath s' = currentBookPath s).
  { intros s Hv.
    assert (Hfirst :
              act w (s, [PdfReading pdfPath]) (Resume 0)
              = (let s1 := set_pdfViewer
                             (Some (PDFViewer.loadPDF n PDFViewer.constructor)) s in
                 match findByPath pdfPath (library s) with
                 | Some _ => (s1, [])
                 | None =>
                     (s1, [AddReading true pdfPath
                             (Some (or_else (Some (or_else t "Untitled PDF")) "Untitled PDF"))
                             (Some (or_else (Some (or_else a "Unknown")) "Unknown"))
                             "pdf"])
                 end)).
    { unfold act. cbn [fst snd lookup list_lookup resume]. rewrite Hfp, Hv.
      unfold addBookToLibrary_begin. rewrite Htruthy. unfold addBookToLibrary_check.
      cbv zeta. cbn [library set_pdfViewer].
      destruct (findByPath pdfPath (library s)); reflexivity. }
    unfold run. cbn [fold_left]. rewrite Hfirst. cbv zeta.
    destruct (findByPath pdfPath (library s)).
    - eexists. split; [reflexivity|]. repeat split; reflexivity.
    - unfold act. cbn [fst snd lookup list_lookup].
      match goal with
      | |- context [resume (AddReading true ?p ?ti ?au ?ft) w ?s0] =>
          destruct (add_task_engines w true p ti au ft s0 eq_refl) as (E0 & E1 & E2 & E3);
          destruct (resume (AddReading true p ti au ft) w s0) as [s1 o1]
      end.
      cbn [fst snd] in *. subst o1. exists s1. split; [reflexivity|].
      rewrite E1, E2, E3. repeat split; reflexivity. }
  assert (Hover :
            exists s' : State,
              overlapped = (s', []) /\
              rendition s' = Some {| shown := None; navigable := accepts d |} /\
              pdfViewer s'
                = Some {| PDFViewer.pdfDoc := true; PDFViewer.currentPage := 1;
                          PDFViewer.totalPages := n |} /\
              currentBookPath s' = Some pdfPath).
  { subst overlapped.
    change (run w [Start (OpenBook epubPath); Start (OpenBook pdfPath);
                   Resume 0; Resume 0; Resume 0; Resume 0] (st, []))
      with (run w [Resume 0; Resume 0; Resume 0; Resume 0]
              (act w (act w (st, []) (Start (OpenBook epubPath)))
                     (Start (OpenBook pdfPath)))).
    unfold act at 2. cbn [fst snd begin app]. unfold loadBook_begin at 1. rewrite He.
    cbn [app waiting]. unfold act at 1. cbn [fst snd begin app]. unfold loadBook_begin.
    rewrite Hp. cbv zeta.
    set (s0 := set_rendition None (set_currentBookPath (Some pdfPath) _)).
    destruct (pdfJsLoaded s0 && pdfViewerLoaded s0) eqn:Hflags; cbn [app waiting].
    - set (s1 := set_pdfViewer (Some PDFViewer.constructor) s0).
      destruct (Hepub s1) as (s2 & R2 & A2 & B2 & C2 & _).
      change (run w [Resume 0; Resume 0; Resume 0; Resume 0]
                (s1, [EpubReading epubPath; PdfReading pdfPath]))
        with (run w [Resume 0]
                (run w [Resume 0; Resume 0]
                   (act w (s1, [EpubReading epubPath; PdfReading pdfPath]) (Resume 0)))).
      unfold act at 1. cbn [fst snd lookup list_lookup]. rewrite R2.
      cbn [take drop app waiting].
      destruct (Hpdf s2) as (s3 & P1 & P3 & P4 & P5); [rewrite B2; reflexivity|].
      rewrite P1. exists s3. split; [reflexivity|].
      rewrite P3, P4, P5, A2, C2. repeat split; reflexivity.
    - destruct (Hepub s0) as (s2 & R2 & A2 & B2 & C2 & _).
      change (run w [Resume 0; Resume 0; Resume 0; Resume 0]
                (s0, [EpubReading epubPath; PdfLoadingLibraries pdfPath]))
        with (run w [Resume 0; Resume 0]
                (act w (act w (s0, [EpubReading epubPath; PdfLoadingLibraries pdfPath])
                          (Resume 0)) (Resume 0))).
      unfold act at 2. cbn [fst snd lookup list_lookup]. rewrite R2.
      cbn [take drop app waiting]. unfold act at 1.
      cbn [fst snd lookup list_lookup resume]. rewrite Hsup. cbn [take drop app waiting].
      set (s3 := set_pdfViewer (Some PDFViewer.constructor) (set_pdfLibrariesLoaded s2)).
      destruct (Hpdf s3) as (s4 & P1 & P3 & P4 & P5); [reflexivity|].
      rewrite P1. exists s4. split; [reflexivity|].
      rewrite P3, P4, P5. subst s3.
      cbn [rendition currentBookPath set_pdfViewer set_pdfLibrariesLoaded].
      rewrite A2, C2. repeat split; reflexivity. }
  destruct Hover as (s' & O & O2 & O3 & O4). rewrite O. cbn [fst snd].
  split; [reflexivity|]. split; [exact O2|]. split; [exact O3|]. split; [exact O4|].
  split; [|split].
  - unfold oneEngine. rewrite O2, O3. intros [H|H]; discriminate H.
  - subst inTurn. now apply loadBook_pdf_rendition.
  - subst inTurn. now apply (loadBook_pdf_viewer pdfPath w _ n t a Hp Hsup Hfp).
Qed.

Lemma overlapping_loads_leave_both_engines_witness :
  let st := fst (run sampleWorld
                   [Start (OpenBook "/books/a.epub"); Start (OpenBook "/books/manual.pdf");
                    Resume 0; Resume 0; Resume 0; Resume 0] (emptyState, [])) in
  rendition st <> None /\ pdfViewer st <> None.
Proof.
  destruct (overlapping_loads_leave_both_engines sampleWorld emptyState
              "/books/a.epub" "/books/manual.pdf" _ 10 (Some "Manual"%string) None
              eq_refl eq_refl eq_refl eq_refl eq_refl eq_refl)
    as (_ & H1 & H2 & _).
  cbv zeta. rewrite H1, H2. split; discriminate.
Defined.

End Overlapping.
